(** * Savari ticketing: the Convex backend and its consistency properties

    A shallow embedding of the mutations and queries of
    [convex/operators.ts], [convex/members.ts], [convex/routes.ts],
    [convex/passengers.ts] and [convex/trips.ts], and of
    [getPassengerStats] of [convex/reports.ts], over the tables of
    [convex/schema.ts].

    - A table is the list of its documents in creation order.  Every index
      range the handlers read fixes all the fields of the index by equality,
      so the documents of a range come in creation order and [.first()] is
      the first document of the table that satisfies the range.
    - A mutation is a transaction, and transactions are serial: a handler
      that throws leaves the database as it was.
    - [Date.now()], [nanoid] and the user that [authComponent.getAuthUser]
      resolves are supplied from outside the handlers; they are the
      environment [env] of a call.  [Date.now()] reads the same value
      throughout one call. *)

From Stdlib Require Import List String ZArith Bool Arith Lia DecimalString.
Import ListNotations.
Open Scope string_scope.
Open Scope nat_scope.

(** ** Schema *)

Definition Id := nat.
Definition timestamp := Z.

Inductive Role := operator | driver | business.
Inductive InviteRole := invite_driver | invite_business.
Inductive TripStatus := active | completed.

Definition Role_eqb (a b : Role) : bool :=
  match a, b with
  | operator, operator | driver, driver | business, business => true
  | _, _ => false
  end.

Definition TripStatus_eqb (a b : TripStatus) : bool :=
  match a, b with
  | active, active | completed, completed => true
  | _, _ => false
  end.

(** An invite carries one of the two literals ["driver"] and ["business"]. *)
Definition role_of_invite (r : InviteRole) : Role :=
  match r with invite_driver => driver | invite_business => business end.

(** The user of the authentication component. *)
Module User.
Record t := mk { _id : string; email : string; name : option string }.
End User.

Module Operator.
Record t := mk
  { _id : Id; name : string; slug : string; ownerId : string;
    createdAt : timestamp }.
End Operator.

Module Member.
Record t := mk
  { _id : Id; operatorId : Id; userId : string; role : Role;
    email : string; name : string; createdAt : timestamp }.
End Member.

Module Route.
Record t := mk
  { _id : Id; operatorId : Id; name : string; description : option string;
    isActive : bool; createdAt : timestamp }.
End Route.

Module Passenger.
Record t := mk
  { _id : Id; operatorId : Id; businessId : string; name : string;
    email : string; qrCode : string; createdAt : timestamp;
    archivedAt : option timestamp }.
End Passenger.

Module TripSession.
Record t := mk
  { _id : Id; operatorId : Id; routeId : Id; driverId : string;
    startedAt : timestamp; endedAt : option timestamp;
    status : TripStatus }.
End TripSession.

Module Scan.
Record t := mk
  { _id : Id; operatorId : Id; tripSessionId : Id; passengerId : Id;
    scannedAt : timestamp; scannedBy : string }.
End Scan.

Module Invite.
Record t := mk
  { _id : Id; operatorId : Id; email : string; role : InviteRole;
    token : string; createdAt : timestamp; expiresAt : timestamp;
    usedAt : option timestamp }.
End Invite.

(** The two actions of [convex/emails.tsx] a mutation can schedule. *)
Inductive job :=
| sendInviteEmail (email operatorName : string) (role : InviteRole)
                  (token : string)
| sendTicketEmail (email passengerName operatorName qrCodeValue : string).

(** ** Database, environment and the transaction monad *)

Record db := mkdb
  { operators_tbl : list Operator.t;
    members_tbl : list Member.t;
    routes_tbl : list Route.t;
    passengers_tbl : list Passenger.t;
    tripSessions_tbl : list TripSession.t;
    scans_tbl : list Scan.t;
    invites_tbl : list Invite.t;
    scheduled : list job;
    nextId : Id }.

Definition empty_db : db := mkdb [] [] [] [] [] [] [] [] 0.

(** What the platform hands to one call: the authenticated user (or none),
    the clock and the random-string generator. *)
Record env := mkenv
  { auth : option User.t;
    now : timestamp;
    nano : nat -> string }.

Inductive result (A : Type) :=
| Ok (a : A)
| Err (msg : string).
Arguments Ok {A} a.
Arguments Err {A} msg.

Definition M (A : Type) : Type := env -> db -> result (A * db).

Definition ret {A} (a : A) : M A := fun _ st => Ok (a, st).

Definition bind {A B} (m : M A) (k : A -> M B) : M B :=
  fun e st =>
    match m e st with
    | Ok (a, st') => k a e st'
    | Err msg => Err msg
    end.

Definition throw {A} (msg : string) : M A := fun _ _ => Err msg.

Notation "x <- c ;; k" := (bind c (fun x => k))
  (at level 61, c at next level, right associativity).
Notation "' pat <- c ;; k" :=
  (bind c (fun x => match x with pat => k end))
  (at level 61, pat pattern, c at next level, right associativity).
Notation "c ;; k" := (bind c (fun _ => k))
  (at level 61, right associativity).

(** [if (cond) throw new Error(msg)] *)
Definition throw_if (cond : bool) (msg : string) : M unit :=
  if cond then throw msg else ret tt.

(** [if (!x) throw new Error(msg)], after which [x] is a document. *)
Definition require {A} (x : option A) (msg : string) : M A :=
  match x with Some a => ret a | None => throw msg end.

Definition getAuthUser : M (option User.t) := fun e st => Ok (auth e, st).
Definition Date_now : M timestamp := fun e st => Ok (now e, st).
Definition nanoid (n : nat) : M string := fun e st => Ok (nano e n, st).

(** JavaScript truthiness of an optional number: [undefined] and [0] are
    falsy. *)
Definition truthy (x : option timestamp) : bool :=
  match x with Some z => negb (z =? 0)%Z | None => false end.

(** [user.name || user.email] *)
Definition name_or_email (u : User.t) : string :=
  match User.name u with
  | Some n => if String.eqb n EmptyString then User.email u else n
  | None => User.email u
  end.

(** A table of the schema: how to read it, how to write it back, and the
    [_id] of a document. *)
Record table (row : Type) := mktable
  { rows : db -> list row;
    set_rows : list row -> db -> db;
    doc_id : row -> Id }.
Arguments rows {row} _ _.
Arguments set_rows {row} _ _ _.
Arguments doc_id {row} _ _.

Definition operators_t : table Operator.t :=
  mktable _ operators_tbl
    (fun l s => mkdb l (members_tbl s) (routes_tbl s) (passengers_tbl s)
                  (tripSessions_tbl s) (scans_tbl s) (invites_tbl s)
                  (scheduled s) (nextId s))
    Operator._id.

Definition members_t : table Member.t :=
  mktable _ members_tbl
    (fun l s => mkdb (operators_tbl s) l (routes_tbl s) (passengers_tbl s)
                  (tripSessions_tbl s) (scans_tbl s) (invites_tbl s)
                  (scheduled s) (nextId s))
    Member._id.

Definition routes_t : table Route.t :=
  mktable _ routes_tbl
    (fun l s => mkdb (operators_tbl s) (members_tbl s) l (passengers_tbl s)
                  (tripSessions_tbl s) (scans_tbl s) (invites_tbl s)
                  (scheduled s) (nextId s))
    Route._id.

Definition passengers_t : table Passenger.t :=
  mktable _ passengers_tbl
    (fun l s => mkdb (operators_tbl s) (members_tbl s) (routes_tbl s) l
                  (tripSessions_tbl s) (scans_tbl s) (invites_tbl s)
                  (scheduled s) (nextId s))
    Passenger._id.

Definition tripSessions_t : table TripSession.t :=
  mktable _ tripSessions_tbl
    (fun l s => mkdb (operators_tbl s) (members_tbl s) (routes_tbl s)
                  (passengers_tbl s) l (scans_tbl s) (invites_tbl s)
                  (scheduled s) (nextId s))
    TripSession._id.

Definition scans_t : table Scan.t :=
  mktable _ scans_tbl
    (fun l s => mkdb (operators_tbl s) (members_tbl s) (routes_tbl s)
                  (passengers_tbl s) (tripSessions_tbl s) l (invites_tbl s)
                  (scheduled s) (nextId s))
    Scan._id.

Definition invites_t : table Invite.t :=
  mktable _ invites_tbl
    (fun l s => mkdb (operators_tbl s) (members_tbl s) (routes_tbl s)
                  (passengers_tbl s) (tripSessions_tbl s) (scans_tbl s) l
                  (scheduled s) (nextId s))
    Invite._id.

Definition bump (s : db) : db :=
  mkdb (operators_tbl s) (members_tbl s) (routes_tbl s) (passengers_tbl s)
       (tripSessions_tbl s) (scans_tbl s) (invites_tbl s) (scheduled s)
       (S (nextId s)).

(** [ctx.db.get(id)] *)
Definition db_get {row} (T : table row) (id : Id) : M (option row) :=
  fun _ st => Ok (find (fun r => doc_id T r =? id) (rows T st), st).

(** [ctx.db.insert(table, fields)]: the platform picks a fresh [_id]; the
    new document is the youngest of its table. *)
Definition db_insert {row} (T : table row) (fields : Id -> row) : M Id :=
  fun _ st =>
    let id := nextId st in
    Ok (id, set_rows T (rows T st ++ [fields id]) (bump st)).

Definition patch_rows {row} (T : table row) (id : Id) (f : row -> row)
    (l : list row) : list row :=
  map (fun r => if doc_id T r =? id then f r else r) l.

(** [ctx.db.patch(id, fields)]: the document keeps its place and its
    [_id]; the platform throws when there is no such document. *)
Definition db_patch {row} (T : table row) (id : Id) (f : row -> row)
    : M unit :=
  fun _ st =>
    match find (fun r => doc_id T r =? id) (rows T st) with
    | Some _ => Ok (tt, set_rows T (patch_rows T id f (rows T st)) st)
    | None => Err "Update on nonexistent document"
    end.

(** [ctx.db.delete(id)] *)
Definition db_delete {row} (T : table row) (id : Id) : M unit :=
  fun _ st =>
    match find (fun r => doc_id T r =? id) (rows T st) with
    | Some _ =>
        Ok (tt, set_rows T
                  (filter (fun r => negb (doc_id T r =? id)) (rows T st)) st)
    | None => Err "Delete on nonexistent document"
    end.

(** [ctx.db.query(table).withIndex(range).first()] *)
Definition q_first {row} (T : table row) (range : row -> bool)
    : M (option row) :=
  fun _ st => Ok (find range (rows T st), st).

(** [ctx.db.query(table).withIndex(range).collect()] *)
Definition q_collect {row} (T : table row) (range : row -> bool)
    : M (list row) :=
  fun _ st => Ok (filter range (rows T st), st).

(** [ctx.scheduler.runAfter(0, action, args)] *)
Definition scheduler_runAfter (j : job) : M unit :=
  fun _ st =>
    Ok (tt, mkdb (operators_tbl st) (members_tbl st) (routes_tbl st)
                 (passengers_tbl st) (tripSessions_tbl st) (scans_tbl st)
                 (invites_tbl st) (scheduled st ++ [j]) (nextId st)).

(** [cursor] of the platform's pagination is an opaque string; it is
    modelled by the position in the index range it stands for.  [paginate]
    returns the next [numItems] documents of the range after the cursor,
    and throws when [numItems] is negative. *)
Definition Cursor := nat.

Record PaginationResult (row : Type) := mkpage
  { page : list row; isDone : bool; continueCursor : Cursor }.
Arguments mkpage {row} _ _ _.
Arguments page {row} _.
Arguments isDone {row} _.
Arguments continueCursor {row} _.

Definition q_paginate {row} (T : table row) (range : row -> bool)
    (cursor : option Cursor) (numItems : Z) : M (PaginationResult row) :=
  fun _ st =>
    if (numItems <? 0)%Z then
      Err ("`options.numItems` must be a positive number. Received `"
           ++ NilZero.string_of_int (Z.to_int numItems) ++ "`.")
    else
      let all := filter range (rows T st) in
      let start := match cursor with Some c => c | None => 0 end in
      let pg := firstn (Z.to_nat numItems) (skipn start all) in
      Ok (mkpage pg (List.length all <=? start + List.length pg)
            (start + List.length pg),
          st).

(** [v.id(tableName)], the validator of an argument that is a document
    id.  An id names its table, and the platform refuses, before the
    handler runs, an id that names another table than [tableName]; whether
    a document has the id is not looked at.  An [Id] is a number here, so
    the table an id names is given beside it, by [table_of].  Of the
    platform's message, which goes on to quote the argument, the first
    line is kept.

    The validator is written out for [passengers.get] and
    [getTripDetails], whose results are stated also for ids no document
    has.  The other handlers are modelled from their [handler], that is
    for id arguments that name the table their validator asks for. *)
Definition v_id (table_of : Id -> string) (tableName : string) (id : Id)
    : M unit :=
  throw_if (negb (String.eqb (table_of id) tableName))
    "ArgumentValidationError: Value does not match validator.".

Definition is_some {A} (x : option A) : bool :=
  match x with Some _ => true | None => false end.

(** ** Values the queries return *)

(** [{ membership, operator, user }] of [getMyMembership]. *)
Module MyMembership.
Record t := mk
  { membership : Member.t; operator : option Operator.t; user : User.t }.
End MyMembership.

(** [{ invite, operator }] of [getInviteByToken]. *)
Module InviteView.
Record t := mk { invite : Invite.t; operator : option Operator.t }.
End InviteView.

(** [{ trip, route, scans }] of [getActiveTrip] and [getTripDetails];
    a scan of the roster is [{ ...scan, passenger }]. *)
Module TripView.
Record t := mk
  { trip : TripSession.t; route : option Route.t;
    scans : list (Scan.t * option Passenger.t) }.
End TripView.

(** [{ trip, route, scanCount }] of [getDriverHistory]. *)
Module HistoryEntry.
Record t := mk
  { trip : TripSession.t; route : option Route.t; scanCount : nat }.
End HistoryEntry.

(** [Promise.all(xs.map(async (x) => ...))] *)
Fixpoint mapM {A B} (f : A -> M B) (l : list A) : M (list B) :=
  match l with
  | [] => ret []
  | a :: l' => b <- f a ;; bs <- mapM f l' ;; ret (b :: bs)
  end.

(** [ctx.db.query(table).withIndex(range).order("desc").take(n)]: the [n]
    youngest documents of the range, youngest first; the platform throws
    when [n] is negative. *)
Definition q_take_desc {row} (T : table row) (range : row -> bool) (n : Z)
    : M (list row) :=
  fun _ st =>
    if (n <? 0)%Z then
      Err "Arg 1 `n` to `take` must be a non-negative integer"
    else Ok (firstn (Z.to_nat n) (rev (filter range (rows T st))), st).

(** [{ passenger, business, tripCount, lastScan }] of
    [getPassengerStats]. *)
Module PassengerStats.
Record t := mk
  { passenger : Passenger.t; business : option Member.t; tripCount : nat;
    lastScan : option timestamp }.
End PassengerStats.

(** ** convex/operators.ts *)

Module operators.

Definition create (name slug : string) : M Id :=
  u <- getAuthUser ;;
  user <- require u "Not authenticated" ;;
  (* Check if slug is already taken *)
  existing <- q_first operators_t
                (fun o => String.eqb (Operator.slug o) slug) ;;
  throw_if (is_some existing) "Slug already taken" ;;
  (* Check if user already owns an operator *)
  ownedOperator <- q_first operators_t
                     (fun o => String.eqb (Operator.ownerId o)
                                 (User._id user)) ;;
  throw_if (is_some ownedOperator) "You already own an operator" ;;
  t <- Date_now ;;
  operatorId <- db_insert operators_t
                  (fun id => Operator.mk id name slug (User._id user) t) ;;
  (* Add the creator as an operator member *)
  db_insert members_t
    (fun id => Member.mk id operatorId (User._id user) operator
                 (User.email user) (name_or_email user) t) ;;
  ret operatorId.

Definition getBySlug (slug : string) : M (option Operator.t) :=
  q_first operators_t (fun o => String.eqb (Operator.slug o) slug).

(** [{ ...operator, role: membership.role }], or null. *)
Definition getMine : M (option (Operator.t * Role)) :=
  u <- getAuthUser ;;
  match u with
  | None => ret None
  | Some user =>
      (* Get user's membership *)
      membership <- q_first members_t
                      (fun m => String.eqb (Member.userId m)
                                  (User._id user)) ;;
      match membership with
      | None => ret None
      | Some m =>
          o <- db_get operators_t (Member.operatorId m) ;;
          ret (match o with
               | Some op => Some (op, Member.role m)
               | None => None
               end)
      end
  end.

Definition getMyMembership : M (option MyMembership.t) :=
  u <- getAuthUser ;;
  match u with
  | None => ret None
  | Some user =>
      membership <- q_first members_t
                      (fun m => String.eqb (Member.userId m)
                                  (User._id user)) ;;
      match membership with
      | None => ret None
      | Some m =>
          o <- db_get operators_t (Member.operatorId m) ;;
          ret (Some (MyMembership.mk m o user))
      end
  end.

End operators.

(** ** convex/members.ts *)

Module members.

Definition requireOperatorRole : M (User.t * Member.t) :=
  u <- getAuthUser ;;
  user <- require u "Not authenticated" ;;
  membership <- q_first members_t
                  (fun m => String.eqb (Member.userId m) (User._id user)) ;;
  match membership with
  | Some m =>
      if Role_eqb (Member.role m) operator then ret (user, m)
      else throw "Only operators can perform this action"
  | None => throw "Only operators can perform this action"
  end.

Definition createInvite (operatorId : Id) (email : string)
    (role : InviteRole) : M (Id * string) :=
  '(_, membership) <- requireOperatorRole ;;
  throw_if (negb (Member.operatorId membership =? operatorId))
    "Cannot invite to a different operator" ;;
  o <- db_get operators_t operatorId ;;
  operator <- require o "Operator not found" ;;
  token <- nanoid 32 ;;
  t <- Date_now ;;
  inviteId <- db_insert invites_t
                (fun id => Invite.mk id operatorId email role token t
                             (t + 7 * 24 * 60 * 60 * 1000)%Z None) ;;
  scheduler_runAfter
    (sendInviteEmail email (Operator.name operator) role token) ;;
  ret (inviteId, token).

Definition set_usedAt (t : timestamp) (i : Invite.t) : Invite.t :=
  Invite.mk (Invite._id i) (Invite.operatorId i) (Invite.email i)
    (Invite.role i) (Invite.token i) (Invite.createdAt i)
    (Invite.expiresAt i) (Some t).

Definition acceptInvite (token : string) : M Id :=
  u <- getAuthUser ;;
  user <- require u "Not authenticated" ;;
  i <- q_first invites_t (fun i => String.eqb (Invite.token i) token) ;;
  invite <- require i "Invalid invite" ;;
  throw_if (truthy (Invite.usedAt invite)) "Invite already used" ;;
  t <- Date_now ;;
  throw_if (Invite.expiresAt invite <? t)%Z "Invite expired" ;;
  (* Check if user is already a member *)
  existingMembership <-
    q_first members_t
      (fun m => String.eqb (Member.userId m) (User._id user)) ;;
  throw_if (is_some existingMembership)
    "You are already a member of an operator" ;;
  (* Create membership *)
  db_insert members_t
    (fun id => Member.mk id (Invite.operatorId invite) (User._id user)
                 (role_of_invite (Invite.role invite)) (User.email user)
                 (name_or_email user) t) ;;
  (* Mark invite as used *)
  db_patch invites_t (Invite._id invite) (set_usedAt t) ;;
  ret (Invite.operatorId invite).

Definition removeMember (memberId : Id) : M unit :=
  '(_, membership) <- requireOperatorRole ;;
  tm <- db_get members_t memberId ;;
  targetMember <- require tm "Member not found" ;;
  throw_if (negb (Member.operatorId targetMember
                  =? Member.operatorId membership))
    "Cannot remove member from a different operator" ;;
  throw_if (Role_eqb (Member.role targetMember) operator)
    "Cannot remove the operator" ;;
  db_delete members_t memberId.

Definition deleteInvite (inviteId : Id) : M unit :=
  '(_, membership) <- requireOperatorRole ;;
  i <- db_get invites_t inviteId ;;
  invite <- require i "Invite not found" ;;
  throw_if (negb (Invite.operatorId invite
                  =? Member.operatorId membership))
    "Cannot delete invite from a different operator" ;;
  db_delete invites_t inviteId.

Definition getInviteByToken (token : string) : M (option InviteView.t) :=
  i <- q_first invites_t (fun i => String.eqb (Invite.token i) token) ;;
  match i with
  | None => ret None
  | Some invite =>
      if truthy (Invite.usedAt invite) then ret None
      else
        t <- Date_now ;;
        if (Invite.expiresAt invite <? t)%Z then ret None
        else
          o <- db_get operators_t (Invite.operatorId invite) ;;
          ret (Some (InviteView.mk invite o))
  end.

Definition listInvites (operatorId : Id) : M (Datatypes.list Invite.t) :=
  '(_, membership) <- requireOperatorRole ;;
  throw_if (negb (Member.operatorId membership =? operatorId))
    "Cannot view invites for a different operator" ;;
  q_collect invites_t (fun i => Invite.operatorId i =? operatorId).

Definition list (operatorId : Id) : M (Datatypes.list Member.t) :=
  u <- getAuthUser ;;
  user <- require u "Not authenticated" ;;
  (* Verify user belongs to this operator *)
  membership <- q_first members_t
                  (fun m => (Member.operatorId m =? operatorId)
                            && String.eqb (Member.userId m)
                                 (User._id user)) ;;
  require membership "Not a member of this operator" ;;
  q_collect members_t (fun m => Member.operatorId m =? operatorId).

End members.

(** ** convex/routes.ts *)

Module routes.

Definition requireOperatorRole : M (User.t * Member.t) :=
  u <- getAuthUser ;;
  user <- require u "Not authenticated" ;;
  membership <- q_first members_t
                  (fun m => String.eqb (Member.userId m) (User._id user)) ;;
  match membership with
  | Some m =>
      if Role_eqb (Member.role m) operator then ret (user, m)
      else throw "Only operators can perform this action"
  | None => throw "Only operators can perform this action"
  end.

Definition create (operatorId : Id) (name : string)
    (description : option string) : M Id :=
  '(_, membership) <- requireOperatorRole ;;
  throw_if (negb (Member.operatorId membership =? operatorId))
    "Cannot create route for a different operator" ;;
  t <- Date_now ;;
  db_insert routes_t
    (fun id => Route.mk id operatorId name description true t).

(** The patch built from the arguments that are not [undefined]. *)
Definition filteredUpdates (name description : option string)
    (isActive : option bool) (r : Route.t) : Route.t :=
  Route.mk (Route._id r) (Route.operatorId r)
    (match name with Some n => n | None => Route.name r end)
    (match description with
     | Some d => Some d
     | None => Route.description r
     end)
    (match isActive with Some b => b | None => Route.isActive r end)
    (Route.createdAt r).

Definition update (routeId : Id) (name description : option string)
    (isActive : option bool) : M unit :=
  '(_, membership) <- requireOperatorRole ;;
  r <- db_get routes_t routeId ;;
  route <- require r "Route not found" ;;
  throw_if (negb (Route.operatorId route =? Member.operatorId membership))
    "Cannot update route for a different operator" ;;
  db_patch routes_t routeId (filteredUpdates name description isActive).

Definition remove (routeId : Id) : M unit :=
  '(_, membership) <- requireOperatorRole ;;
  r <- db_get routes_t routeId ;;
  route <- require r "Route not found" ;;
  throw_if (negb (Route.operatorId route =? Member.operatorId membership))
    "Cannot delete route for a different operator" ;;
  db_delete routes_t routeId.

Definition requireMembership (operatorId : Id) : M (User.t * Member.t) :=
  u <- getAuthUser ;;
  user <- require u "Not authenticated" ;;
  membership <- q_first members_t
                  (fun m => (Member.operatorId m =? operatorId)
                            && String.eqb (Member.userId m)
                                 (User._id user)) ;;
  m <- require membership "Not a member of this operator" ;;
  ret (user, m).

Definition listActive (operatorId : Id) : M (Datatypes.list Route.t) :=
  requireMembership operatorId ;;
  routes <- q_collect routes_t (fun r => Route.operatorId r =? operatorId) ;;
  ret (filter Route.isActive routes).

Definition get (routeId : Id) : M (option Route.t) :=
  r <- db_get routes_t routeId ;;
  match r with
  | None => ret None
  | Some route =>
      requireMembership (Route.operatorId route) ;;
      ret (Some route)
  end.

Definition list (operatorId : Id) : M (Datatypes.list Route.t) :=
  requireMembership operatorId ;;
  q_collect routes_t (fun r => Route.operatorId r =? operatorId).

End routes.

(** ** convex/passengers.ts *)

Module passengers.

Definition requireBusinessRole : M (User.t * Member.t) :=
  u <- getAuthUser ;;
  user <- require u "Not authenticated" ;;
  membership <- q_first members_t
                  (fun m => String.eqb (Member.userId m) (User._id user)) ;;
  match membership with
  | Some m =>
      if Role_eqb (Member.role m) business then ret (user, m)
      else throw "Only businesses can perform this action"
  | None => throw "Only businesses can perform this action"
  end.

Definition requireMembership (operatorId : Id) : M (User.t * Member.t) :=
  u <- getAuthUser ;;
  user <- require u "Not authenticated" ;;
  membership <- q_first members_t
                  (fun m => (Member.operatorId m =? operatorId)
                            && String.eqb (Member.userId m)
                                 (User._id user)) ;;
  m <- require membership "Not a member of this operator" ;;
  ret (user, m).

Definition create (operatorId : Id) (name email : string) : M Id :=
  '(user, membership) <- requireBusinessRole ;;
  throw_if (negb (Member.operatorId membership =? operatorId))
    "Cannot add passenger to a different operator" ;;
  o <- db_get operators_t operatorId ;;
  operator <- require o "Operator not found" ;;
  rnd <- nanoid 12 ;;
  let qrCode := "SAVARI-" ++ rnd in
  t <- Date_now ;;
  passengerId <- db_insert passengers_t
                   (fun id => Passenger.mk id operatorId (User._id user)
                                name email qrCode t None) ;;
  scheduler_runAfter
    (sendTicketEmail email name (Operator.name operator) qrCode) ;;
  ret passengerId.

Definition list (operatorId : Id) (cursor : option Cursor) (numItems : Z)
    (includeArchived : option bool)
    : M (PaginationResult Passenger.t) :=
  '(_, membership) <- requireMembership operatorId ;;
  results <-
    (if Role_eqb (Member.role membership) business then
       u <- getAuthUser ;;
       user <- require u "Cannot read properties of null" ;;
       q_paginate passengers_t
         (fun p => (Passenger.operatorId p =? operatorId)
                   && String.eqb (Passenger.businessId p) (User._id user))
         cursor numItems
     else
       q_paginate passengers_t
         (fun p => Passenger.operatorId p =? operatorId)
         cursor numItems) ;;
  (* Filter out archived unless requested *)
  let filteredPage :=
    match includeArchived with
    | Some true => page results
    | _ => filter (fun p => negb (truthy (Passenger.archivedAt p)))
             (page results)
    end in
  ret (mkpage filteredPage (isDone results) (continueCursor results)).

Definition get (table_of : Id -> string) (passengerId : Id)
    : M (option Passenger.t) :=
  v_id table_of "passengers" passengerId ;;
  p <- db_get passengers_t passengerId ;;
  match p with
  | None => ret None
  | Some passenger =>
      requireMembership (Passenger.operatorId passenger) ;;
      ret (Some passenger)
  end.

Definition getByQrCode (qrCode : string) : M (option Passenger.t) :=
  q_first passengers_t (fun p => String.eqb (Passenger.qrCode p) qrCode).

(** The patch built from the arguments that are not [undefined]. *)
Definition filteredUpdates (name email : option string) (p : Passenger.t)
    : Passenger.t :=
  Passenger.mk (Passenger._id p) (Passenger.operatorId p)
    (Passenger.businessId p)
    (match name with Some n => n | None => Passenger.name p end)
    (match email with Some m => m | None => Passenger.email p end)
    (Passenger.qrCode p) (Passenger.createdAt p) (Passenger.archivedAt p).

Definition update (passengerId : Id) (name email : option string)
    : M unit :=
  '(user, _) <- requireBusinessRole ;;
  p <- db_get passengers_t passengerId ;;
  passenger <- require p "Passenger not found" ;;
  throw_if (negb (String.eqb (Passenger.businessId passenger)
                    (User._id user)))
    "Cannot update another business's passenger" ;;
  db_patch passengers_t passengerId (filteredUpdates name email).

Definition set_archivedAt (t : timestamp) (p : Passenger.t)
    : Passenger.t :=
  Passenger.mk (Passenger._id p) (Passenger.operatorId p)
    (Passenger.businessId p) (Passenger.name p) (Passenger.email p)
    (Passenger.qrCode p) (Passenger.createdAt p) (Some t).

Definition archive (passengerId : Id) : M unit :=
  '(user, _) <- requireBusinessRole ;;
  p <- db_get passengers_t passengerId ;;
  passenger <- require p "Passenger not found" ;;
  throw_if (negb (String.eqb (Passenger.businessId passenger)
                    (User._id user)))
    "Cannot archive another business's passenger" ;;
  t <- Date_now ;;
  db_patch passengers_t passengerId (set_archivedAt t).

Definition resendTicketEmail (passengerId : Id) : M unit :=
  '(user, _) <- requireBusinessRole ;;
  p <- db_get passengers_t passengerId ;;
  passenger <- require p "Passenger not found" ;;
  throw_if (negb (String.eqb (Passenger.businessId passenger)
                    (User._id user)))
    "Cannot resend email for another business's passenger" ;;
  o <- db_get operators_t (Passenger.operatorId passenger) ;;
  operator <- require o "Operator not found" ;;
  scheduler_runAfter
    (sendTicketEmail (Passenger.email passenger)
       (Passenger.name passenger) (Operator.name operator)
       (Passenger.qrCode passenger)).

End passengers.

(** ** convex/trips.ts *)

Inductive ScanStatus := already_scanned | success.

Record ScanResult := mkscan
  { passenger : Passenger.t; status : ScanStatus }.

Module trips.

Definition requireDriverRole : M (User.t * Member.t) :=
  u <- getAuthUser ;;
  user <- require u "Not authenticated" ;;
  membership <- q_first members_t
                  (fun m => String.eqb (Member.userId m) (User._id user)) ;;
  match membership with
  | Some m =>
      if Role_eqb (Member.role m) driver then ret (user, m)
      else throw "Only drivers can perform this action"
  | None => throw "Only drivers can perform this action"
  end.

Definition startTrip (routeId : Id) : M Id :=
  '(user, membership) <- requireDriverRole ;;
  r <- db_get routes_t routeId ;;
  route <- require r "Route not found" ;;
  throw_if (negb (Route.operatorId route =? Member.operatorId membership))
    "Cannot start trip for a different operator's route" ;;
  (* Check if driver has an active trip *)
  activeTrip <-
    q_first tripSessions_t
      (fun t => String.eqb (TripSession.driverId t) (User._id user)
                && TripStatus_eqb (TripSession.status t) active) ;;
  throw_if (is_some activeTrip)
    "You already have an active trip. End it first." ;;
  t <- Date_now ;;
  db_insert tripSessions_t
    (fun id => TripSession.mk id (Member.operatorId membership) routeId
                 (User._id user) t None active).

Definition complete (t : timestamp) (trip : TripSession.t)
    : TripSession.t :=
  TripSession.mk (TripSession._id trip) (TripSession.operatorId trip)
    (TripSession.routeId trip) (TripSession.driverId trip)
    (TripSession.startedAt trip) (Some t) completed.

Definition endTrip (tripSessionId : Id) : M unit :=
  '(user, _) <- requireDriverRole ;;
  tr <- db_get tripSessions_t tripSessionId ;;
  trip <- require tr "Trip not found" ;;
  throw_if (negb (String.eqb (TripSession.driverId trip) (User._id user)))
    "Cannot end another driver's trip" ;;
  throw_if (negb (TripStatus_eqb (TripSession.status trip) active))
    "Trip is not active" ;;
  t <- Date_now ;;
  db_patch tripSessions_t tripSessionId (complete t).

Definition scanPassenger (tripSessionId : Id) (qrCode : string)
    : M ScanResult :=
  '(user, membership) <- requireDriverRole ;;
  tr <- db_get tripSessions_t tripSessionId ;;
  trip <- require tr "Trip not found" ;;
  throw_if (negb (String.eqb (TripSession.driverId trip) (User._id user)))
    "Cannot scan for another driver's trip" ;;
  throw_if (negb (TripStatus_eqb (TripSession.status trip) active))
    "Trip is not active" ;;
  (* Find passenger by QR code *)
  p <- q_first passengers_t
         (fun p => String.eqb (Passenger.qrCode p) qrCode) ;;
  passenger <- require p "Invalid QR code" ;;
  throw_if (negb (Passenger.operatorId passenger
                  =? Member.operatorId membership))
    "Passenger belongs to a different operator" ;;
  (* Check for duplicate scan *)
  existingScan <-
    q_first scans_t
      (fun s => (Scan.tripSessionId s =? tripSessionId)
                && (Scan.passengerId s =? Passenger._id passenger)) ;;
  match existingScan with
  | Some _ =>
      (* Return status instead of throwing - passenger already scanned *)
      ret (mkscan passenger already_scanned)
  | None =>
      t <- Date_now ;;
      db_insert scans_t
        (fun id => Scan.mk id (Member.operatorId membership) tripSessionId
                     (Passenger._id passenger) t (User._id user)) ;;
      ret (mkscan passenger success)
  end.

(** [scans.map(async (scan) => ({ ...scan, passenger }))] *)
Definition withPassenger (scan : Scan.t)
    : M (Scan.t * option Passenger.t) :=
  passenger <- db_get passengers_t (Scan.passengerId scan) ;;
  ret (scan, passenger).

Definition getActiveTrip : M (option TripView.t) :=
  u <- getAuthUser ;;
  match u with
  | None => ret None
  | Some user =>
      tr <- q_first tripSessions_t
              (fun t => String.eqb (TripSession.driverId t) (User._id user)
                        && TripStatus_eqb (TripSession.status t) active) ;;
      match tr with
      | None => ret None
      | Some trip =>
          route <- db_get routes_t (TripSession.routeId trip) ;;
          scans <- q_collect scans_t
                     (fun s => Scan.tripSessionId s
                               =? TripSession._id trip) ;;
          (* Get passenger details for each scan *)
          scansWithPassengers <- mapM withPassenger scans ;;
          ret (Some (TripView.mk trip route scansWithPassengers))
      end
  end.

Definition getDriverHistory (limit : option Z)
    : M (list HistoryEntry.t) :=
  u <- getAuthUser ;;
  match u with
  | None => ret []
  | Some user =>
      membership <- q_first members_t
                      (fun m => String.eqb (Member.userId m)
                                  (User._id user)) ;;
      match membership with
      | None => ret []
      | Some m =>
          trips <- q_take_desc tripSessions_t
                     (fun t => (TripSession.operatorId t
                                =? Member.operatorId m)
                               && String.eqb (TripSession.driverId t)
                                    (User._id user))
                     (* args.limit || 50 *)
                     (match limit with
                      | Some n => if (n =? 0)%Z then 50%Z else n
                      | None => 50%Z
                      end) ;;
          mapM (fun trip =>
                  route <- db_get routes_t (TripSession.routeId trip) ;;
                  scans <- q_collect scans_t
                             (fun s => Scan.tripSessionId s
                                       =? TripSession._id trip) ;;
                  ret (HistoryEntry.mk trip route (List.length scans)))
               trips
      end
  end.

Definition getTripDetails (table_of : Id -> string) (tripSessionId : Id)
    : M (option TripView.t) :=
  v_id table_of "tripSessions" tripSessionId ;;
  u <- getAuthUser ;;
  user <- require u "Not authenticated" ;;
  tr <- db_get tripSessions_t tripSessionId ;;
  match tr with
  | None => ret None
  | Some trip =>
      membership <- q_first members_t
                      (fun m => (Member.operatorId m
                                 =? TripSession.operatorId trip)
                                && String.eqb (Member.userId m)
                                     (User._id user)) ;;
      require membership "Not authorized" ;;
      route <- db_get routes_t (TripSession.routeId trip) ;;
      scans <- q_collect scans_t
                 (fun s => Scan.tripSessionId s =? TripSession._id trip) ;;
      scansWithPassengers <- mapM withPassenger scans ;;
      ret (Some (TripView.mk trip route scansWithPassengers))
  end.

End trips.

(** ** convex/reports.ts *)

Module reports.

Definition requireOperatorRole : M (User.t * Member.t) :=
  u <- getAuthUser ;;
  user <- require u "Not authenticated" ;;
  membership <- q_first members_t
                  (fun m => String.eqb (Member.userId m) (User._id user)) ;;
  match membership with
  | Some m =>
      if Role_eqb (Member.role m) operator then ret (user, m)
      else throw "Only operators can view reports"
  | None => throw "Only operators can view reports"
  end.

(** [scans.length > 0 ? Math.max(...scans.map((s) => s.scannedAt)) : null] *)
Definition lastScanOf (scans : list Scan.t) : option timestamp :=
  match scans with
  | [] => None
  | s :: rest =>
      Some (fold_left Z.max (map Scan.scannedAt rest) (Scan.scannedAt s))
  end.

Definition passengerStats (operatorId : Id) (passenger : Passenger.t)
    : M PassengerStats.t :=
  scans <- q_collect scans_t
             (fun s => Scan.passengerId s =? Passenger._id passenger) ;;
  (* Get business info *)
  business <- q_first members_t
                (fun m => (Member.operatorId m =? operatorId)
                          && String.eqb (Member.userId m)
                               (Passenger.businessId passenger)) ;;
  ret (PassengerStats.mk passenger business (List.length scans)
         (lastScanOf scans)).

Definition getPassengerStats (operatorId : Id)
    : M (list PassengerStats.t) :=
  '(_, membership) <- requireOperatorRole ;;
  throw_if (negb (Member.operatorId membership =? operatorId))
    "Cannot view reports for a different operator" ;;
  passengers <- q_collect passengers_t
                  (fun p => Passenger.operatorId p =? operatorId) ;;
  mapM (passengerStats operatorId) passengers.

End reports.

(** ** The system: every mutation a client can call *)

Inductive call :=
| operators_create (name slug : string)
| members_createInvite (operatorId : Id) (email : string) (role : InviteRole)
| members_acceptInvite (token : string)
| members_removeMember (memberId : Id)
| members_deleteInvite (inviteId : Id)
| routes_create (operatorId : Id) (name : string)
                (description : option string)
| routes_update (routeId : Id) (name description : option string)
                (isActive : option bool)
| routes_remove (routeId : Id)
| passengers_create (operatorId : Id) (name email : string)
| passengers_update (passengerId : Id) (name email : option string)
| passengers_archive (passengerId : Id)
| passengers_resendTicketEmail (passengerId : Id)
| trips_startTrip (routeId : Id)
| trips_endTrip (tripSessionId : Id)
| trips_scanPassenger (tripSessionId : Id) (qrCode : string).

(** The database after a transaction: the handler's writes when it
    returns, the old database when it throws. *)
Definition commit {A} (m : M A) (e : env) (st : db) : db :=
  match m e st with
  | Ok (_, st') => st'
  | Err _ => st
  end.

Definition exec (c : call) : env -> db -> db :=
  match c with
  | operators_create n s => commit (operators.create n s)
  | members_createInvite o m r => commit (members.createInvite o m r)
  | members_acceptInvite t => commit (members.acceptInvite t)
  | members_removeMember i => commit (members.removeMember i)
  | members_deleteInvite i => commit (members.deleteInvite i)
  | routes_create o n d => commit (routes.create o n d)
  | routes_update r n d a => commit (routes.update r n d a)
  | routes_remove r => commit (routes.remove r)
  | passengers_create o n m => commit (passengers.create o n m)
  | passengers_update p n m => commit (passengers.update p n m)
  | passengers_archive p => commit (passengers.archive p)
  | passengers_resendTicketEmail p => commit (passengers.resendTicketEmail p)
  | trips_startTrip r => commit (trips.startTrip r)
  | trips_endTrip t => commit (trips.endTrip t)
  | trips_scanPassenger t q => commit (trips.scanPassenger t q)
  end.

(** The states of the system: from the empty database, any sequence of
    calls, by any callers, at any (positive) clock readings. *)
Inductive reachable : db -> Prop :=
| reachable_empty : reachable empty_db
| reachable_exec st c e :
    reachable st -> (0 < now e)%Z -> reachable (exec c e st).

(** ** Predicates on tables *)

(** The index range of the duplicate check of [scanPassenger]. *)
Definition scan_of (t p : Id) (s : Scan.t) : bool :=
  (Scan.tripSessionId s =? t) && (Scan.passengerId s =? p).

(** The index range [by_driver_status] at [(d, "active")]. *)
Definition active_of (d : string) (t : TripSession.t) : bool :=
  String.eqb (TripSession.driverId t) d
  && TripStatus_eqb (TripSession.status t) active.

Definition by_user (u : string) (m : Member.t) : bool :=
  String.eqb (Member.userId m) u.

Definition by_qr (q : string) (p : Passenger.t) : bool :=
  String.eqb (Passenger.qrCode p) q.

Definition by_token (k : string) (i : Invite.t) : bool :=
  String.eqb (Invite.token i) k.

Definition has_id {row} (T : table row) (id : Id) (r : row) : bool :=
  doc_id T r =? id.

(** Number of documents of a table in a range. *)
Definition count {row} (range : row -> bool) (l : list row) : nat :=
  List.length (filter range l).

(** At most one Scan per (tripSessionId, passengerId). *)
Definition scans_unique (l : list Scan.t) : Prop :=
  forall t p, count (scan_of t p) l <= 1.

(** At most one active TripSession per driver. *)
Definition one_active (l : list TripSession.t) : Prop :=
  forall d, count (active_of d) l <= 1.

(** At most one Member per user. *)
Definition one_member (l : list Member.t) : Prop :=
  forall u, count (by_user u) l <= 1.

(** Stored optional times were read from a positive clock. *)
Definition archived_ok (l : list Passenger.t) : Prop :=
  forall p a, In p l -> Passenger.archivedAt p = Some a -> (0 < a)%Z.

Definition used_ok (l : list Invite.t) : Prop :=
  forall i a, In i l -> Invite.usedAt i = Some a -> (0 < a)%Z.

(** Passenger ids are distinct and older than the next id. *)
Definition ids_ok (n : Id) (l : list Passenger.t) : Prop :=
  NoDup (map Passenger._id l) /\ forall p, In p l -> Passenger._id p < n.

(** Every scan is of a passenger that its own QR code resolves to. *)
Definition scans_resolve (ps : list Passenger.t) (l : list Scan.t) : Prop :=
  forall s, In s l ->
    exists p, In p ps /\ Passenger._id p = Scan.passengerId s
              /\ find (by_qr (Passenger.qrCode p)) ps = Some p.

Record Inv (st : db) : Prop := mkInv
  { inv_scans : scans_unique (scans_tbl st);
    inv_trips : one_active (tripSessions_tbl st);
    inv_archived : archived_ok (passengers_tbl st);
    inv_used : used_ok (invites_tbl st);
    inv_ids : ids_ok (nextId st) (passengers_tbl st);
    inv_resolve : scans_resolve (passengers_tbl st) (scans_tbl st) }.

(** The scan row [scanPassenger] writes. *)
Definition new_scan (st : db) (e : env) (user : User.t) (m : Member.t)
    (t : Id) (p : Passenger.t) : Scan.t :=
  Scan.mk (nextId st) (Member.operatorId m) t (Passenger._id p) (now e)
    (User._id user).

Definition add_scan (s : Scan.t) (st : db) : db :=
  set_rows scans_t (scans_tbl st ++ [s]) (bump st).

(** The caller of [e] is a member with role [r], resolved through the
    [by_user] index. *)
Definition caller_is (r : Role) (e : env) (st : db) (user : User.t)
    (m : Member.t) : Prop :=
  auth e = Some user
  /\ find (by_user (User._id user)) (members_tbl st) = Some m
  /\ Member.role m = r.

(** [t] is a trip of [user] in the given status. *)
Definition trip_of (t : Id) (user : User.t) (s : TripStatus) (st : db)
    (trip : TripSession.t) : Prop :=
  find (has_id tripSessions_t t) (tripSessions_tbl st) = Some trip
  /\ TripSession.driverId trip = User._id user
  /\ TripSession.status trip = s.

(** [scanPassenger] seen from a database in which the [archivedAt] of the
    passengers has been rewritten by [g]. *)
Definition rearchive (g : Passenger.t -> option timestamp)
    (p : Passenger.t) : Passenger.t :=
  Passenger.mk (Passenger._id p) (Passenger.operatorId p)
    (Passenger.businessId p) (Passenger.name p) (Passenger.email p)
    (Passenger.qrCode p) (Passenger.createdAt p) (g p).

Definition with_archived (g : Passenger.t -> option timestamp) (st : db)
    : db :=
  set_rows passengers_t (map (rearchive g) (passengers_tbl st)) st.

Definition rearchive_result (g : Passenger.t -> option timestamp)
    (r : result (ScanResult * db)) : result (ScanResult * db) :=
  match r with
  | Ok (x, st) =>
      Ok (mkscan (rearchive g (passenger x)) (status x), with_archived g st)
  | Err msg => Err msg
  end.

(** The filter of [list]: [(p) => !p.archivedAt]. *)
Definition not_archived (p : Passenger.t) : bool :=
  negb (truthy (Passenger.archivedAt p)).

(** The database after [archive] of passenger [pid] at clock [t]. *)
Definition archived (pid : Id) (t : timestamp) (st : db) : db :=
  set_rows passengers_t
    (patch_rows passengers_t pid (passengers.set_archivedAt t)
       (passengers_tbl st)) st.

(** The Member row [acceptInvite] writes, and the database after it. *)
Definition new_member (st : db) (e : env) (user : User.t) (inv : Invite.t)
    : Member.t :=
  Member.mk (nextId st) (Invite.operatorId inv) (User._id user)
    (role_of_invite (Invite.role inv)) (User.email user)
    (name_or_email user) (now e).

Definition accepted (st : db) (e : env) (user : User.t) (inv : Invite.t)
    : db :=
  set_rows invites_t
    (patch_rows invites_t (Invite._id inv) (members.set_usedAt (now e))
       (invites_tbl st))
    (set_rows members_t (members_tbl st ++ [new_member st e user inv])
       (bump st)).

(** ** Further predicates on tables *)

Definition by_slug (s : string) (o : Operator.t) : bool :=
  String.eqb (Operator.slug o) s.

Definition by_owner (u : string) (o : Operator.t) : bool :=
  String.eqb (Operator.ownerId o) u.

(** The index range [by_operator_user] at [(op, u)]. *)
Definition by_operator_user (op : Id) (u : string) (m : Member.t) : bool :=
  (Member.operatorId m =? op) && String.eqb (Member.userId m) u.

(** The index range [by_trip] at [t]. *)
Definition by_trip (t : Id) (s : Scan.t) : bool := Scan.tripSessionId s =? t.

(** Slugs are unique, and a user owns at most one operator. *)
Definition one_slug (l : list Operator.t) : Prop :=
  forall s, count (by_slug s) l <= 1.

Definition one_owner (l : list Operator.t) : Prop :=
  forall u, count (by_owner u) l <= 1.

(** The ids of a table are distinct and older than the next id [n]. *)
Definition ids_fresh {row} (T : table row) (n : Id) (l : list row) : Prop :=
  NoDup (map (doc_id T) l) /\ forall r, In r l -> doc_id T r < n.

(** Every operator has the Member row of its owner, with role operator. *)
Definition founders (ops : list Operator.t) (ms : list Member.t) : Prop :=
  forall o, In o ops ->
    exists m, In m ms /\ Member.operatorId m = Operator._id o
              /\ Member.userId m = Operator.ownerId o
              /\ Member.role m = operator.

(** [ctx.db.get(id)] finds an operator. *)
Definition operator_exists (ops : list Operator.t) (id : Id) : Prop :=
  exists o, find (has_id operators_t id) ops = Some o.

(** The [operatorId] of every document of a table is that of an
    operator. *)
Definition refs_resolve {row} (operatorId : row -> Id)
    (ops : list Operator.t) (l : list row) : Prop :=
  forall r, In r l -> operator_exists ops (operatorId r).

(** Every scan is on a stored trip, by the driver of that trip, and of a
    stored passenger of the operator the scan is filed under. *)
Definition scans_linked (ts : list TripSession.t) (ps : list Passenger.t)
    (l : list Scan.t) : Prop :=
  forall s, In s l ->
    (exists trip,
       find (has_id tripSessions_t (Scan.tripSessionId s)) ts = Some trip
       /\ TripSession.driverId trip = Scan.scannedBy s)
    /\ (exists p,
          find (has_id passengers_t (Scan.passengerId s)) ps = Some p
          /\ Passenger.operatorId p = Scan.operatorId s).

(** A trip is active without [endedAt], or completed with it. *)
Definition trip_coherent (t : TripSession.t) : Prop :=
  match TripSession.status t with
  | active => TripSession.endedAt t = None
  | completed => exists a, TripSession.endedAt t = Some a /\ (0 < a)%Z
  end.

(** An invite expires seven days after its creation and is not used after
    its expiry. *)
Definition invite_coherent (i : Invite.t) : Prop :=
  Invite.expiresAt i = (Invite.createdAt i + 604800000)%Z
  /\ forall a, Invite.usedAt i = Some a -> (a <= Invite.expiresAt i)%Z.

(** The route of a trip, while it is stored, is of the trip's operator;
    the trip does not point at a route to come. *)
Definition trip_routes_ok (n : Id) (rs : list Route.t)
    (l : list TripSession.t) : Prop :=
  forall t, In t l ->
    TripSession.routeId t < n
    /\ forall r, find (has_id routes_t (TripSession.routeId t)) rs = Some r ->
                 Route.operatorId r = TripSession.operatorId t.

Record Wf (st : db) : Prop := mkWf
  { wf_operators : ids_fresh operators_t (nextId st) (operators_tbl st);
    wf_members : ids_fresh members_t (nextId st) (members_tbl st);
    wf_routes : ids_fresh routes_t (nextId st) (routes_tbl st);
    wf_trips : ids_fresh tripSessions_t (nextId st) (tripSessions_tbl st);
    wf_scans : ids_fresh scans_t (nextId st) (scans_tbl st);
    wf_invites : ids_fresh invites_t (nextId st) (invites_tbl st);
    wf_slug : one_slug (operators_tbl st);
    wf_owner : one_owner (operators_tbl st);
    wf_founders : founders (operators_tbl st) (members_tbl st);
    wf_member_op :
      refs_resolve Member.operatorId (operators_tbl st) (members_tbl st);
    wf_invite_op :
      refs_resolve Invite.operatorId (operators_tbl st) (invites_tbl st);
    wf_route_op :
      refs_resolve Route.operatorId (operators_tbl st) (routes_tbl st);
    wf_passenger_op :
      refs_resolve Passenger.operatorId (operators_tbl st)
        (passengers_tbl st);
    wf_trip_op :
      refs_resolve TripSession.operatorId (operators_tbl st)
        (tripSessions_tbl st);
    wf_scan_op :
      refs_resolve Scan.operatorId (operators_tbl st) (scans_tbl st);
    wf_linked :
      scans_linked (tripSessions_tbl st) (passengers_tbl st) (scans_tbl st);
    wf_trip_coherent :
      forall t, In t (tripSessions_tbl st) -> trip_coherent t;
    wf_invite_coherent :
      forall i, In i (invites_tbl st) -> invite_coherent i;
    wf_trip_routes :
      trip_routes_ok (nextId st) (routes_tbl st) (tripSessions_tbl st) }.

(** Every scheduled ticket e-mail carries the QR code of a stored
    passenger. *)
Definition tickets_ok (ps : list Passenger.t) (js : list job) : Prop :=
  forall em nm opn qr,
    In (sendTicketEmail em nm opn qr) js ->
    exists p, In p ps /\ Passenger.qrCode p = qr.

(** The scans of trip [t], each with the passenger [ctx.db.get] finds for
    it. *)
Definition roster (st : db) (t : Id) : list (Scan.t * option Passenger.t) :=
  map (fun s => (s, find (has_id passengers_t (Scan.passengerId s))
                      (passengers_tbl st)))
    (filter (by_trip t) (scans_tbl st)).

(** The view of a trip that [getActiveTrip] and [getTripDetails] build. *)
Definition view_of (st : db) (trip : TripSession.t) : TripView.t :=
  TripView.mk trip
    (find (has_id routes_t (TripSession.routeId trip)) (routes_tbl st))
    (roster st (TripSession._id trip)).

(** The entry of [getDriverHistory] for a trip. *)
Definition history_entry (st : db) (trip : TripSession.t) : HistoryEntry.t :=
  HistoryEntry.mk trip
    (find (has_id routes_t (TripSession.routeId trip)) (routes_tbl st))
    (count (by_trip (TripSession._id trip)) (scans_tbl st)).

(** The index range [by_driver] at [(op, d)]. *)
Definition by_driver (op : Id) (d : string) (t : TripSession.t) : bool :=
  (TripSession.operatorId t =? op) && String.eqb (TripSession.driverId t) d.

(** [args.limit || 50] *)
Definition limit_or_50 (limit : option Z) : Z :=
  match limit with
  | Some n => if (n =? 0)%Z then 50%Z else n
  | None => 50%Z
  end.

(** The members of operator [k] that hold role operator. *)
Definition operator_role_of (k : Id) (m : Member.t) : bool :=
  (Member.operatorId m =? k) && Role_eqb (Member.role m) operator.

Definition one_operator_role (l : list Member.t) : Prop :=
  forall k, count (operator_role_of k) l <= 1.

(** The index range [by_passenger] at [p]. *)
Definition by_passenger (p : Id) (s : Scan.t) : bool :=
  Scan.passengerId s =? p.

(** The entry of [getPassengerStats] for a passenger. *)
Definition stats_of (st : db) (op : Id) (p : Passenger.t)
    : PassengerStats.t :=
  PassengerStats.mk p
    (find (by_operator_user op (Passenger.businessId p)) (members_tbl st))
    (count (by_passenger (Passenger._id p)) (scans_tbl st))
    (reports.lastScanOf
       (filter (by_passenger (Passenger._id p)) (scans_tbl st))).

(** ** The scenario of the specification

    Operator "Acme" is created by U1; U1 creates route "Downtown" and
    invites U2 (business) and U3 (driver); U2 registers Alice; U3 starts a
    trip, scans Alice twice and ends the trip; U2 archives Alice twice. *)

Module Scenario.

Definition U1 := User.mk "u1" "u1@x.com" (Some "Una").
Definition U2 := User.mk "u2" "u2@x.com" None.
Definition U3 := User.mk "u3" "u3@x.com" (Some EmptyString).

(** A call by [u] at clock [t], with [rnd] the next random string. *)
Definition by_rnd (u : User.t) (t : timestamp) (rnd : string) : env :=
  mkenv (Some u) t (fun _ => rnd).
Arguments by_rnd u t%_Z rnd.

(** A call by [u] at clock [t] that draws no random string. *)
Definition by_ (u : User.t) (t : timestamp) : env :=
  by_rnd u t EmptyString.
Arguments by_ u t%_Z.

Definition anonymous (t : timestamp) : env :=
  mkenv None t (fun _ => EmptyString).
Arguments anonymous t%_Z.

Definition aliceQr := "SAVARI-abcdefghijkl".

Definition s1 := exec (operators_create "Acme" "acme") (by_ U1 10)
                   empty_db.
Definition s2 := exec (routes_create 0 "Downtown" None) (by_ U1 11) s1.
Definition s3 := exec (members_createInvite 0 "u2@x.com" invite_business)
                   (by_rnd U1 12 "tokB") s2.
Definition s4 := exec (members_createInvite 0 "u3@x.com" invite_driver)
                   (by_rnd U1 13 "tokD") s3.
Definition s5 := exec (members_acceptInvite "tokB") (by_ U2 14) s4.
Definition s6 := exec (members_acceptInvite "tokD") (by_ U3 15) s5.
Definition s7 := exec (passengers_create 0 "Alice" "alice@x.com")
                   (by_rnd U2 16 "abcdefghijkl") s6.
Definition s8 := exec (trips_startTrip 2) (by_ U3 17) s7.
Definition s9 := exec (trips_scanPassenger 8 aliceQr) (by_ U3 18) s8.
Definition s10 := exec (trips_endTrip 8) (by_ U3 20) s9.
Definition s11 := exec (passengers_archive 7) (by_ U2 100) s10.
Definition s12 := exec (passengers_archive 7) (by_ U2 200) s11.

(** Alice is archived while the trip is still running. *)
Definition s9a := exec (passengers_archive 7) (by_ U2 19) s9.

(** After Alice is archived, U2 registers Bob. *)
Definition s13 := exec (passengers_create 0 "Bob" "bob@x.com")
                    (by_rnd U2 300 "mnopqrstuvwx") s12.

(** U3, a driver of Acme, creates an operator of their own. *)
Definition s7' := exec (operators_create "Beta" "beta") (by_ U3 30) s6.

Definition alice (a : option timestamp) : Passenger.t :=
  Passenger.mk 7 0 "u2" "Alice" "alice@x.com" aliceQr 16%Z a.

Definition member_U3 : Member.t :=
  Member.mk 6 0 "u3" driver "u3@x.com" "u3@x.com" 15%Z.

Definition trip8 (ended : option timestamp) (s : TripStatus)
    : TripSession.t :=
  TripSession.mk 8 0 2 "u3" 17%Z ended s.

Definition inviteB (used : option timestamp) : Invite.t :=
  Invite.mk 3 0 "u2@x.com" invite_business "tokB" 12%Z 604800012%Z used.

Definition bob : Passenger.t :=
  Passenger.mk 10 0 "u2" "Bob" "bob@x.com" "SAVARI-mnopqrstuvwx" 300%Z None.

Definition downtown : Route.t := Route.mk 2 0 "Downtown" None true 11%Z.

Definition acme : Operator.t := Operator.mk 0 "Acme" "acme" "u1" 10%Z.

Definition inviteD (used : option timestamp) : Invite.t :=
  Invite.mk 4 0 "u3@x.com" invite_driver "tokD" 13%Z 604800013%Z used.

Definition member_U1 : Member.t :=
  Member.mk 1 0 "u1" operator "u1@x.com" "Una" 10%Z.

Definition member_U2 : Member.t :=
  Member.mk 5 0 "u2" business "u2@x.com" "u2@x.com" 14%Z.

(** U3 changes operator while trip 8 is running: after the first scan of
    Alice, U1 removes U3 from Acme; W founds operator "Beta" and invites
    U3 as a driver, and U3 accepts. *)
Definition W := User.mk "w1" "w1@y.com" (Some "Wim").



(** The table each id names on the way from [s1] to [s13].  No document
    has the ids 98 and 99: they are ids a client made up, of a trip
    session and of a passenger. *)
Definition table_of (id : Id) : string :=
  match id with
  | 0 => "operators"
  | 1 | 5 | 6 => "members"
  | 2 => "routes"
  | 3 | 4 => "invites"
  | 7 | 10 | 99 => "passengers"
  | 8 | 98 => "tripSessions"
  | 9 => "scans"
  | _ => "operators"
  end.

End Scenario.

(** ** Proof tools: running a handler *)

Ltac unfold_handler :=
  unfold commit,
    operators.create,
    members.createInvite, members.acceptInvite, members.removeMember,
    members.deleteInvite, members.requireOperatorRole,
    routes.create, routes.update, routes.remove, routes.requireOperatorRole,
    passengers.create, passengers.update, passengers.archive,
    passengers.resendTicketEmail, passengers.requireBusinessRole,
    passengers.getByQrCode, passengers.list, passengers.requireMembership,
    trips.startTrip, trips.endTrip, trips.scanPassenger,
    trips.requireDriverRole,
    throw_if, require, bind, ret, throw, getAuthUser, Date_now, nanoid,
    db_get, db_insert, db_patch, db_delete, q_first, q_paginate,
    scheduler_runAfter.

Ltac reduce_db :=
  cbn [fst snd rows set_rows doc_id operators_t members_t routes_t
       passengers_t tripSessions_t scans_t invites_t bump
       operators_tbl members_tbl routes_tbl passengers_tbl
       tripSessions_tbl scans_tbl invites_tbl scheduled nextId
       is_some negb] in *.

(** Follow the handler along each of its paths: split on the innermost
    test that is still open. *)
Ltac follow :=
  repeat (reduce_db;
    match goal with
    | |- context [match ?x with _ => _ end] =>
        lazymatch x with
        | context [match _ with _ => _ end] => fail
        | _ => destruct x eqn:?
        end
    end);
  reduce_db.

(** A scenario state is reachable: one [exec] after the other. *)
Ltac run_scenario :=
  repeat (first [ exact reachable_empty
                | apply reachable_exec; [| reflexivity] ]).

(** Equations between options left by the tests of a path. *)
Ltac tidy :=
  repeat match goal with
         | H : Some _ = None |- _ => discriminate H
         | H : None = Some _ |- _ => discriminate H
         | H : Some ?a = Some ?b |- _ =>
             first [ is_var a; injection H as -> | injection H as <- ]
         end.

(** Every call, every path. *)
Ltac paths c :=
  destruct c; unfold exec; unfold_handler; follow; tidy.

(** Split a conjunction, not what unfolds to one. *)
Ltac conjs := repeat match goal with |- _ /\ _ => split end.

(** The queries, down to the reads of the database. *)
Ltac unfold_query :=
  unfold operators.getBySlug, operators.getMine, operators.getMyMembership,
    members.getInviteByToken, members.listInvites, members.list,
    routes.listActive, routes.get, routes.list, routes.requireMembership,
    passengers.get,
    trips.getActiveTrip, trips.getDriverHistory, trips.getTripDetails,
    v_id, q_collect, q_take_desc;
  unfold_handler.

(** ** Lists as tables *)

Section Tables.
Context {row : Type}.
Implicit Types (f g : row -> bool) (l : list row).

Lemma find_app_some f l l' x :
  find f l = Some x -> find f (l ++ l') = Some x.
Proof.
  induction l as [|a l IH]; simpl; [discriminate|].
  destruct (f a); auto.
Qed.

Lemma find_app_none f l l' :
  find f l = None -> find f (l ++ l') = find f l'.
Proof.
  induction l as [|a l IH]; simpl; [reflexivity|].
  destruct (f a); [discriminate | auto].
Qed.

Lemma find_none_filter f l : find f l = None -> filter f l = [].
Proof.
  induction l as [|a l IH]; simpl; [reflexivity|].
  destruct (f a); [discriminate | auto].
Qed.


Lemma count_app f l l' : count f (l ++ l') = count f l + count f l'.
Proof. unfold count. now rewrite filter_app, length_app. Qed.

Lemma count_find_none f l : find f l = None -> count f l = 0.
Proof. unfold count. intros H. now rewrite find_none_filter. Qed.

Lemma count_filter_le f g l : count f (filter g l) <= count f l.
Proof.
  unfold count. induction l as [|a l IH]; simpl; [lia|].
  destruct (g a); simpl; destruct (f a); simpl; lia.
Qed.

(** A patch whose new document is in the range only if the old one was
    does not add to the range. *)
Lemma count_map_le f (h : row -> row) l :
  (forall r, f (h r) = true -> f r = true) ->
  count f (map h l) <= count f l.
Proof.
  intros Hh. unfold count. induction l as [|a l IH]; simpl; [lia|].
  destruct (f (h a)) eqn:E.
  - rewrite (Hh _ E). simpl. lia.
  - destruct (f a); simpl; lia.
Qed.

(** A patch that does not move documents across the range commutes with
    [.first()]. *)
Lemma find_map f (h : row -> row) l :
  (forall r, f (h r) = f r) ->
  find f (map h l) = option_map h (find f l).
Proof.
  intros Hh. induction l as [|a l IH]; simpl; [reflexivity|].
  rewrite Hh. destruct (f a); auto.
Qed.



End Tables.

(** ** How the single writes act on the predicates *)

Lemma is_some_false {A} (x : option A) : is_some x = false -> x = None.
Proof. destruct x; [discriminate | reflexivity]. Qed.

Lemma one_active_insert l tr :
  one_active l ->
  find (active_of (TripSession.driverId tr)) l = None ->
  one_active (l ++ [tr]).
Proof.
  intros H Hnone d. rewrite count_app. unfold count at 2. simpl.
  destruct (active_of d tr) eqn:E; simpl.
  - unfold active_of in E. apply andb_prop in E as [E _].
    apply String.eqb_eq in E. subst d.
    rewrite (count_find_none _ _ Hnone). lia.
  - specialize (H d). lia.
Qed.

Lemma one_active_complete l id t :
  one_active l ->
  one_active (patch_rows tripSessions_t id (trips.complete t) l).
Proof.
  intros H d. unfold patch_rows.
  eapply Nat.le_trans; [apply count_map_le | apply H].
  intros r. simpl. destruct (TripSession._id r =? id); [|auto].
  unfold active_of, trips.complete. simpl. now rewrite andb_false_r.
Qed.

Lemma scans_unique_insert l s :
  scans_unique l ->
  find (scan_of (Scan.tripSessionId s) (Scan.passengerId s)) l = None ->
  scans_unique (l ++ [s]).
Proof.
  intros H Hnone t p. rewrite count_app. unfold count at 2. simpl.
  destruct (scan_of t p s) eqn:E; simpl.
  - unfold scan_of in E. apply andb_prop in E as [E1 E2].
    apply Nat.eqb_eq in E1, E2. subst t p.
    rewrite (count_find_none _ _ Hnone). lia.
  - specialize (H t p). lia.
Qed.

Lemma archived_ok_insert l p :
  archived_ok l -> Passenger.archivedAt p = None -> archived_ok (l ++ [p]).
Proof.
  intros H Hp q a Hin Ha. apply in_app_or in Hin as [Hin | [<- | []]].
  - eauto.
  - congruence.
Qed.

Lemma archived_ok_patch l id f :
  archived_ok l ->
  (forall p a, Passenger.archivedAt (f p) = Some a ->
               Passenger.archivedAt p = Some a \/ (0 < a)%Z) ->
  archived_ok (patch_rows passengers_t id f l).
Proof.
  intros H Hf q a Hin Ha. unfold patch_rows in Hin.
  apply in_map_iff in Hin as (p & <- & Hin). simpl in Ha.
  destruct (Passenger._id p =? id).
  - apply Hf in Ha as [Ha | Ha]; eauto.
  - eauto.
Qed.

Lemma used_ok_insert l i :
  used_ok l -> Invite.usedAt i = None -> used_ok (l ++ [i]).
Proof.
  intros H Hi j a Hin Ha. apply in_app_or in Hin as [Hin | [<- | []]].
  - eauto.
  - congruence.
Qed.

Lemma used_ok_patch l id t :
  used_ok l -> (0 < t)%Z ->
  used_ok (patch_rows invites_t id (members.set_usedAt t) l).
Proof.
  intros H Ht j a Hin Ha. unfold patch_rows in Hin.
  apply in_map_iff in Hin as (i & <- & Hin). simpl in Ha.
  destruct (Invite._id i =? id).
  - simpl in Ha. congruence.
  - eauto.
Qed.

Lemma used_ok_delete l g : used_ok l -> used_ok (filter g l).
Proof.
  intros H j a Hin Ha. apply filter_In in Hin as [Hin _]. eauto.
Qed.

Lemma ids_ok_mono n m l : ids_ok n l -> n <= m -> ids_ok m l.
Proof.
  intros [Hnd Hlt] Hle. split; [exact Hnd|].
  intros p Hp. specialize (Hlt p Hp). lia.
Qed.

Lemma ids_ok_insert n l p :
  ids_ok n l -> Passenger._id p = n -> ids_ok (S n) (l ++ [p]).
Proof.
  intros [Hnd Hlt] Hp. split.
  - rewrite map_app. simpl. apply NoDup_app; [exact Hnd | | ].
    + constructor; [intros [] | constructor].
    + intros x Hx [<- | []]. apply in_map_iff in Hx as (q & Hq & Hin).
      specialize (Hlt q Hin). lia.
  - intros q Hin. apply in_app_or in Hin as [Hin | [<- | []]].
    + specialize (Hlt q Hin). lia.
    + lia.
Qed.

Lemma ids_ok_patch n l id f :
  ids_ok n l -> (forall p, Passenger._id (f p) = Passenger._id p) ->
  ids_ok n (patch_rows passengers_t id f l).
Proof.
  intros [Hnd Hlt] Hf.
  assert (Hid : forall p,
             Passenger._id (if Passenger._id p =? id then f p else p)
             = Passenger._id p).
  { intros p. destruct (Passenger._id p =? id); auto. }
  split.
  - unfold patch_rows. rewrite map_map. simpl.
    erewrite map_ext; [exact Hnd | exact Hid].
  - intros q Hin. unfold patch_rows in Hin.
    apply in_map_iff in Hin as (p & <- & Hin). simpl.
    rewrite Hid. auto.
Qed.

(** With distinct ids, [ctx.db.get] of a stored document's id is that
    document. *)
Lemma get_of_In n l p :
  ids_ok n l -> In p l ->
  find (has_id passengers_t (Passenger._id p)) l = Some p.
Proof.
  intros [Hnd _]. induction l as [|a l IH]; simpl; [intros []|].
  inversion Hnd as [|? ? Hnotin Hnd']; subst. unfold has_id at 1. simpl.
  intros [-> | Hin].
  - now rewrite Nat.eqb_refl.
  - destruct (Passenger._id a =? Passenger._id p) eqn:E.
    + apply Nat.eqb_eq in E. exfalso. apply Hnotin. rewrite E.
      now apply in_map.
    + auto.
Qed.

Lemma by_qr_found q ps p :
  find (by_qr q) ps = Some p ->
  In p ps /\ find (by_qr (Passenger.qrCode p)) ps = Some p.
Proof.
  intros H. pose proof (find_some _ _ H) as [Hin Hq].
  unfold by_qr in Hq. apply String.eqb_eq in Hq. subst q. auto.
Qed.

Lemma scans_resolve_insert_passenger ps l p :
  scans_resolve ps l -> scans_resolve (ps ++ [p]) l.
Proof.
  intros H s Hs. destruct (H s Hs) as (q & Hin & Hid & Hq).
  exists q. repeat split; auto using in_or_app, find_app_some.
Qed.

Lemma scans_resolve_patch ps l id f :
  scans_resolve ps l ->
  (forall p, Passenger._id (f p) = Passenger._id p) ->
  (forall p, Passenger.qrCode (f p) = Passenger.qrCode p) ->
  scans_resolve (patch_rows passengers_t id f ps) l.
Proof.
  intros H Hid Hqr s Hs. destruct (H s Hs) as (q & Hin & Hq & Hfind).
  set (h := fun r => if doc_id passengers_t r =? id then f r else r).
  assert (Hh1 : forall r, Passenger._id (h r) = Passenger._id r).
  { intros r. unfold h. destruct (doc_id passengers_t r =? id); auto. }
  assert (Hh2 : forall r, Passenger.qrCode (h r) = Passenger.qrCode r).
  { intros r. unfold h. destruct (doc_id passengers_t r =? id); auto. }
  exists (h q). unfold patch_rows. fold h. repeat split.
  - now apply in_map.
  - now rewrite Hh1.
  - rewrite find_map.
    + rewrite Hh2, Hfind. reflexivity.
    + intros r. unfold by_qr. now rewrite Hh2.
Qed.

Lemma scans_resolve_insert_scan ps l s p q :
  scans_resolve ps l ->
  find (by_qr q) ps = Some p -> Scan.passengerId s = Passenger._id p ->
  scans_resolve ps (l ++ [s]).
Proof.
  intros H Hp Hs s' Hin. apply in_app_or in Hin as [Hin | [<- | []]].
  - auto.
  - apply by_qr_found in Hp as [Hin Hq]. exists p. auto.
Qed.

(** ** What every call keeps *)

Lemma one_active_exec c e st :
  one_active (tripSessions_tbl st) ->
  one_active (tripSessions_tbl (exec c e st)).
Proof.
  intros H. destruct c; unfold exec; unfold_handler; follow;
    try assumption.
  - apply one_active_insert; [assumption|]. simpl.
    now apply is_some_false.
  - now apply one_active_complete.
Qed.

Lemma scans_unique_exec c e st :
  scans_unique (scans_tbl st) -> scans_unique (scans_tbl (exec c e st)).
Proof.
  intros H. destruct c; unfold exec; unfold_handler; follow;
    try assumption.
  apply scans_unique_insert; assumption.
Qed.

Lemma Inv_exec c e st : Inv st -> (0 < now e)%Z -> Inv (exec c e st).
Proof.
  intros [H1 H2 H3 H4 H5 H6] Hnow. split.
  - now apply scans_unique_exec.
  - now apply one_active_exec.
  - destruct c; unfold exec; unfold_handler; follow; try assumption.
    + now apply archived_ok_insert.
    + apply archived_ok_patch; [assumption|]. intros p a. simpl. auto.
    + apply archived_ok_patch; [assumption|]. intros p a. simpl.
      intros [= <-]. auto.
  - destruct c; unfold exec; unfold_handler; follow; try assumption.
    + now apply used_ok_insert.
    + now apply used_ok_patch.
    + now apply used_ok_delete.
  - destruct c; unfold exec; unfold_handler; follow; try assumption;
      try (eapply ids_ok_mono; [eassumption | lia]).
    + now apply ids_ok_insert.
    + now apply ids_ok_patch.
    + now apply ids_ok_patch.
  - destruct c; unfold exec; unfold_handler; follow; try assumption.
    + now apply scans_resolve_insert_passenger.
    + now apply scans_resolve_patch.
    + now apply scans_resolve_patch.
    + eapply scans_resolve_insert_scan; [assumption | eassumption |].
      reflexivity.
Qed.

Lemma Inv_empty : Inv empty_db.
Proof.
  split; simpl.
  - intros t p. unfold count. simpl. lia.
  - intros d. unfold count. simpl. lia.
  - intros p a [].
  - intros i a [].
  - split; [constructor | intros p []].
  - intros s [].
Qed.

Lemma reachable_Inv st : reachable st -> Inv st.
Proof.
  induction 1 as [|st c e _ IH Hnow];
    [apply Inv_empty | now apply Inv_exec].
Qed.

Lemma ids_ok_inj n l p q :
  ids_ok n l -> In p l -> In q l -> Passenger._id p = Passenger._id q ->
  p = q.
Proof.
  intros H Hp Hq E.
  pose proof (get_of_In _ _ _ H Hp) as H1.
  pose proof (get_of_In _ _ _ H Hq) as H2.
  rewrite E in H1. congruence.
Qed.

Lemma find_of_In {A} (f : A -> bool) l x :
  In x l -> f x = true -> exists y, find f l = Some y.
Proof.
  intros Hin Hf. destruct (find f l) eqn:E; [eauto|].
  pose proof (find_none _ _ E _ Hin). congruence.
Qed.

(** [ctx.db.get] after [ctx.db.patch] of the same document. *)
Lemma get_patch {row} (T : table row) id f l r :
  (forall x, doc_id T (f x) = doc_id T x) ->
  find (has_id T id) l = Some r ->
  find (has_id T id) (patch_rows T id f l) = Some (f r).
Proof.
  intros Hf H. unfold patch_rows. rewrite find_map.
  - rewrite H. simpl. apply find_some in H as [_ H].
    unfold has_id in H. now rewrite H.
  - intros x. unfold has_id.
    destruct (doc_id T x =? id) eqn:E; [|exact E]. now rewrite Hf.
Qed.

Lemma scanPassenger_run st e user m trip t qr p :
  caller_is driver e st user m ->
  trip_of t user active st trip ->
  find (by_qr qr) (passengers_tbl st) = Some p ->
  Passenger.operatorId p = Member.operatorId m ->
  trips.scanPassenger t qr e st =
  match find (scan_of t (Passenger._id p)) (scans_tbl st) with
  | Some _ => Ok (mkscan p already_scanned, st)
  | None => Ok (mkscan p success, add_scan (new_scan st e user m t p) st)
  end.
Proof.
  intros (Ha & Hm & Hr) (Ht & Hd & Hs) Hp Ho.
  unfold by_user in Hm. unfold has_id in Ht. unfold by_qr in Hp.
  simpl in Ht. unfold scan_of.
  unfold_handler. reduce_db.
  rewrite Ha, Hm, Hr. simpl. rewrite Ht, Hd, Hs, String.eqb_refl. simpl.
  rewrite Hp, Ho, Nat.eqb_refl. simpl.
  destruct (find _ (scans_tbl st)); reflexivity.
Qed.

(** ** The scenario is a run of the system *)

Lemma reachable_s6 : reachable Scenario.s6.
Proof. run_scenario. Defined.

Lemma reachable_s8 : reachable Scenario.s8.
Proof. do 2 (apply reachable_exec; [| reflexivity]). exact reachable_s6.
Defined.

Lemma reachable_s9 : reachable Scenario.s9.
Proof. apply reachable_exec; [exact reachable_s8 | reflexivity]. Defined.

Lemma reachable_s10 : reachable Scenario.s10.
Proof. apply reachable_exec; [exact reachable_s9 | reflexivity]. Defined.


Lemma reachable_s12 : reachable Scenario.s12.
Proof. do 2 (apply reachable_exec; [| reflexivity]). exact reachable_s10.
Defined.

(** ** Scans *)




(** C10. [scanPassenger] never reads [archivedAt]: rewriting the
    [archivedAt] of the passengers in any way changes neither whether the
    call throws, nor its message, nor the returned status, nor what is
    written; the returned record is the stored one.  So for a driver, their
    active trip and a passenger of the driver's operator that the QR code
    resolves to, the scan returns ["success"] or ["already_scanned"] with
    the passenger record also when the passenger is archived. *)
Theorem scanPassenger_ignores_archivedAt (st : db) (e : env) (t : Id)
    (qr : string) :
  (forall g,
     trips.scanPassenger t qr e (with_archived g st)
     = rearchive_result g (trips.scanPassenger t qr e st))
  /\ (forall user m trip p a,
        caller_is driver e st user m ->
        trip_of t user active st trip ->
        find (by_qr qr) (passengers_tbl st) = Some p ->
        Passenger.operatorId p = Member.operatorId m ->
        Passenger.archivedAt p = Some a ->
        exists s st',
          trips.scanPassenger t qr e st = Ok (mkscan p s, st')).
Proof.
  split.
  - intros g. unfold with_archived.
    unfold_handler. reduce_db.
    destruct (auth e) as [user|]; [|reflexivity]. simpl.
    destruct (find _ (members_tbl st)) as [m|]; [|reflexivity].
    destruct (Role_eqb (Member.role m) driver); [|reflexivity]. simpl.
    destruct (find _ (tripSessions_tbl st)) as [trip|]; [|reflexivity].
    simpl.
    destruct (negb (String.eqb (TripSession.driverId trip) (User._id user)));
      [reflexivity|].
    destruct (negb (TripStatus_eqb (TripSession.status trip) active));
      [reflexivity|].
    reduce_db. rewrite find_map by reflexivity.
    destruct (find _ (passengers_tbl st)) as [p|]; [|reflexivity]. simpl.
    destruct (negb (Passenger.operatorId p =? Member.operatorId m));
      [reflexivity|].
    reduce_db. destruct (find _ (scans_tbl st)); reflexivity.
  - intros user m trip p a Hc Ht Hp Ho _.
    rewrite (scanPassenger_run _ _ _ _ _ _ _ _ Hc Ht Hp Ho).
    destruct (find _ (scans_tbl st)); eauto.
Qed.

Lemma scanPassenger_ignores_archivedAt_witness :
  exists s st',
    trips.scanPassenger 8 Scenario.aliceQr (Scenario.by_ Scenario.U3 20)
      Scenario.s9a
    = Ok (mkscan (Scenario.alice (Some 19%Z)) s, st').
Proof.
  apply (proj2 (scanPassenger_ignores_archivedAt Scenario.s9a
                  (Scenario.by_ Scenario.U3 20) 8 Scenario.aliceQr)
           Scenario.U3 Scenario.member_U3 (Scenario.trip8 None active)
           (Scenario.alice (Some 19%Z)) 19%Z).
  - vm_compute. repeat split.
  - vm_compute. repeat split.
  - vm_compute. reflexivity.
  - vm_compute. reflexivity.
  - vm_compute. reflexivity.
Defined.

(** C6. A completed trip accepts no scan: whoever calls [scanPassenger]
    on it, with whatever QR code, the call throws and the database stays
    as it was (no Scan row is written); for the trip's own driver the
    error is "Trip is not active". *)
Theorem scanPassenger_rejects_completed_trip (st : db) (e : env) (t : Id)
    (qr : string) (trip : TripSession.t) :
  find (has_id tripSessions_t t) (tripSessions_tbl st) = Some trip ->
  TripSession.status trip = completed ->
  (exists msg, trips.scanPassenger t qr e st = Err msg)
  /\ exec (trips_scanPassenger t qr) e st = st
  /\ (forall user m,
        caller_is driver e st user m ->
        TripSession.driverId trip = User._id user ->
        trips.scanPassenger t qr e st = Err "Trip is not active").
Proof.
  intros Ht Hs. unfold has_id in Ht. simpl in Ht.
  assert (H : exists msg, trips.scanPassenger t qr e st = Err msg).
  { unfold_handler. follow; try (eexists; reflexivity).
    all: exfalso; rewrite Ht in *.
    all: match goal with H : Some _ = Some _ |- _ => injection H as <- end.
    all: rewrite Hs in *; discriminate. }
  split; [exact H|]. split.
  - destruct H as (msg & H). simpl. unfold commit. now rewrite H.
  - intros user m (Ha & Hm & Hr) Hd. unfold by_user in Hm.
    unfold_handler. reduce_db.
    rewrite Ha, Hm, Hr. simpl. rewrite Ht, Hd, Hs, String.eqb_refl.
    reflexivity.
Qed.

Lemma scanPassenger_rejects_completed_trip_witness :
  (exists msg,
     trips.scanPassenger 8 Scenario.aliceQr (Scenario.by_ Scenario.U3 21)
       Scenario.s10 = Err msg)
  /\ exec (trips_scanPassenger 8 Scenario.aliceQr)
       (Scenario.by_ Scenario.U3 21) Scenario.s10 = Scenario.s10
  /\ (forall user m,
        caller_is driver (Scenario.by_ Scenario.U3 21) Scenario.s10
          user m ->
        TripSession.driverId (Scenario.trip8 (Some 20%Z) completed)
        = User._id user ->
        trips.scanPassenger 8 Scenario.aliceQr
          (Scenario.by_ Scenario.U3 21) Scenario.s10
        = Err "Trip is not active").
Proof.
  apply (scanPassenger_rejects_completed_trip Scenario.s10
           (Scenario.by_ Scenario.U3 21) 8 Scenario.aliceQr
           (Scenario.trip8 (Some 20%Z) completed)).
  - vm_compute. reflexivity.
  - reflexivity.
Defined.

(** ** Trips *)

(** C5. For a trip that is not active, [endTrip] throws whoever calls it
    and the database (so the trip row and its [endedAt]) stays as it was;
    for the trip's own driver the error is "Trip is not active".  For an
    active trip, [endTrip] by its own driver returns, and the trip row
    becomes the old one with [status = "completed"] and
    [endedAt = Date.now()]. *)
Theorem endTrip_only_once (st : db) (e : env) (t : Id)
    (trip : TripSession.t) :
  find (has_id tripSessions_t t) (tripSessions_tbl st) = Some trip ->
  (TripSession.status trip <> active ->
   (exists msg, trips.endTrip t e st = Err msg)
   /\ exec (trips_endTrip t) e st = st
   /\ (forall user m,
         caller_is driver e st user m ->
         TripSession.driverId trip = User._id user ->
         trips.endTrip t e st = Err "Trip is not active"))
  /\ (TripSession.status trip = active ->
      forall user m,
        caller_is driver e st user m ->
        TripSession.driverId trip = User._id user ->
        let trip' :=
          TripSession.mk (TripSession._id trip)
            (TripSession.operatorId trip) (TripSession.routeId trip)
            (TripSession.driverId trip) (TripSession.startedAt trip)
            (Some (now e)) completed in
        exists st',
          trips.endTrip t e st = Ok (tt, st')
          /\ find (has_id tripSessions_t t) (tripSessions_tbl st')
             = Some trip'
          /\ exec (trips_endTrip t) e st = st').
Proof.
  intros Ht. pose proof Ht as Ht'. unfold has_id in Ht'. simpl in Ht'.
  split.
  - intros Hs.
    assert (Hc : TripStatus_eqb (TripSession.status trip) active = false).
    { destruct (TripSession.status trip); [congruence | reflexivity]. }
    assert (H : exists msg, trips.endTrip t e st = Err msg).
    { unfold_handler. follow; try (eexists; reflexivity).
      all: exfalso; rewrite Ht' in *.
      all: match goal with H : Some _ = Some _ |- _ => injection H as <- end.
      all: rewrite Hc in *; discriminate. }
    split; [exact H|]. split.
    + destruct H as (msg & H). simpl. unfold commit. now rewrite H.
    + intros user m (Ha & Hm & Hr) Hd. unfold by_user in Hm.
      unfold_handler. reduce_db.
      rewrite Ha, Hm, Hr. simpl. rewrite Ht', Hd, Hc, String.eqb_refl.
      reflexivity.
  - intros Hs user m (Ha & Hm & Hr) Hd trip'. unfold by_user in Hm.
    assert (H : trips.endTrip t e st
                = Ok (tt, set_rows tripSessions_t
                            (patch_rows tripSessions_t t
                               (trips.complete (now e))
                               (tripSessions_tbl st)) st)).
    { unfold_handler. reduce_db.
      rewrite Ha, Hm, Hr. simpl. rewrite Ht', Hd, Hs, String.eqb_refl.
      simpl. rewrite Ht'. reflexivity. }
    eexists. split; [exact H|]. split.
    + exact (get_patch tripSessions_t t (trips.complete (now e)) _ trip
               (fun _ => eq_refl) Ht).
    + simpl. unfold commit. now rewrite H.
Qed.

Lemma endTrip_only_once_witness :
  trips.endTrip 8 (Scenario.by_ Scenario.U3 21) Scenario.s10
  = Err "Trip is not active"
  /\ exists st',
       trips.endTrip 8 (Scenario.by_ Scenario.U3 20) Scenario.s9
       = Ok (tt, st')
       /\ find (has_id tripSessions_t 8) (tripSessions_tbl st')
          = Some (Scenario.trip8 (Some 20%Z) completed)
       /\ exec (trips_endTrip 8) (Scenario.by_ Scenario.U3 20)
            Scenario.s9 = st'.
Proof.
  split.
  - apply (proj1 (endTrip_only_once Scenario.s10
                    (Scenario.by_ Scenario.U3 21) 8
                    (Scenario.trip8 (Some 20%Z) completed)
                    ltac:(vm_compute; reflexivity))
             ltac:(discriminate) ) with (user := Scenario.U3)
                                        (m := Scenario.member_U3).
    + vm_compute. repeat split.
    + reflexivity.
  - apply (proj2 (endTrip_only_once Scenario.s9
                    (Scenario.by_ Scenario.U3 20) 8
                    (Scenario.trip8 None active)
                    ltac:(vm_compute; reflexivity))
             ltac:(reflexivity) Scenario.U3 Scenario.member_U3).
    + vm_compute. repeat split.
    + reflexivity.
Defined.

(** C2. In every reachable state a driver has at most one active
    TripSession.  A [startTrip] by a user who has an active TripSession
    throws, whatever the route, and the database stays as it was (no
    TripSession is inserted); when the caller passes the checks that come
    first (driver role, route of the driver's operator) the error is the
    conflict "You already have an active trip. End it first.".  Every
    call of the system keeps the invariant. *)
Theorem one_active_trip_per_driver :
  (forall st, reachable st ->
     forall d, count (active_of d) (tripSessions_tbl st) <= 1)
  /\ (forall st e user r tr,
        auth e = Some user ->
        In tr (tripSessions_tbl st) ->
        TripSession.driverId tr = User._id user ->
        TripSession.status tr = active ->
        (exists msg, trips.startTrip r e st = Err msg)
        /\ exec (trips_startTrip r) e st = st
        /\ (forall m route,
              caller_is driver e st user m ->
              find (has_id routes_t r) (routes_tbl st) = Some route ->
              Route.operatorId route = Member.operatorId m ->
              trips.startTrip r e st
              = Err "You already have an active trip. End it first."))
  /\ (forall st c e,
        one_active (tripSessions_tbl st) ->
        one_active (tripSessions_tbl (exec c e st))).
Proof.
  split; [| split].
  - intros st Hr. apply (inv_trips _ (reachable_Inv _ Hr)).
  - intros st e user r tr Ha Hin Hd Hs.
    destruct (find_of_In (active_of (User._id user)) _ tr Hin) as (y & Hy).
    { unfold active_of. now rewrite Hd, Hs, String.eqb_refl. }
    unfold active_of in Hy.
    assert (H : exists msg, trips.startTrip r e st = Err msg).
    { unfold_handler. reduce_db. rewrite Ha.
      follow; try (eexists; reflexivity).
      exfalso. rewrite Hy in *. discriminate. }
    split; [exact H|]. split.
    + destruct H as (msg & H). simpl. unfold commit. now rewrite H.
    + intros m route (_ & Hm & Hr) Hroute Ho. unfold by_user in Hm.
      unfold has_id in Hroute. simpl in Hroute.
      unfold_handler. reduce_db.
      rewrite Ha, Hm, Hr. simpl. rewrite Hroute, Ho, Nat.eqb_refl. simpl.
      rewrite Hy. reflexivity.
  - intros st c e. apply one_active_exec.
Qed.

Lemma one_active_trip_per_driver_witness :
  count (active_of "u3") (tripSessions_tbl Scenario.s9) <= 1
  /\ trips.startTrip 2 (Scenario.by_ Scenario.U3 19) Scenario.s9
     = Err "You already have an active trip. End it first."
  /\ exec (trips_startTrip 2) (Scenario.by_ Scenario.U3 19) Scenario.s9
     = Scenario.s9.
Proof.
  destruct one_active_trip_per_driver as (H1 & H2 & _).
  split; [apply (H1 _ reachable_s9) | ].
  destruct (H2 Scenario.s9 (Scenario.by_ Scenario.U3 19) Scenario.U3 2
              (Scenario.trip8 None active)) as (_ & H3 & H4).
  - reflexivity.
  - vm_compute. left. reflexivity.
  - reflexivity.
  - reflexivity.
  - split; [| exact H3].
    apply (H4 Scenario.member_U3 Scenario.downtown).
    + vm_compute. repeat split.
    + vm_compute. reflexivity.
    + reflexivity.
Defined.

(** ** Invites *)

(** [acceptInvite], path by path. *)
Lemma acceptInvite_run tok e st :
  members.acceptInvite tok e st =
  match auth e with
  | None => Err "Not authenticated"
  | Some user =>
      match find (by_token tok) (invites_tbl st) with
      | None => Err "Invalid invite"
      | Some inv =>
          if truthy (Invite.usedAt inv) then Err "Invite already used"
          else if (Invite.expiresAt inv <? now e)%Z then
            Err "Invite expired"
          else
            match find (by_user (User._id user)) (members_tbl st) with
            | Some _ => Err "You are already a member of an operator"
            | None => Ok (Invite.operatorId inv, accepted st e user inv)
            end
      end
  end.
Proof.
  unfold by_token, by_user, accepted, new_member.
  unfold_handler. reduce_db.
  destruct (auth e) as [user|]; [|reflexivity]. simpl.
  destruct (find _ (invites_tbl st)) as [inv|] eqn:Hinv; [|reflexivity].
  simpl.
  destruct (truthy (Invite.usedAt inv)); [reflexivity|].
  destruct (Invite.expiresAt inv <? now e)%Z; [reflexivity|].
  destruct (find _ (members_tbl st)); [reflexivity|]. reduce_db.
  apply find_some in Hinv as [Hin _].
  destruct (find_of_In (fun r => Invite._id r =? Invite._id inv) _ inv Hin)
    as (y & ->); [apply Nat.eqb_refl | reflexivity].
Qed.

Lemma by_token_accepted tok st e user inv :
  find (by_token tok) (invites_tbl st) = Some inv ->
  find (by_token tok) (invites_tbl (accepted st e user inv))
  = Some (members.set_usedAt (now e) inv).
Proof.
  intros H. unfold accepted, patch_rows. simpl. rewrite find_map.
  - rewrite H. simpl. now rewrite Nat.eqb_refl.
  - intros r. destruct (Invite._id r =? Invite._id inv); reflexivity.
Qed.

(** C7. In a reachable state, at a positive clock: [acceptInvite] throws
    on a token no invite bears; throws on an invite whose [usedAt] is set;
    throws on an invite whose [expiresAt] is before now, whatever its
    [usedAt]; throws when the caller already has a Member row; and
    otherwise one transaction inserts the Member row and sets the invite's
    [usedAt], after which every call with the same token throws. *)
Theorem acceptInvite_single_use (st : db) (e : env) (tok : string) :
  reachable st -> (0 < now e)%Z ->
  (find (by_token tok) (invites_tbl st) = None ->
   (exists msg, members.acceptInvite tok e st = Err msg)
   /\ (forall user, auth e = Some user ->
         members.acceptInvite tok e st = Err "Invalid invite"))
  /\ (forall user m,
        auth e = Some user ->
        find (by_user (User._id user)) (members_tbl st) = Some m ->
        exists msg, members.acceptInvite tok e st = Err msg)
  /\ (forall inv,
        find (by_token tok) (invites_tbl st) = Some inv ->
        (forall a, Invite.usedAt inv = Some a ->
           (exists msg, members.acceptInvite tok e st = Err msg)
           /\ (forall user, auth e = Some user ->
                 members.acceptInvite tok e st = Err "Invite already used"))
        /\ ((Invite.expiresAt inv < now e)%Z ->
            (exists msg, members.acceptInvite tok e st = Err msg)
            /\ (forall user, auth e = Some user ->
                  Invite.usedAt inv = None ->
                  members.acceptInvite tok e st = Err "Invite expired"))
        /\ (forall user m,
              auth e = Some user ->
              find (by_user (User._id user)) (members_tbl st) = Some m ->
              Invite.usedAt inv = None ->
              (now e <= Invite.expiresAt inv)%Z ->
              members.acceptInvite tok e st
              = Err "You are already a member of an operator")
        /\ (forall user,
              auth e = Some user ->
              find (by_user (User._id user)) (members_tbl st) = None ->
              Invite.usedAt inv = None ->
              (now e <= Invite.expiresAt inv)%Z ->
              let st' := accepted st e user inv in
              members.acceptInvite tok e st = Ok (Invite.operatorId inv, st')
              /\ members_tbl st'
                 = (members_tbl st ++ [new_member st e user inv])%list
              /\ find (by_token tok) (invites_tbl st')
                 = Some (members.set_usedAt (now e) inv)
              /\ (forall e', exists msg,
                    members.acceptInvite tok e' st' = Err msg))).
Proof.
  intros Hreach Hnow. pose proof (inv_used _ (reachable_Inv _ Hreach)) as Hu.
  split; [| split].
  - intros Hnone. rewrite acceptInvite_run, Hnone. split.
    + destruct (auth e); eauto.
    + now intros user ->.
  - intros user m Ha Hm. rewrite acceptInvite_run, Ha, Hm.
    destruct (find _ (invites_tbl st)) as [inv|]; [|eauto].
    destruct (truthy _); [eauto|]. destruct (_ <? _)%Z; eauto.
  - intros inv Hinv. rewrite acceptInvite_run, Hinv.
    split; [| split; [| split]].
    + intros a Ha.
      assert (Ht : truthy (Invite.usedAt inv) = true).
      { apply find_some in Hinv as [Hin _].
        pose proof (Hu _ _ Hin Ha). rewrite Ha. simpl.
        apply negb_true_iff, Z.eqb_neq. lia. }
      rewrite Ht. split; [destruct (auth e); eauto | now intros user ->].
    + intros Hexp. apply Z.ltb_lt in Hexp. rewrite Hexp. split.
      * destruct (auth e); [|eauto]. destruct (truthy _); eauto.
      * intros user -> ->. reflexivity.
    + intros user m -> -> -> Hle. simpl.
      apply Z.ltb_ge in Hle. now rewrite Hle.
    + intros user -> -> -> Hle st'. subst st'. simpl.
      apply Z.ltb_ge in Hle. rewrite Hle.
      split; [reflexivity|]. split; [reflexivity|].
      split; [exact (by_token_accepted _ _ _ user _ Hinv)|].
      intros e'. rewrite acceptInvite_run.
      rewrite (by_token_accepted _ _ _ _ _ Hinv).
      assert (Ht : truthy (Invite.usedAt (members.set_usedAt (now e) inv))
                   = true).
      { simpl. apply negb_true_iff, Z.eqb_neq. lia. }
      rewrite Ht. destruct (auth e'); eauto.
Qed.

Lemma reachable_s4 : reachable Scenario.s4.
Proof. run_scenario. Defined.

Lemma acceptInvite_single_use_witness :
  members.acceptInvite "tokB" (Scenario.by_ Scenario.U2 14) Scenario.s4
  = Ok (0, accepted Scenario.s4 (Scenario.by_ Scenario.U2 14)
             Scenario.U2 (Scenario.inviteB None))
  /\ (forall e', exists msg,
        members.acceptInvite "tokB" e'
          (accepted Scenario.s4 (Scenario.by_ Scenario.U2 14)
             Scenario.U2 (Scenario.inviteB None))
        = Err msg).
Proof.
  destruct (acceptInvite_single_use Scenario.s4
              (Scenario.by_ Scenario.U2 14) "tokB" reachable_s4 eq_refl)
    as (_ & _ & H).
  destruct (H (Scenario.inviteB None) ltac:(vm_compute; reflexivity))
    as (_ & _ & _ & H4).
  destruct (H4 Scenario.U2 eq_refl ltac:(vm_compute; reflexivity) eq_refl
              ltac:(vm_compute; discriminate)) as (A & _ & _ & B).
  split; [exact A | exact B].
Defined.

(** ** Passengers *)

Lemma In_firstn {A} (x : A) n l : In x (firstn n l) -> In x l.
Proof.
  revert l. induction n as [|n IH]; intros [|a l]; simpl; try tauto.
  intros [H | H]; auto.
Qed.

Lemma In_skipn {A} (x : A) n l : In x (skipn n l) -> In x l.
Proof.
  revert l. induction n as [|n IH]; intros [|a l]; simpl; auto.
Qed.

Lemma reachable_s13 : reachable Scenario.s13.
Proof. apply reachable_exec; [exact reachable_s12 | reflexivity]. Defined.

(** C8. In a reachable state, a page returned by [list] with
    [includeArchived] absent or false holds no passenger whose
    [archivedAt] is set.  With [includeArchived] true the page is not
    filtered: the page of the default call is the page of this call
    without its archived rows, and there are reachable states where an
    archived passenger is on the page. *)
Theorem list_filters_archived :
  (forall st op cursor n inc e r st',
     reachable st -> inc <> Some true ->
     passengers.list op cursor n inc e st = Ok (r, st') ->
     forall p, In p (page r) -> Passenger.archivedAt p = None)
  /\ (forall st op cursor n e r st',
        passengers.list op cursor n (Some true) e st = Ok (r, st') ->
        forall inc, inc <> Some true ->
        passengers.list op cursor n inc e st
        = Ok (mkpage (filter not_archived (page r)) (isDone r)
                (continueCursor r), st'))
  /\ (exists st e r p,
        reachable st
        /\ passengers.list 0 None 10 (Some true) e st = Ok (r, st)
        /\ In p (page r) /\ Passenger.archivedAt p <> None).
Proof.
  split; [| split].
  - intros st op cursor n inc e r st' Hreach Hinc.
    pose proof (inv_archived _ (reachable_Inv _ Hreach)) as Harch.
    unfold_handler. follow; try discriminate; try congruence.
    all: intros [= <- <-] p Hp; simpl in Hp.
    all: apply filter_In in Hp as [Hp Hf]; apply In_firstn in Hp.
    all: try apply In_skipn in Hp; apply filter_In in Hp as [Hp _].
    all: destruct (Passenger.archivedAt p) as [a|] eqn:Ea; [|reflexivity].
    all: pose proof (Harch _ _ Hp Ea); simpl in Hf.
    all: apply negb_true_iff, negb_false_iff, Z.eqb_eq in Hf; lia.
  - intros st op cursor n e r st'.
    unfold_handler. follow; try discriminate.
    all: intros [= <- <-] [[|]|] Hinc; try congruence; reflexivity.
  - exists Scenario.s13, (Scenario.by_ Scenario.U2 301).
    eexists. exists (Scenario.alice (Some 200%Z)).
    split; [exact reachable_s13|].
    split; [vm_compute; reflexivity|].
    split; [left; reflexivity | discriminate].
Qed.

Lemma list_filters_archived_witness :
  passengers.list 0 None 10 None (Scenario.by_ Scenario.U2 301) Scenario.s13
  = Ok (mkpage [Scenario.bob] true 2, Scenario.s13)
  /\ Passenger.archivedAt Scenario.bob = None.
Proof.
  assert (H : passengers.list 0 None 10 None (Scenario.by_ Scenario.U2 301)
                Scenario.s13
              = Ok (mkpage [Scenario.bob] true 2, Scenario.s13))
    by (vm_compute; reflexivity).
  split; [exact H|].
  apply (proj1 list_filters_archived Scenario.s13 0 None 10%Z None
           (Scenario.by_ Scenario.U2 301)
           (mkpage [Scenario.bob] true 2) Scenario.s13
           reachable_s13 ltac:(discriminate) H Scenario.bob).
  left. reflexivity.
Defined.

(** C9. [getByQrCode] checks nothing about its caller: for every caller,
    authenticated or not, it returns (never throws) the first passenger
    bearing the QR code, of whatever operator, or null when no passenger
    bears it, and reads the database only. *)
Theorem getByQrCode_is_public (st : db) (qr : string) :
  (forall e,
     passengers.getByQrCode qr e st
     = Ok (find (by_qr qr) (passengers_tbl st), st))
  /\ (forall e e',
        passengers.getByQrCode qr e st = passengers.getByQrCode qr e' st)
  /\ (forall e p,
        In p (passengers_tbl st) -> Passenger.qrCode p = qr ->
        exists p',
          passengers.getByQrCode qr e st = Ok (Some p', st)
          /\ In p' (passengers_tbl st) /\ Passenger.qrCode p' = qr
          /\ ((forall q, In q (passengers_tbl st) ->
                 Passenger.qrCode q = qr -> q = p) -> p' = p))
  /\ (forall e,
        (forall p, In p (passengers_tbl st) -> Passenger.qrCode p <> qr) ->
        passengers.getByQrCode qr e st = Ok (None, st)).
Proof.
  assert (H : forall e, passengers.getByQrCode qr e st
                        = Ok (find (by_qr qr) (passengers_tbl st), st))
    by reflexivity.
  split; [exact H|]. split; [intros e e'; now rewrite !H|]. split.
  - intros e p Hin Hq. rewrite H.
    destruct (find_of_In (by_qr qr) _ p Hin) as (p' & Hp').
    { unfold by_qr. rewrite Hq. apply String.eqb_refl. }
    exists p'. rewrite Hp'. apply find_some in Hp' as [Hin' Hq'].
    unfold by_qr in Hq'. apply String.eqb_eq in Hq'. auto.
  - intros e Hnone. rewrite H.
    destruct (find _ _) as [p|] eqn:E; [|reflexivity].
    apply find_some in E as [Hin Hq]. unfold by_qr in Hq.
    apply String.eqb_eq in Hq. now apply Hnone in Hin.
Qed.

Lemma getByQrCode_is_public_witness :
  exists p',
    passengers.getByQrCode Scenario.aliceQr (Scenario.anonymous 50)
      Scenario.s9 = Ok (Some p', Scenario.s9)
    /\ In p' (passengers_tbl Scenario.s9)
    /\ Passenger.qrCode p' = Scenario.aliceQr
    /\ ((forall q, In q (passengers_tbl Scenario.s9) ->
           Passenger.qrCode q = Scenario.aliceQr ->
           q = Scenario.alice None) ->
        p' = Scenario.alice None).
Proof.
  apply (proj1 (proj2 (proj2 (getByQrCode_is_public Scenario.s9
                                Scenario.aliceQr)))
           (Scenario.anonymous 50) (Scenario.alice None)).
  - vm_compute. left. reflexivity.
  - reflexivity.
Defined.

(** [archive], path by path. *)
Lemma archive_run pid e st :
  passengers.archive pid e st =
  match auth e with
  | None => Err "Not authenticated"
  | Some user =>
      match find (by_user (User._id user)) (members_tbl st) with
      | Some m =>
          if Role_eqb (Member.role m) business then
            match find (has_id passengers_t pid) (passengers_tbl st) with
            | None => Err "Passenger not found"
            | Some p =>
                if String.eqb (Passenger.businessId p) (User._id user)
                then Ok (tt, archived pid (now e) st)
                else Err "Cannot archive another business's passenger"
            end
          else Err "Only businesses can perform this action"
      | None => Err "Only businesses can perform this action"
      end
  end.
Proof.
  unfold by_user, has_id, archived. unfold_handler. reduce_db.
  destruct (auth e) as [user|]; [|reflexivity]. simpl.
  destruct (find _ (members_tbl st)) as [m|]; [|reflexivity].
  destruct (Role_eqb (Member.role m) business); [|reflexivity]. simpl.
  destruct (find _ (passengers_tbl st)) as [p|] eqn:Hp; [|reflexivity].
  simpl. destruct (String.eqb _ _); [|reflexivity]. simpl.
  rewrite Hp. reflexivity.
Qed.

(** C4, as the code has it.  When [archive] of a passenger has returned,
    a second [archive] of it by the same caller returns too; it sets
    [archivedAt] to the clock of the second call and leaves the other
    fields of the row, and every other document, as they were. *)
Theorem archive_again_overwrites (st st1 : db) (e1 e2 : env) (pid : Id) :
  passengers.archive pid e1 st = Ok (tt, st1) ->
  auth e2 = auth e1 ->
  exists p,
    find (has_id passengers_t pid) (passengers_tbl st) = Some p
    /\ find (has_id passengers_t pid) (passengers_tbl st1)
       = Some (passengers.set_archivedAt (now e1) p)
    /\ passengers.archive pid e2 st1 = Ok (tt, archived pid (now e2) st1)
    /\ find (has_id passengers_t pid)
         (passengers_tbl (archived pid (now e2) st1))
       = Some (passengers.set_archivedAt (now e2) p).
Proof.
  intros H Hauth. rewrite archive_run in H.
  destruct (auth e1) as [user|] eqn:Ha; [|discriminate].
  destruct (find _ (members_tbl st)) as [m|] eqn:Hm; [|discriminate].
  destruct (Role_eqb (Member.role m) business) eqn:Hr; [|discriminate].
  destruct (find _ (passengers_tbl st)) as [p|] eqn:Hp; [|discriminate].
  destruct (String.eqb _ _) eqn:Hb; [|discriminate].
  injection H as <-. exists p.
  assert (Hp1 : find (has_id passengers_t pid)
                  (passengers_tbl (archived pid (now e1) st))
                = Some (passengers.set_archivedAt (now e1) p)).
  { exact (get_patch passengers_t pid (passengers.set_archivedAt (now e1))
             _ p (fun _ => eq_refl) Hp). }
  split; [reflexivity|]. split; [exact Hp1|]. split.
  - rewrite archive_run, Hauth, Hp1. simpl. rewrite Hm, Hr, Hb.
    reflexivity.
  - exact (get_patch passengers_t pid (passengers.set_archivedAt (now e2))
             _ _ (fun _ => eq_refl) Hp1).
Qed.

Lemma archive_again_overwrites_witness :
  exists p,
    find (has_id passengers_t 7) (passengers_tbl Scenario.s10) = Some p
    /\ find (has_id passengers_t 7) (passengers_tbl Scenario.s11)
       = Some (passengers.set_archivedAt 100%Z p)
    /\ passengers.archive 7 (Scenario.by_ Scenario.U2 200) Scenario.s11
       = Ok (tt, archived 7 200%Z Scenario.s11)
    /\ find (has_id passengers_t 7)
         (passengers_tbl (archived 7 200%Z Scenario.s11))
       = Some (passengers.set_archivedAt 200%Z p).
Proof.
  apply (archive_again_overwrites Scenario.s10 Scenario.s11
           (Scenario.by_ Scenario.U2 100)
           (Scenario.by_ Scenario.U2 200) 7).
  - vm_compute. reflexivity.
  - reflexivity.
Defined.

(** C4, the first value is not kept: Alice is archived at clock 100 and
    again at clock
    200; both calls return, and [archivedAt] moves from 100 to 200. *)
Lemma archive_twice_counterexample :
  passengers.archive 7 (Scenario.by_ Scenario.U2 100) Scenario.s10
  = Ok (tt, Scenario.s11)
  /\ passengers.archive 7 (Scenario.by_ Scenario.U2 200) Scenario.s11
     = Ok (tt, Scenario.s12)
  /\ find (has_id passengers_t 7) (passengers_tbl Scenario.s11)
     = Some (Scenario.alice (Some 100%Z))
  /\ find (has_id passengers_t 7) (passengers_tbl Scenario.s12)
     = Some (Scenario.alice (Some 200%Z))
  /\ Passenger.archivedAt (Scenario.alice (Some 200%Z))
     <> Passenger.archivedAt (Scenario.alice (Some 100%Z)).
Proof.
  repeat split; try (vm_compute; reflexivity). discriminate.
Qed.

(** ** Members *)

Lemma one_member_insert l m :
  one_member l -> find (by_user (Member.userId m)) l = None ->
  one_member (l ++ [m]).
Proof.
  intros H Hnone u. rewrite count_app. unfold count at 2. simpl.
  destruct (by_user u m) eqn:E; simpl.
  - unfold by_user in E. apply String.eqb_eq in E. subst u.
    rewrite (count_find_none _ _ Hnone). lia.
  - specialize (H u). lia.
Qed.

(** Every call other than [operators.create] keeps one Member row per
    user; [acceptInvite] looks the caller up before it inserts. *)
Lemma one_member_exec_other c e st :
  (forall n s, c <> operators_create n s) ->
  one_member (members_tbl st) -> one_member (members_tbl (exec c e st)).
Proof.
  intros Hc H. destruct c; try (now exfalso; eapply Hc).
  all: unfold exec; unfold_handler; follow; try assumption.
  - apply one_member_insert; [assumption|]. now apply is_some_false.
  - intros u. eapply Nat.le_trans; [apply count_filter_le | apply H].
Qed.

(** C3. On the code the invariant fails.  U3 has accepted an invite and
    is a driver of Acme (one Member row); [operators.create] checks the
    slug and the ownership of an operator, not the membership, so the
    call by U3 returns and inserts a second Member row for U3. *)
Theorem operators_create_second_member :
  reachable Scenario.s6
  /\ count (by_user "u3") (members_tbl Scenario.s6) = 1
  /\ operators.create "Beta" "beta" (Scenario.by_ Scenario.U3 30)
       Scenario.s6 = Ok (7, Scenario.s7')
  /\ count (by_user "u3") (members_tbl Scenario.s7') = 2
  /\ reachable Scenario.s7'.
Proof.
  split; [exact reachable_s6|].
  repeat split; try (vm_compute; reflexivity).
  apply reachable_exec; [exact reachable_s6 | reflexivity].
Qed.

(** ** Fresh ids *)

Section Fresh.
Context {row : Type} (T : table row).
Implicit Types (l : list row) (n m id : Id).

Lemma ids_fresh_mono n m l : ids_fresh T n l -> n <= m -> ids_fresh T m l.
Proof.
  intros [Hnd Hlt] Hle. split; [exact Hnd|].
  intros r Hr. specialize (Hlt r Hr). lia.
Qed.

Lemma ids_fresh_insert n m l r :
  ids_fresh T n l -> doc_id T r = m -> n <= m ->
  ids_fresh T (S m) (l ++ [r]).
Proof.
  intros [Hnd Hlt] Hr Hle. split.
  - rewrite map_app. simpl. apply NoDup_app; [exact Hnd | | ].
    + constructor; [intros [] | constructor].
    + intros x Hx [<- | []]. apply in_map_iff in Hx as (q & Hq & Hin).
      specialize (Hlt q Hin). lia.
  - intros q Hin. apply in_app_or in Hin as [Hin | [<- | []]].
    + specialize (Hlt q Hin). lia.
    + lia.
Qed.

Lemma ids_fresh_patch n l id f :
  ids_fresh T n l -> (forall r, doc_id T (f r) = doc_id T r) ->
  ids_fresh T n (patch_rows T id f l).
Proof.
  intros [Hnd Hlt] Hf.
  assert (Hid : forall r,
             doc_id T (if doc_id T r =? id then f r else r) = doc_id T r).
  { intros r. destruct (doc_id T r =? id); auto. }
  split.
  - unfold patch_rows. rewrite map_map.
    erewrite map_ext; [exact Hnd | exact Hid].
  - intros q Hin. unfold patch_rows in Hin.
    apply in_map_iff in Hin as (r & <- & Hin). rewrite Hid. auto.
Qed.

Lemma NoDup_map_filter (g : row -> bool) l :
  NoDup (map (doc_id T) l) -> NoDup (map (doc_id T) (filter g l)).
Proof.
  induction l as [|a l IH]; simpl; [auto|].
  intros H. inversion H as [|? ? Hnotin Hnd]; subst.
  destruct (g a); simpl; [|auto]. constructor; [|auto].
  intros Hin. apply Hnotin. apply in_map_iff in Hin as (r & Hr & Hin).
  apply filter_In in Hin as [Hin _]. rewrite <- Hr. now apply in_map.
Qed.

Lemma ids_fresh_filter n l (g : row -> bool) :
  ids_fresh T n l -> ids_fresh T n (filter g l).
Proof.
  intros [Hnd Hlt]. split; [now apply NoDup_map_filter|].
  intros r Hr. apply filter_In in Hr as [Hr _]. auto.
Qed.

(** No stored document has an id that is still to come. *)
Lemma fresh_find_none n m l :
  ids_fresh T n l -> n <= m -> find (has_id T m) l = None.
Proof.
  intros [_ Hlt] Hle. destruct (find (has_id T m) l) as [r|] eqn:E; [|auto].
  apply find_some in E as [Hin Hid]. unfold has_id in Hid.
  apply Nat.eqb_eq in Hid. specialize (Hlt r Hin). lia.
Qed.

(** [ctx.db.get] of the id of a stored document is that document. *)
Lemma fresh_get n l r :
  ids_fresh T n l -> In r l -> find (has_id T (doc_id T r)) l = Some r.
Proof.
  intros [Hnd _]. induction l as [|a l IH]; simpl; [intros []|].
  inversion Hnd as [|? ? Hnotin Hnd']; subst. unfold has_id at 1.
  intros [-> | Hin].
  - now rewrite Nat.eqb_refl.
  - destruct (doc_id T a =? doc_id T r) eqn:E.
    + apply Nat.eqb_eq in E. exfalso. apply Hnotin. rewrite E.
      now apply in_map.
    + auto.
Qed.

(** A stored document other than the one [ctx.db.get(id)] returns has
    another id. *)
Lemma fresh_other n l id x r :
  ids_fresh T n l -> find (has_id T id) l = Some x -> In r l -> r <> x ->
  doc_id T r <> id.
Proof.
  intros Hf Hx Hr Hne E. apply Hne.
  pose proof (fresh_get _ _ _ Hf Hr) as H. rewrite E in H. congruence.
Qed.

Lemma In_patch_other l id f r :
  In r l -> doc_id T r <> id -> In r (patch_rows T id f l).
Proof.
  intros Hin Hne. unfold patch_rows. apply in_map_iff. exists r.
  apply Nat.eqb_neq in Hne. now rewrite Hne.
Qed.

Lemma In_delete_other l id r :
  In r l -> doc_id T r <> id ->
  In r (filter (fun x => negb (doc_id T x =? id)) l).
Proof.
  intros Hin Hne. apply filter_In. split; [exact Hin|].
  apply Nat.eqb_neq in Hne. now rewrite Hne.
Qed.

(** [ctx.db.get] of another id is not affected by a patch. *)
Lemma get_patch_other l id id' f :
  (forall x, doc_id T (f x) = doc_id T x) -> id' <> id ->
  find (has_id T id') (patch_rows T id f l) = find (has_id T id') l.
Proof.
  intros Hf Hne. unfold patch_rows. rewrite find_map.
  - destruct (find (has_id T id') l) as [r|] eqn:E; [|reflexivity].
    simpl. apply find_some in E as [_ E]. unfold has_id in E.
    apply Nat.eqb_eq in E. rewrite E.
    apply Nat.eqb_neq in Hne. now rewrite Hne.
  - intros x. unfold has_id.
    destruct (doc_id T x =? id) eqn:E; [|reflexivity]. now rewrite Hf.
Qed.

(** [ctx.db.get] of another id is not affected by a delete. *)
Lemma get_delete_other l id id' :
  id' <> id ->
  find (has_id T id') (filter (fun x => negb (doc_id T x =? id)) l)
  = find (has_id T id') l.
Proof.
  intros Hne. induction l as [|a l IH]; simpl; [reflexivity|].
  destruct (doc_id T a =? id) eqn:E; simpl.
  - rewrite IH. unfold has_id at 2. apply Nat.eqb_eq in E. rewrite E.
    apply not_eq_sym, Nat.eqb_neq in Hne. now rewrite Hne.
  - unfold has_id at 1 3. destruct (doc_id T a =? id'); auto.
Qed.

(** After a delete, [ctx.db.get] of the deleted id finds nothing. *)
Lemma get_deleted l id :
  find (has_id T id) (filter (fun x => negb (doc_id T x =? id)) l) = None.
Proof.
  induction l as [|a l IH]; simpl; [reflexivity|].
  destruct (doc_id T a =? id) eqn:E; simpl; [exact IH|].
  unfold has_id at 1. now rewrite E.
Qed.

End Fresh.

Lemma negb_eqb_false a b : negb (a =? b) = false -> a = b.
Proof. intros H. apply negb_false_iff in H. now apply Nat.eqb_eq. Qed.

Lemma negb_string_eqb_false a b : negb (String.eqb a b) = false -> a = b.
Proof. intros H. apply negb_false_iff in H. now apply String.eqb_eq. Qed.

(** ** What every call keeps, continued *)

Lemma Wf_ids_exec c e st :
  Wf st ->
  ids_fresh operators_t (nextId (exec c e st)) (operators_tbl (exec c e st))
  /\ ids_fresh members_t (nextId (exec c e st)) (members_tbl (exec c e st))
  /\ ids_fresh routes_t (nextId (exec c e st)) (routes_tbl (exec c e st))
  /\ ids_fresh tripSessions_t (nextId (exec c e st))
       (tripSessions_tbl (exec c e st))
  /\ ids_fresh scans_t (nextId (exec c e st)) (scans_tbl (exec c e st))
  /\ ids_fresh invites_t (nextId (exec c e st)) (invites_tbl (exec c e st)).
Proof.
  intros [H1 H2 H3 H4 H5 H6 _ _ _ _ _ _ _ _ _ _ _ _ _].
  paths c; repeat match goal with |- _ /\ _ => split end.
  all: try assumption.
  all: try (apply ids_fresh_patch; [|reflexivity]).
  all: try (apply ids_fresh_filter).
  all: try assumption.
  all: try (eapply ids_fresh_insert; [eassumption | reflexivity | lia]).
  all: try (eapply ids_fresh_insert;
            [eapply ids_fresh_mono; [eassumption | lia] | reflexivity | lia]).
  all: try (eapply ids_fresh_mono; [eassumption | lia]).
  eapply ids_fresh_mono;
    [eapply ids_fresh_insert with (m := nextId st);
       [eassumption | reflexivity | lia] | lia].
Qed.

(** ** Operators *)

Lemma unique_insert {A} (f : string -> A -> bool) l x k :
  (forall u, count (f u) l <= 1) ->
  (forall u, f u x = true -> u = k) ->
  find (f k) l = None ->
  forall u, count (f u) (l ++ [x]) <= 1.
Proof.
  intros H Hk Hnone u. rewrite count_app. unfold count at 2. simpl.
  destruct (f u x) eqn:E; simpl.
  - apply Hk in E. subst u. rewrite (count_find_none _ _ Hnone). lia.
  - specialize (H u). lia.
Qed.

Lemma one_slug_owner_exec c e st :
  one_slug (operators_tbl st) /\ one_owner (operators_tbl st) ->
  one_slug (operators_tbl (exec c e st))
  /\ one_owner (operators_tbl (exec c e st)).
Proof.
  intros [H1 H2]. paths c; split; try assumption.
  - refine (unique_insert by_slug _ _ slug H1 _ _).
    + intros u Hu. unfold by_slug in Hu. simpl in Hu.
      apply String.eqb_eq in Hu. now subst.
    + now apply is_some_false.
  - refine (unique_insert by_owner _ _ (User._id t) H2 _ _).
    + intros u Hu. unfold by_owner in Hu. simpl in Hu.
      apply String.eqb_eq in Hu. now subst.
    + now apply is_some_false.
Qed.

Lemma operator_exists_insert ops o id :
  operator_exists ops id -> operator_exists (ops ++ [o]) id.
Proof. intros (x & H). exists x. now apply find_app_some. Qed.

Lemma operator_exists_new n ops o :
  ids_fresh operators_t n ops -> Operator._id o = n ->
  operator_exists (ops ++ [o]) n.
Proof.
  intros Hf Ho. exists o. rewrite find_app_none.
  - simpl. unfold has_id. simpl. rewrite Ho. now rewrite Nat.eqb_refl.
  - apply (fresh_find_none operators_t n n ops Hf). lia.
Qed.

Section Refs.
Context {row : Type} (T : table row) (operatorId : row -> Id).
Implicit Types (l : list row) (ops : list Operator.t).

Lemma refs_resolve_ops_insert ops o l :
  refs_resolve operatorId ops l -> refs_resolve operatorId (ops ++ [o]) l.
Proof. intros H r Hr. apply operator_exists_insert. auto. Qed.

Lemma refs_resolve_insert ops l r :
  refs_resolve operatorId ops l -> operator_exists ops (operatorId r) ->
  refs_resolve operatorId ops (l ++ [r]).
Proof.
  intros H Hr x Hx. apply in_app_or in Hx as [Hx | [<- | []]]; auto.
Qed.

Lemma refs_resolve_patch ops l id f :
  refs_resolve operatorId ops l ->
  (forall r, operatorId (f r) = operatorId r) ->
  refs_resolve operatorId ops (patch_rows T id f l).
Proof.
  intros H Hf x Hx. unfold patch_rows in Hx.
  apply in_map_iff in Hx as (r & <- & Hr).
  destruct (doc_id T r =? id); [rewrite Hf|]; auto.
Qed.

Lemma refs_resolve_filter ops l (g : row -> bool) :
  refs_resolve operatorId ops l -> refs_resolve operatorId ops (filter g l).
Proof. intros H x Hx. apply filter_In in Hx as [Hx _]. auto. Qed.

End Refs.

Lemma Wf_refs_exec c e st :
  Wf st ->
  refs_resolve Member.operatorId (operators_tbl (exec c e st))
    (members_tbl (exec c e st))
  /\ refs_resolve Invite.operatorId (operators_tbl (exec c e st))
       (invites_tbl (exec c e st))
  /\ refs_resolve Route.operatorId (operators_tbl (exec c e st))
       (routes_tbl (exec c e st))
  /\ refs_resolve Passenger.operatorId (operators_tbl (exec c e st))
       (passengers_tbl (exec c e st))
  /\ refs_resolve TripSession.operatorId (operators_tbl (exec c e st))
       (tripSessions_tbl (exec c e st))
  /\ refs_resolve Scan.operatorId (operators_tbl (exec c e st))
       (scans_tbl (exec c e st)).
Proof.
  intros W. destruct W as [H1 _ _ _ _ _ _ _ _ Hm Hi Hr Hp Ht Hs _ _ _ _].
  paths c; conjs.
  all: try assumption.
  all: try (apply refs_resolve_ops_insert; assumption).
  all: try (apply (refs_resolve_patch invites_t); [|reflexivity]).
  all: try (apply (refs_resolve_patch routes_t); [assumption|reflexivity]).
  all: try (apply (refs_resolve_patch passengers_t);
            [assumption|reflexivity]).
  all: try (apply (refs_resolve_patch tripSessions_t);
            [assumption|reflexivity]).
  all: try (apply refs_resolve_filter; assumption).
  all: try assumption.
  all: apply refs_resolve_insert; try assumption.
  - apply refs_resolve_ops_insert; assumption.
  - apply (operator_exists_new (nextId st)); [assumption | reflexivity].
  - eexists; eassumption.
  - match goal with
    | H : find _ (invites_tbl st) = Some _ |- _ =>
        apply find_some in H as [H _]; exact (Hi _ H)
    end.
  - match goal with
    | H : negb (_ =? _) = false |- _ =>
        apply negb_eqb_false in H; simpl; rewrite <- H
    end.
    match goal with
    | H : find _ (members_tbl st) = Some _ |- _ =>
        apply find_some in H as [H _]; exact (Hm _ H)
    end.
  - eexists; eassumption.
  - match goal with
    | H : find _ (members_tbl st) = Some _ |- _ =>
        apply find_some in H as [H _]; exact (Hm _ H)
    end.
  - match goal with
    | H : find _ (members_tbl st) = Some _ |- _ =>
        apply find_some in H as [H _]; exact (Hm _ H)
    end.
Qed.

(** ** Members and their operators *)

Lemma founders_exec c e st :
  Wf st -> founders (operators_tbl (exec c e st)) (members_tbl (exec c e st)).
Proof.
  intros W. pose proof (wf_founders _ W) as F.
  pose proof (wf_members _ W) as Hm.
  paths c; try assumption.
  - intros o Ho. apply in_app_or in Ho as [Ho | [<- | []]].
    + destruct (F o Ho) as (m & Hin & Hm1 & Hm2 & Hm3).
      exists m. auto using in_or_app.
    + eexists. split; [apply in_or_app; right; left; reflexivity|].
      simpl. auto.
  - intros o Ho. destruct (F o Ho) as (m & Hin & Hm1 & Hm2 & Hm3).
    exists m. auto using in_or_app.
  - intros o Ho. destruct (F o Ho) as (m & Hin & Hm1 & Hm2 & Hm3).
    exists m. split; [|auto].
    apply (In_delete_other members_t); [exact Hin|].
    match goal with
    | H : find _ (members_tbl st) = Some ?x,
      R : Role_eqb (Member.role ?x) operator = false |- _ =>
        apply (fresh_other members_t _ _ _ x m Hm H Hin);
        intros ->; rewrite Hm3 in R; discriminate
    end.
Qed.

(** ** Scans, trips and invites *)

Lemma get_patch_some {row} (T : table row) id id' f l r :
  (forall x, doc_id T (f x) = doc_id T x) ->
  find (has_id T id') l = Some r ->
  find (has_id T id') (patch_rows T id f l)
  = Some (if doc_id T r =? id then f r else r).
Proof.
  intros Hf H. unfold patch_rows. rewrite find_map.
  - now rewrite H.
  - intros x. unfold has_id.
    destruct (doc_id T x =? id) eqn:E; [|reflexivity]. now rewrite Hf.
Qed.

Lemma fresh_inj {row} (T : table row) n l r x :
  ids_fresh T n l -> In r l -> In x l -> doc_id T r = doc_id T x -> r = x.
Proof.
  intros Hf Hr Hx E.
  pose proof (fresh_get T _ _ _ Hf Hr) as G1.
  pose proof (fresh_get T _ _ _ Hf Hx) as G2.
  rewrite E in G1. congruence.
Qed.

Lemma scans_linked_exec c e st :
  Inv st -> Wf st ->
  scans_linked (tripSessions_tbl (exec c e st)) (passengers_tbl (exec c e st))
    (scans_tbl (exec c e st)).
Proof.
  intros I W. pose proof (wf_linked _ W) as L.
  pose proof (inv_ids _ I) as Hp.
  paths c; try assumption.
  - (* passengers.create *)
    intros s Hs. destruct (L s Hs) as [Ht (p & Hg & Ho)].
    split; [exact Ht|]. exists p. split; [|exact Ho].
    now apply find_app_some.
  - (* passengers.update *)
    intros s Hs. destruct (L s Hs) as [Ht (p & Hg & Ho)].
    split; [exact Ht|]. eexists. split.
    + apply (get_patch_some passengers_t); [reflexivity | exact Hg].
    + simpl. destruct (Passenger._id p =? passengerId); exact Ho.
  - (* passengers.archive *)
    intros s Hs. destruct (L s Hs) as [Ht (p & Hg & Ho)].
    split; [exact Ht|]. eexists. split.
    + apply (get_patch_some passengers_t); [reflexivity | exact Hg].
    + simpl. destruct (Passenger._id p =? passengerId); exact Ho.
  - (* trips.startTrip *)
    intros s Hs. destruct (L s Hs) as [(trip & Hg & Hd) Hp'].
    split; [|exact Hp']. exists trip. split; [|exact Hd].
    now apply find_app_some.
  - (* trips.endTrip *)
    intros s Hs. destruct (L s Hs) as [(trip & Hg & Hd) Hp'].
    split; [|exact Hp']. eexists. split.
    + apply (get_patch_some tripSessions_t); [reflexivity | exact Hg].
    + simpl. destruct (TripSession._id trip =? tripSessionId); exact Hd.
  - (* trips.scanPassenger *)
    intros s Hs. apply in_app_or in Hs as [Hs | [<- | []]]; [auto|].
    simpl. split.
    + eexists. split; [eassumption|].
      match goal with
      | H : negb (String.eqb (TripSession.driverId _) _) = false |- _ =>
          now apply negb_string_eqb_false in H
      end.
    + match goal with
      | H : find _ (passengers_tbl st) = Some ?p |- _ =>
          exists p; apply find_some in H as [H _]; split;
          [exact (get_of_In _ _ _ Hp H)|]
      end.
      match goal with
      | H : negb (Passenger.operatorId _ =? _) = false |- _ =>
          now apply negb_eqb_false in H
      end.
Qed.

Lemma coherent_exec c e st :
  (0 < now e)%Z -> Wf st ->
  (forall t, In t (tripSessions_tbl (exec c e st)) -> trip_coherent t)
  /\ (forall i, In i (invites_tbl (exec c e st)) -> invite_coherent i).
Proof.
  intros Hnow W. pose proof (wf_trip_coherent _ W) as Ht.
  pose proof (wf_invite_coherent _ W) as Hi.
  pose proof (wf_invites _ W) as Hf.
  paths c; split; try assumption.
  - (* members.createInvite *)
    intros i Hin. apply in_app_or in Hin as [Hin | [<- | []]]; [auto|].
    split; simpl; [lia | discriminate].
  - (* members.acceptInvite *)
    intros i Hin. unfold patch_rows in Hin.
    apply in_map_iff in Hin as (r & <- & Hin). simpl.
    destruct (Invite._id r =? Invite._id _) eqn:E; [|auto].
    apply Nat.eqb_eq in E.
    match goal with
    | H : find _ (invites_tbl st) = Some ?x |- _ =>
        pose proof (find_some _ _ H) as [Hx _];
        pose proof (fresh_inj invites_t _ _ _ _ Hf Hin Hx E) as ->
    end.
    destruct (Hi _ Hin) as [H1 _]. split; [exact H1|].
    simpl. intros a [= <-].
    match goal with
    | H : (_ <? _)%Z = false |- _ => apply Z.ltb_ge in H; exact H
    end.
  - (* members.deleteInvite *)
    intros i Hin. apply filter_In in Hin as [Hin _]. auto.
  - (* trips.startTrip *)
    intros x Hin. apply in_app_or in Hin as [Hin | [<- | []]]; [auto|].
    reflexivity.
  - (* trips.endTrip *)
    intros x Hin. unfold patch_rows in Hin.
    apply in_map_iff in Hin as (r & <- & Hin). simpl.
    destruct (TripSession._id r =? tripSessionId); [|auto].
    unfold trip_coherent. simpl. eauto.
Qed.

Lemma trip_routes_mono n m rs l :
  trip_routes_ok n rs l -> n <= m -> trip_routes_ok m rs l.
Proof.
  intros H Hle t Ht. destruct (H t Ht) as [H1 H2]. split; [lia | exact H2].
Qed.

Lemma trip_routes_exec c e st :
  Wf st ->
  trip_routes_ok (nextId (exec c e st)) (routes_tbl (exec c e st))
    (tripSessions_tbl (exec c e st)).
Proof.
  intros W. pose proof (wf_trip_routes _ W) as R.
  pose proof (wf_routes _ W) as Hf.
  paths c; try assumption.
  all: try (eapply trip_routes_mono; [eassumption | lia]).
  - (* routes.create *)
    intros x Hx. destruct (R x Hx) as [H1 H2]. split; [lia|].
    intros r Hr.
    destruct (find (has_id routes_t (TripSession.routeId x)) (routes_tbl st))
      as [r0|] eqn:E.
    + rewrite (find_app_some _ _ _ _ E) in Hr. injection Hr as <-. auto.
    + rewrite (find_app_none _ _ _ E) in Hr. simpl in Hr.
      unfold has_id in Hr. simpl in Hr.
      destruct (nextId st =? TripSession.routeId x) eqn:E'; [|discriminate].
      apply Nat.eqb_eq in E'. lia.
  - (* routes.update *)
    intros x Hx. destruct (R x Hx) as [H1 H2]. split; [exact H1|].
    intros r Hr.
    destruct (find (has_id routes_t (TripSession.routeId x)) (routes_tbl st))
      as [r0|] eqn:E.
    + rewrite (get_patch_some routes_t routeId _
                 (routes.filteredUpdates name description isActive) _ r0
                 (fun _ => eq_refl) E) in Hr.
      injection Hr as <-. specialize (H2 _ eq_refl).
      simpl. destruct (Route._id r0 =? routeId); exact H2.
    + unfold patch_rows in Hr. rewrite find_map in Hr.
      * rewrite E in Hr. discriminate.
      * intros y. unfold has_id. simpl.
        destruct (Route._id y =? routeId); reflexivity.
  - (* routes.remove *)
    intros x Hx. destruct (R x Hx) as [H1 H2]. split; [exact H1|].
    intros r Hr. apply H2.
    destruct (Nat.eq_dec (TripSession.routeId x) routeId) as [E | E].
    + rewrite E in Hr.
      pose proof (eq_trans (eq_sym Hr)
                    (get_deleted routes_t (routes_tbl st) routeId)).
      discriminate.
    + exact (eq_trans (eq_sym (get_delete_other routes_t _ _ _ E)) Hr).
  - (* trips.startTrip *)
    intros x Hx. apply in_app_or in Hx as [Hx | [<- | []]].
    + destruct (R x Hx) as [H1 H2]. split; [lia | exact H2].
    + simpl.
      match goal with
      | H : find _ (routes_tbl st) = Some ?r0,
        O : negb (Route.operatorId ?r0 =? _) = false |- _ =>
          pose proof (find_some _ _ H) as [Hin Hid];
          apply Nat.eqb_eq in Hid; apply negb_eqb_false in O;
          split; [destruct Hf as [_ Hlt]; specialize (Hlt _ Hin);
                  simpl in Hlt; lia|];
          intros r Hr; unfold has_id in Hr; simpl in Hr;
          rewrite H in Hr; injection Hr as <-; exact O
      end.
  - (* trips.endTrip *)
    intros x Hx. unfold patch_rows in Hx.
    apply in_map_iff in Hx as (y & <- & Hy). destruct (R y Hy) as [H1 H2].
    simpl. destruct (TripSession._id y =? tripSessionId); auto.
Qed.

Lemma Wf_exec c e st : Inv st -> Wf st -> (0 < now e)%Z -> Wf (exec c e st).
Proof.
  intros I W Hnow.
  destruct (Wf_ids_exec c e st W) as (A1 & A2 & A3 & A4 & A5 & A6).
  destruct (one_slug_owner_exec c e st (conj (wf_slug _ W) (wf_owner _ W)))
    as (B1 & B2).
  destruct (Wf_refs_exec c e st W) as (C1 & C2 & C3 & C4 & C5 & C6).
  destruct (coherent_exec c e st Hnow W) as (D1 & D2).
  split; try assumption.
  - now apply founders_exec.
  - now apply scans_linked_exec.
  - now apply trip_routes_exec.
Qed.

Lemma Wf_empty : Wf empty_db.
Proof.
  split; simpl;
    try (split; [constructor | intros r []]);
    try (intros x; unfold count; simpl; lia);
    try (intros x []).
Qed.

Lemma reachable_Wf st : reachable st -> Wf st.
Proof.
  induction 1 as [|st c e Hr IH Hnow]; [apply Wf_empty|].
  apply Wf_exec; auto using reachable_Inv.
Qed.

(** ** Operators and members: what holds of every reachable state *)

(** X1. In every reachable state no two operators share a slug and no
    user owns two operators; [operators.create] throws "Slug already
    taken" when an operator bears the slug, and "You already own an
    operator" when the slug is free and the caller owns an operator. *)
Theorem operators_create_unique (st : db) :
  reachable st ->
  (forall s, count (by_slug s) (operators_tbl st) <= 1)
  /\ (forall u, count (by_owner u) (operators_tbl st) <= 1)
  /\ (forall e user name slug o,
        auth e = Some user -> In o (operators_tbl st) ->
        (Operator.slug o = slug ->
         operators.create name slug e st = Err "Slug already taken")
        /\ (Operator.ownerId o = User._id user ->
            find (by_slug slug) (operators_tbl st) = None ->
            operators.create name slug e st
            = Err "You already own an operator")).
Proof.
  intros Hr. pose proof (reachable_Wf _ Hr) as W.
  split; [exact (wf_slug _ W)|]. split; [exact (wf_owner _ W)|].
  intros e user name slug o Ha Ho. split.
  - intros Hs.
    destruct (find_of_In (by_slug slug) _ o Ho) as (y & Hy).
    { unfold by_slug. rewrite Hs. apply String.eqb_refl. }
    unfold by_slug in Hy. unfold_handler. reduce_db.
    rewrite Ha. simpl. rewrite Hy. reflexivity.
  - intros Hown Hfree.
    destruct (find_of_In (by_owner (User._id user)) _ o Ho) as (y & Hy).
    { unfold by_owner. rewrite Hown. apply String.eqb_refl. }
    unfold by_owner in Hy. unfold by_slug in Hfree.
    unfold_handler. reduce_db.
    rewrite Ha. simpl. rewrite Hfree. simpl. rewrite Hy. reflexivity.
Qed.

Lemma operators_create_unique_witness :
  count (by_slug "acme") (operators_tbl Scenario.s13) <= 1
  /\ operators.create "Other" "acme" (Scenario.by_ Scenario.U2 400)
       Scenario.s13 = Err "Slug already taken"
  /\ operators.create "Other" "other" (Scenario.by_ Scenario.U1 400)
       Scenario.s13 = Err "You already own an operator".
Proof.
  destruct (operators_create_unique _ reachable_s13) as (H1 & _ & H3).
  split; [apply H1|]. split.
  - apply (proj1 (H3 (Scenario.by_ Scenario.U2 400) Scenario.U2 "Other"
                    "acme" Scenario.acme eq_refl
                    ltac:(vm_compute; left; reflexivity))).
    reflexivity.
  - apply (proj2 (H3 (Scenario.by_ Scenario.U1 400) Scenario.U1 "Other"
                    "other" Scenario.acme eq_refl
                    ltac:(vm_compute; left; reflexivity))).
    + reflexivity.
    + vm_compute. reflexivity.
Defined.

(** X2. In every reachable state every operator has the Member row of
    its owner, with role operator: [operators.create] writes both in one
    transaction and [removeMember] refuses to delete it. *)
Theorem operator_has_founding_member (st : db) (o : Operator.t) :
  reachable st -> In o (operators_tbl st) ->
  exists m,
    In m (members_tbl st)
    /\ Member.operatorId m = Operator._id o
    /\ Member.userId m = Operator.ownerId o
    /\ Member.role m = operator.
Proof.
  intros Hr Ho. exact (wf_founders _ (reachable_Wf _ Hr) o Ho).
Qed.

Lemma operator_has_founding_member_witness :
  exists m,
    In m (members_tbl Scenario.s13)
    /\ Member.operatorId m = 0
    /\ Member.userId m = "u1"
    /\ Member.role m = operator.
Proof.
  apply (operator_has_founding_member Scenario.s13 Scenario.acme
           reachable_s13).
  vm_compute. left. reflexivity.
Defined.

(** [getMyMembership] and [getMine], path by path. *)
Lemma getMyMembership_run e st :
  operators.getMyMembership e st =
  Ok (match auth e with
      | None => None
      | Some user =>
          match find (by_user (User._id user)) (members_tbl st) with
          | None => None
          | Some m =>
              Some (MyMembership.mk m
                      (find (has_id operators_t (Member.operatorId m))
                         (operators_tbl st)) user)
          end
      end, st).
Proof.
  unfold_query. reduce_db. destruct (auth e); [|reflexivity]. simpl.
  unfold by_user. destruct (find _ (members_tbl st)); reflexivity.
Qed.

Lemma getMine_run e st :
  operators.getMine e st =
  Ok (match auth e with
      | None => None
      | Some user =>
          match find (by_user (User._id user)) (members_tbl st) with
          | None => None
          | Some m =>
              match find (has_id operators_t (Member.operatorId m))
                      (operators_tbl st) with
              | Some o => Some (o, Member.role m)
              | None => None
              end
          end
      end, st).
Proof.
  unfold_query. reduce_db. destruct (auth e); [|reflexivity]. simpl.
  unfold by_user. destruct (find _ (members_tbl st)); reflexivity.
Qed.

(** X3. In a reachable state the operator of a membership is always
    stored: for a caller with a Member row, [getMyMembership] returns the
    row with a non-null operator, and [getMine] returns that operator with
    the caller's role; both return null, and never throw, for a caller
    without identity or without Member row. *)
Theorem getMyMembership_resolves (st : db) (e : env) :
  reachable st ->
  (forall user m,
     auth e = Some user ->
     find (by_user (User._id user)) (members_tbl st) = Some m ->
     exists o,
       Operator._id o = Member.operatorId m
       /\ In o (operators_tbl st)
       /\ operators.getMyMembership e st
          = Ok (Some (MyMembership.mk m (Some o) user), st)
       /\ operators.getMine e st = Ok (Some (o, Member.role m), st))
  /\ ((auth e = None
       \/ exists user, auth e = Some user
            /\ find (by_user (User._id user)) (members_tbl st) = None) ->
      operators.getMyMembership e st = Ok (None, st)
      /\ operators.getMine e st = Ok (None, st)).
Proof.
  intros Hr. pose proof (reachable_Wf _ Hr) as W. split.
  - intros user m Ha Hm. pose proof (find_some _ _ Hm) as [Hin _].
    destruct (wf_member_op _ W m Hin) as (o & Ho).
    exists o. pose proof (find_some _ _ Ho) as [Hino Hid].
    unfold has_id in Hid. apply Nat.eqb_eq in Hid.
    rewrite getMyMembership_run, getMine_run, Ha, Hm, Ho. auto.
  - rewrite getMyMembership_run, getMine_run.
    intros [-> | (user & -> & ->)]; auto.
Qed.

Lemma getMyMembership_resolves_witness :
  exists o,
    Operator._id o = 0
    /\ In o (operators_tbl Scenario.s13)
    /\ operators.getMyMembership (Scenario.by_ Scenario.U3 400) Scenario.s13
       = Ok (Some (MyMembership.mk Scenario.member_U3 (Some o) Scenario.U3),
             Scenario.s13)
    /\ operators.getMine (Scenario.by_ Scenario.U3 400) Scenario.s13
       = Ok (Some (o, driver), Scenario.s13).
Proof.
  apply (proj1 (getMyMembership_resolves Scenario.s13
                  (Scenario.by_ Scenario.U3 400) reachable_s13)
           Scenario.U3 Scenario.member_U3).
  - reflexivity.
  - vm_compute. reflexivity.
Defined.

(** X4. A Member row leaves the table only through [removeMember], called
    with its id by a member with role operator of the same operator, and
    never when its own role is operator; no call rewrites a Member row. *)
Theorem member_removed_only_by_operator (st : db) (c : call) (e : env)
    (m : Member.t) :
  reachable st -> In m (members_tbl st) ->
  ~ In m (members_tbl (exec c e st)) ->
  c = members_removeMember (Member._id m)
  /\ Member.role m <> operator
  /\ exists user mc,
       auth e = Some user
       /\ find (by_user (User._id user)) (members_tbl st) = Some mc
       /\ Member.role mc = operator
       /\ Member.operatorId mc = Member.operatorId m.
Proof.
  intros Hr Hin Hout. pose proof (wf_members _ (reachable_Wf _ Hr)) as Hf.
  revert Hout. paths c; intros Hout;
    try (exfalso; apply Hout; auto using in_or_app; fail).
  destruct (Nat.eq_dec (Member._id m) memberId) as [E | E].
  - match goal with
    | H : find (fun r => Member._id r =? memberId) _ = Some ?x |- _ =>
        pose proof (find_some _ _ H) as [Hx Hid];
        apply Nat.eqb_eq in Hid;
        assert (m = x) as <-
          by (apply (fresh_inj members_t _ _ _ _ Hf Hin Hx); simpl; lia)
    end.
    subst memberId. split; [reflexivity|]. split.
    + intros R.
      match goal with
      | H : Role_eqb (Member.role m) operator = false |- _ =>
          rewrite R in H; discriminate
      end.
    + do 2 eexists. split; [reflexivity|]. split; [eassumption|].
      split.
      * match goal with
        | H : Role_eqb (Member.role ?x) operator = true |- _ =>
            destruct (Member.role x); try discriminate; reflexivity
        end.
      * match goal with
        | H : negb (_ =? _) = false |- _ =>
            apply negb_eqb_false in H; now rewrite H
        end.
  - exfalso. apply Hout. now apply (In_delete_other members_t).
Qed.

Lemma member_removed_only_by_operator_witness :
  members_removeMember 6 = members_removeMember 6
  /\ driver <> operator
  /\ exists user mc,
       auth (Scenario.by_ Scenario.U1 400) = Some user
       /\ find (by_user (User._id user)) (members_tbl Scenario.s13) = Some mc
       /\ Member.role mc = operator
       /\ Member.operatorId mc = 0.
Proof.
  apply (member_removed_only_by_operator Scenario.s13
           (members_removeMember 6) (Scenario.by_ Scenario.U1 400)
           Scenario.member_U3 reachable_s13).
  - vm_compute. auto.
  - vm_compute. intros [H | [H | []]]; discriminate.
Defined.

(** ** Invites *)

Lemma getInviteByToken_run tok e st :
  members.getInviteByToken tok e st =
  Ok (match find (by_token tok) (invites_tbl st) with
      | None => None
      | Some inv =>
          if truthy (Invite.usedAt inv) then None
          else if (Invite.expiresAt inv <? now e)%Z then None
          else Some (InviteView.mk inv
                       (find (has_id operators_t (Invite.operatorId inv))
                          (operators_tbl st)))
      end, st).
Proof.
  unfold_query. reduce_db. unfold by_token.
  destruct (find _ (invites_tbl st)) as [inv|]; [|reflexivity]. simpl.
  destruct (truthy _); [reflexivity|]. simpl.
  destruct (_ <? _)%Z; reflexivity.
Qed.

(** X5. When [createInvite] returns [{ inviteId, token }], the token
    being borne by no older invite: the invite is stored unused, expiring
    seven days after now, the invite e-mail is scheduled with the token
    and the operator's name, and [getInviteByToken] returns the invite
    with its operator up to and including the expiry instant, and null
    after it. *)
Theorem createInvite_then_getInviteByToken (st st' : db) (e : env)
    (op : Id) (email : string) (role : InviteRole) (id : Id)
    (tok : string) :
  members.createInvite op email role e st = Ok ((id, tok), st') ->
  find (by_token tok) (invites_tbl st) = None ->
  let inv :=
    Invite.mk id op email role tok (now e) (now e + 604800000)%Z None in
  tok = nano e 32
  /\ invites_tbl st' = (invites_tbl st ++ [inv])%list
  /\ exists o,
       Operator._id o = op
       /\ scheduled st'
          = (scheduled st
             ++ [sendInviteEmail email (Operator.name o) role tok])%list
       /\ (forall e', (now e' <= now e + 604800000)%Z ->
             members.getInviteByToken tok e' st'
             = Ok (Some (InviteView.mk inv (Some o)), st'))
       /\ (forall e', (now e + 604800000 < now e')%Z ->
             members.getInviteByToken tok e' st' = Ok (None, st')).
Proof.
  intros H Hfresh inv. revert H. unfold_handler. follow; tidy;
    try discriminate.
  intros [= Hid Htok Hst]. subst id tok.
  match goal with
  | H : find _ (operators_tbl st) = Some ?o |- _ =>
      pose proof (find_some _ _ H) as [_ Ho]; apply Nat.eqb_eq in Ho;
      rename H into Hop; rename o into found
  end.
  assert (Hinv : invites_tbl st' = (invites_tbl st ++ [inv])%list)
    by (rewrite <- Hst; reflexivity).
  assert (Hops : operators_tbl st' = operators_tbl st)
    by (rewrite <- Hst; reflexivity).
  assert (Hfind : find (by_token (nano e 32)) (invites_tbl st') = Some inv).
  { rewrite Hinv, (find_app_none _ _ _ Hfresh). simpl.
    unfold by_token. simpl. now rewrite String.eqb_refl. }
  split; [reflexivity|]. split; [exact Hinv|].
  exists found. split; [exact Ho|]. split; [rewrite <- Hst; reflexivity|].
  split; intros e' He'; rewrite getInviteByToken_run, Hfind; simpl.
  - apply Z.ltb_ge in He'. rewrite He', Hops.
    unfold has_id. simpl. now rewrite Hop.
  - apply Z.ltb_lt in He'. now rewrite He'.
Qed.

Lemma createInvite_then_getInviteByToken_witness :
  "tokB" = "tokB"
  /\ invites_tbl Scenario.s3
     = (invites_tbl Scenario.s2 ++ [Scenario.inviteB None])%list
  /\ exists o,
       Operator._id o = 0
       /\ scheduled Scenario.s3
          = (scheduled Scenario.s2
             ++ [sendInviteEmail "u2@x.com" (Operator.name o)
                   invite_business "tokB"])%list
       /\ (forall e', (now e' <= 12 + 604800000)%Z ->
             members.getInviteByToken "tokB" e' Scenario.s3
             = Ok (Some (InviteView.mk (Scenario.inviteB None) (Some o)),
                   Scenario.s3))
       /\ (forall e', (12 + 604800000 < now e')%Z ->
             members.getInviteByToken "tokB" e' Scenario.s3
             = Ok (None, Scenario.s3)).
Proof.
  apply (createInvite_then_getInviteByToken Scenario.s2 Scenario.s3
           (Scenario.by_rnd Scenario.U1 12 "tokB") 0 "u2@x.com"
           invite_business 3 "tokB").
  - vm_compute. reflexivity.
  - vm_compute. reflexivity.
Defined.

(** X6. [getInviteByToken] never throws, and for an authenticated caller
    without Member row it returns an invite exactly when [acceptInvite]
    with the same token, at the same instant, would succeed. *)
Theorem getInviteByToken_iff_acceptInvite (st : db) (e : env)
    (tok : string) (user : User.t) :
  auth e = Some user ->
  find (by_user (User._id user)) (members_tbl st) = None ->
  (exists v, members.getInviteByToken tok e st = Ok (v, st))
  /\ ((exists v, members.getInviteByToken tok e st = Ok (Some v, st))
      <-> (exists r st', members.acceptInvite tok e st = Ok (r, st'))).
Proof.
  intros Ha Hm. rewrite getInviteByToken_run, acceptInvite_run, Ha, Hm.
  split; [eauto|].
  destruct (find _ (invites_tbl st)) as [inv|].
  - destruct (truthy _).
    + split; intros (x & H); [discriminate | destruct H; discriminate].
    + destruct (_ <? _)%Z.
      * split; intros (x & H); [discriminate | destruct H; discriminate].
      * split; eauto.
  - split; intros (x & H); [discriminate | destruct H; discriminate].
Qed.

Lemma getInviteByToken_iff_acceptInvite_witness :
  (exists v,
     members.getInviteByToken "tokD" (Scenario.by_ Scenario.U3 15)
       Scenario.s5 = Ok (v, Scenario.s5))
  /\ ((exists v,
         members.getInviteByToken "tokD" (Scenario.by_ Scenario.U3 15)
           Scenario.s5 = Ok (Some v, Scenario.s5))
      <-> (exists r st',
             members.acceptInvite "tokD" (Scenario.by_ Scenario.U3 15)
               Scenario.s5 = Ok (r, st'))).
Proof.
  apply (getInviteByToken_iff_acceptInvite Scenario.s5
           (Scenario.by_ Scenario.U3 15) "tokD" Scenario.U3).
  - reflexivity.
  - vm_compute. reflexivity.
Defined.

(** X7. In every reachable state an invite expires seven days
    (604800000 ms) after its creation, and a used invite was used at a
    positive instant not later than its expiry. *)
Theorem invite_expiry_coherent (st : db) (i : Invite.t) :
  reachable st -> In i (invites_tbl st) ->
  Invite.expiresAt i = (Invite.createdAt i + 604800000)%Z
  /\ forall a, Invite.usedAt i = Some a ->
               (0 < a <= Invite.expiresAt i)%Z.
Proof.
  intros Hr Hin.
  destruct (wf_invite_coherent _ (reachable_Wf _ Hr) i Hin) as [H1 H2].
  split; [exact H1|]. intros a Ha. split; [|auto].
  exact (inv_used _ (reachable_Inv _ Hr) i a Hin Ha).
Qed.

Lemma invite_expiry_coherent_witness :
  604800012%Z = (12 + 604800000)%Z
  /\ forall a, Some 14%Z = Some a -> (0 < a <= 604800012)%Z.
Proof.
  apply (invite_expiry_coherent Scenario.s13 (Scenario.inviteB (Some 14%Z))
           reachable_s13).
  vm_compute. left. reflexivity.
Defined.

(** X8. When [acceptInvite] returns for a caller, the caller's identity
    resolves (through the [by_user] index) to exactly one Member row: the
    new one, with the operator and the role of the invite and the caller's
    e-mail; and the returned id is the invite's operator. *)
Theorem acceptInvite_makes_member (st st' : db) (e : env) (tok : string)
    (user : User.t) (r : Id) :
  auth e = Some user ->
  members.acceptInvite tok e st = Ok (r, st') ->
  exists inv,
    find (by_token tok) (invites_tbl st) = Some inv
    /\ r = Invite.operatorId inv
    /\ find (by_user (User._id user)) (members_tbl st')
       = Some (new_member st e user inv)
    /\ count (by_user (User._id user)) (members_tbl st') = 1
    /\ Member.role (new_member st e user inv)
       = role_of_invite (Invite.role inv)
    /\ Member.operatorId (new_member st e user inv) = Invite.operatorId inv
    /\ Member.email (new_member st e user inv) = User.email user.
Proof.
  intros Ha H. rewrite acceptInvite_run, Ha in H.
  destruct (find _ (invites_tbl st)) as [inv|]; [|discriminate].
  destruct (truthy _); [discriminate|].
  destruct (_ <? _)%Z; [discriminate|].
  destruct (find _ (members_tbl st)) eqn:Hm; [discriminate|].
  injection H as <- <-. exists inv. split; [reflexivity|].
  split; [reflexivity|]. unfold accepted. simpl. split; [|split].
  - rewrite (find_app_none _ _ _ Hm). simpl. unfold by_user. simpl.
    now rewrite String.eqb_refl.
  - rewrite count_app, (count_find_none _ _ Hm). unfold count. simpl.
    unfold by_user. simpl. now rewrite String.eqb_refl.
  - auto.
Qed.

Lemma acceptInvite_makes_member_witness :
  exists inv,
    find (by_token "tokD") (invites_tbl Scenario.s5) = Some inv
    /\ 0 = Invite.operatorId inv
    /\ find (by_user "u3") (members_tbl Scenario.s6)
       = Some (new_member Scenario.s5 (Scenario.by_ Scenario.U3 15)
                 Scenario.U3 inv)
    /\ count (by_user "u3") (members_tbl Scenario.s6) = 1
    /\ Member.role (new_member Scenario.s5 (Scenario.by_ Scenario.U3 15)
                      Scenario.U3 inv)
       = role_of_invite (Invite.role inv)
    /\ Member.operatorId (new_member Scenario.s5
                            (Scenario.by_ Scenario.U3 15) Scenario.U3 inv)
       = Invite.operatorId inv
    /\ Member.email (new_member Scenario.s5 (Scenario.by_ Scenario.U3 15)
                       Scenario.U3 inv)
       = "u3@x.com".
Proof.
  apply (acceptInvite_makes_member Scenario.s5 Scenario.s6
           (Scenario.by_ Scenario.U3 15) "tokD" Scenario.U3 0).
  - reflexivity.
  - vm_compute. reflexivity.
Defined.

(** X9. [members.list] returns only to a caller who has a Member row in
    the operator asked for, and [listInvites] only to a caller whose
    membership is of that operator with role operator; what they return
    is exactly the Member rows, or the invites, of that operator, and
    they write nothing. *)
Theorem members_lists_scoped (st : db) (e : env) (op : Id) :
  (forall l st',
     members.list op e st = Ok (l, st') ->
     st' = st
     /\ (exists user m,
           auth e = Some user /\ In m (members_tbl st)
           /\ Member.operatorId m = op /\ Member.userId m = User._id user)
     /\ forall m, In m l <-> In m (members_tbl st) /\ Member.operatorId m = op)
  /\ (forall l st',
        members.listInvites op e st = Ok (l, st') ->
        st' = st
        /\ (exists user m,
              auth e = Some user
              /\ find (by_user (User._id user)) (members_tbl st) = Some m
              /\ Member.operatorId m = op /\ Member.role m = operator)
        /\ forall i,
             In i l <-> In i (invites_tbl st) /\ Invite.operatorId i = op).
Proof.
  split; intros l st'; unfold_query; follow; tidy; try discriminate;
    intros [= <- <-]; (split; [reflexivity|]); split.
  - match goal with
    | H : find _ (members_tbl st) = Some ?m |- _ =>
        apply find_some in H as [Hin Hm]; apply andb_prop in Hm as [H1 H2];
        apply Nat.eqb_eq in H1; apply String.eqb_eq in H2; eauto 7
    end.
  - intros m. rewrite filter_In, Nat.eqb_eq. tauto.
  - match goal with
    | H : find _ (members_tbl st) = Some ?m,
      R : Role_eqb (Member.role ?m) operator = true,
      O : negb (_ =? _) = false |- _ =>
        apply negb_eqb_false in O; exists t, m;
        repeat split; [exact H | exact O |];
        destruct (Member.role m); try discriminate; reflexivity
    end.
  - intros i. rewrite filter_In, Nat.eqb_eq. tauto.
Qed.

Lemma members_lists_scoped_witness :
  Scenario.s13 = Scenario.s13
  /\ (exists user m,
        auth (Scenario.by_ Scenario.U2 400) = Some user
        /\ In m (members_tbl Scenario.s13)
        /\ Member.operatorId m = 0 /\ Member.userId m = User._id user)
  /\ forall m,
       In m [Scenario.member_U1; Scenario.member_U2; Scenario.member_U3]
       <-> In m (members_tbl Scenario.s13) /\ Member.operatorId m = 0.
Proof.
  apply (proj1 (members_lists_scoped Scenario.s13
                  (Scenario.by_ Scenario.U2 400) 0)).
  vm_compute. reflexivity.
Defined.

(** ** Routes *)

Lemma requireMembership_of_member st e user m op :
  auth e = Some user ->
  In m (members_tbl st) -> Member.operatorId m = op ->
  Member.userId m = User._id user ->
  exists m', routes.requireMembership op e st = Ok ((user, m'), st).
Proof.
  intros Ha Hin Ho Hu.
  destruct (find_of_In (by_operator_user op (User._id user)) _ m Hin)
    as (m' & Hm').
  { unfold by_operator_user. rewrite Ho, Hu, Nat.eqb_refl.
    apply String.eqb_refl. }
  exists m'. unfold by_operator_user in Hm'.
  unfold_query. reduce_db. rewrite Ha. simpl. rewrite Hm'. reflexivity.
Qed.

(** X10. When [routes.create] returns an id in a reachable state, the
    route is stored active under the operator, and the caller gets it
    back from [routes.get] of that id, and in [routes.list] and
    [routes.listActive] of the operator. *)
Theorem routes_create_then_get (st st' : db) (e : env) (op : Id)
    (name : string) (description : option string) (id : Id) :
  reachable st ->
  routes.create op name description e st = Ok (id, st') ->
  let r := Route.mk id op name description true (now e) in
  routes_tbl st' = (routes_tbl st ++ [r])%list
  /\ routes.get id e st' = Ok (Some r, st')
  /\ (exists l, routes.list op e st' = Ok (l, st') /\ In r l)
  /\ (exists l, routes.listActive op e st' = Ok (l, st') /\ In r l).
Proof.
  intros Hr H r. pose proof (wf_routes _ (reachable_Wf _ Hr)) as Hf.
  revert H. unfold_handler. follow; tidy; try discriminate.
  intros [= Hid Hst]. subst id.
  match goal with
  | H : find _ (members_tbl st) = Some ?m,
    O : negb (_ =? _) = false |- _ =>
      apply negb_eqb_false in O;
      pose proof (find_some _ _ H) as [Hin Hu];
      apply String.eqb_eq in Hu; rename m into mem
  end.
  assert (Hrs : routes_tbl st' = (routes_tbl st ++ [r])%list)
    by (rewrite <- Hst; reflexivity).
  assert (Hms : members_tbl st' = members_tbl st)
    by (rewrite <- Hst; reflexivity).
  assert (Hget : find (has_id routes_t (nextId st)) (routes_tbl st')
                 = Some r).
  { rewrite Hrs, find_app_none.
    - simpl. unfold has_id. simpl. now rewrite Nat.eqb_refl.
    - apply (fresh_find_none routes_t _ _ _ Hf). lia. }
  match goal with
  | A : auth e = Some ?u |- _ =>
      destruct (requireMembership_of_member st' e u mem op A)
        as (m' & Hreq); try assumption; try (rewrite Hms; assumption)
  end.
  split; [exact Hrs|]. split; [|split].
  - unfold routes.get, bind, db_get. simpl.
    unfold has_id in Hget. simpl in Hget. rewrite Hget.
    simpl. change (Route.operatorId r) with op. now rewrite Hreq.
  - eexists. split.
    + unfold routes.list, bind. rewrite Hreq. unfold q_collect. reflexivity.
    + simpl. rewrite Hrs, filter_app. apply in_or_app. right. simpl.
      rewrite Nat.eqb_refl. now left.
  - eexists. split.
    + unfold routes.listActive, bind. rewrite Hreq. unfold q_collect, ret.
      reflexivity.
    + simpl. apply filter_In. split; [|reflexivity].
      rewrite Hrs, filter_app. apply in_or_app. right. simpl.
      rewrite Nat.eqb_refl. now left.
Qed.

Lemma routes_create_then_get_witness :
  routes_tbl Scenario.s2 = (routes_tbl Scenario.s1 ++ [Scenario.downtown])%list
  /\ routes.get 2 (Scenario.by_ Scenario.U1 11) Scenario.s2
     = Ok (Some Scenario.downtown, Scenario.s2)
  /\ (exists l,
        routes.list 0 (Scenario.by_ Scenario.U1 11) Scenario.s2
        = Ok (l, Scenario.s2) /\ In Scenario.downtown l)
  /\ (exists l,
        routes.listActive 0 (Scenario.by_ Scenario.U1 11) Scenario.s2
        = Ok (l, Scenario.s2) /\ In Scenario.downtown l).
Proof.
  apply (routes_create_then_get Scenario.s1 Scenario.s2
           (Scenario.by_ Scenario.U1 11) 0 "Downtown" None 2).
  - run_scenario.
  - vm_compute. reflexivity.
Defined.

(** X11. A stored route is rewritten or deleted only by [routes.update]
    or [routes.remove] called with its id by a member with role operator
    of the route's own operator: every other call, and every call by
    anyone else, leaves the row as it is. *)
Theorem route_changed_only_by_its_operator (st : db) (c : call) (e : env)
    (r : Route.t) :
  reachable st -> In r (routes_tbl st) ->
  ~ In r (routes_tbl (exec c e st)) ->
  ((exists n d a, c = routes_update (Route._id r) n d a)
   \/ c = routes_remove (Route._id r))
  /\ exists user m,
       auth e = Some user
       /\ find (by_user (User._id user)) (members_tbl st) = Some m
       /\ Member.role m = operator
       /\ Member.operatorId m = Route.operatorId r.
Proof.
  intros Hr Hin Hout. pose proof (wf_routes _ (reachable_Wf _ Hr)) as Hf.
  revert Hout. paths c; intros Hout;
    try (exfalso; apply Hout; auto using in_or_app; fail).
  all: match goal with
       | H : find (fun y => Route._id y =? ?rid) _ = Some ?x |- _ =>
           destruct (Nat.eq_dec (Route._id r) rid) as [E | E];
           [ pose proof (find_some _ _ H) as [Hx Hid];
             apply Nat.eqb_eq in Hid;
             assert (r = x) as <-
               by (apply (fresh_inj routes_t _ _ _ _ Hf Hin Hx); simpl; lia);
             subst rid
           | exfalso; apply Hout;
             first [ now apply (In_patch_other routes_t)
                   | now apply (In_delete_other routes_t) ] ]
       end.
  all: split; [eauto 6|].
  all: match goal with
       | H : find _ (members_tbl _) = Some ?m,
         R : Role_eqb (Member.role ?m) operator = true,
         O : negb (_ =? _) = false |- _ =>
           apply negb_eqb_false in O; do 2 eexists;
           split; [reflexivity|]; split; [exact H|]; split; [|now rewrite O];
           destruct (Member.role m); try discriminate; reflexivity
       end.
Qed.

Lemma route_changed_only_by_its_operator_witness :
  ((exists n d a, routes_remove 2 = routes_update 2 n d a)
   \/ routes_remove 2 = routes_remove 2)
  /\ exists user m,
       auth (Scenario.by_ Scenario.U1 400) = Some user
       /\ find (by_user (User._id user)) (members_tbl Scenario.s13) = Some m
       /\ Member.role m = operator
       /\ Member.operatorId m = 0.
Proof.
  apply (route_changed_only_by_its_operator Scenario.s13 (routes_remove 2)
           (Scenario.by_ Scenario.U1 400) Scenario.downtown reachable_s13).
  - vm_compute. auto.
  - vm_compute. intros [].
Defined.

Lemma filteredUpdates_none r : routes.filteredUpdates None None None r = r.
Proof. destruct r; reflexivity. Qed.

Lemma patch_rows_id {row} (T : table row) id f l :
  (forall r, f r = r) -> patch_rows T id f l = l.
Proof.
  intros Hf. unfold patch_rows. rewrite <- (map_id l) at 2.
  apply map_ext. intros r. destruct (doc_id T r =? id); auto.
Qed.

(** X12. When [routes.update] returns, the route of that id has the
    given name, description and flag where one was given and its old value
    where none was; its id, operator and creation time are the old ones;
    no other table is written; and an update that gives no field leaves
    the database as it was. *)
Theorem routes_update_patches (st st' : db) (e : env) (id : Id)
    (name description : option string) (isActive : option bool) :
  routes.update id name description isActive e st = Ok (tt, st') ->
  exists r,
    find (has_id routes_t id) (routes_tbl st) = Some r
    /\ find (has_id routes_t id) (routes_tbl st')
       = Some (Route.mk (Route._id r) (Route.operatorId r)
                 (match name with Some n => n | None => Route.name r end)
                 (match description with
                  | Some d => Some d
                  | None => Route.description r
                  end)
                 (match isActive with
                  | Some b => b
                  | None => Route.isActive r
                  end)
                 (Route.createdAt r))
    /\ st' = set_rows routes_t (routes_tbl st') st
    /\ (name = None -> description = None -> isActive = None -> st' = st).
Proof.
  intros H.
  assert (exists r,
             find (has_id routes_t id) (routes_tbl st) = Some r
             /\ st' = set_rows routes_t
                        (patch_rows routes_t id
                           (routes.filteredUpdates name description isActive)
                           (routes_tbl st)) st) as (r & Hg & ->).
  { revert H. unfold_handler. follow; tidy; try discriminate.
    intros [= <-]. eauto. }
  exists r. split; [exact Hg|]. split; [|split].
  - exact (get_patch routes_t id
             (routes.filteredUpdates name description isActive) _ _
             (fun _ => eq_refl) Hg).
  - reflexivity.
  - intros -> -> ->. simpl.
    rewrite (patch_rows_id routes_t) by apply filteredUpdates_none.
    destruct st; reflexivity.
Qed.

Lemma routes_update_patches_witness :
  exists r,
    find (has_id routes_t 2) (routes_tbl Scenario.s13) = Some r
    /\ find (has_id routes_t 2)
         (routes_tbl (exec (routes_update 2 None None (Some false))
                        (Scenario.by_ Scenario.U1 400) Scenario.s13))
       = Some (Route.mk (Route._id r) (Route.operatorId r) (Route.name r)
                 (Route.description r) false (Route.createdAt r))
    /\ exec (routes_update 2 None None (Some false))
         (Scenario.by_ Scenario.U1 400) Scenario.s13
       = set_rows routes_t
           (routes_tbl (exec (routes_update 2 None None (Some false))
                          (Scenario.by_ Scenario.U1 400) Scenario.s13))
           Scenario.s13
    /\ (@None string = None -> @None string = None -> Some false = None ->
        exec (routes_update 2 None None (Some false))
          (Scenario.by_ Scenario.U1 400) Scenario.s13 = Scenario.s13).
Proof.
  apply (routes_update_patches Scenario.s13
           (exec (routes_update 2 None None (Some false))
              (Scenario.by_ Scenario.U1 400) Scenario.s13)
           (Scenario.by_ Scenario.U1 400) 2 (@None string) (@None string)
           (Some false)).
  vm_compute. reflexivity.
Defined.

(** X13. When [routes.remove] returns, no route of that id is stored:
    [routes.get] of the id returns null to every caller and [startTrip] on
    it throws "Route not found" for a driver; the routes of other ids and
    all trips (also those run on the removed route) stay as they were. *)
Theorem routes_remove_then_get (st st' : db) (e : env) (id : Id) :
  routes.remove id e st = Ok (tt, st') ->
  (forall e', routes.get id e' st' = Ok (None, st'))
  /\ (forall e' user m,
        caller_is driver e' st' user m ->
        trips.startTrip id e' st' = Err "Route not found")
  /\ (forall r, In r (routes_tbl st) -> Route._id r <> id ->
                In r (routes_tbl st'))
  /\ tripSessions_tbl st' = tripSessions_tbl st.
Proof.
  unfold_handler. follow; tidy; try discriminate.
  intros [= <-]. simpl.
  assert (Hnone : find (fun r => Route._id r =? id)
                    (filter (fun r => negb (Route._id r =? id))
                       (routes_tbl st)) = None)
    by exact (get_deleted routes_t (routes_tbl st) id).
  split; [|split; [|split]].
  - intros e'. unfold_query. reduce_db. now rewrite Hnone.
  - intros e' user m (Ha & Hm & Hr). unfold by_user in Hm. simpl in Hm.
    unfold_handler. reduce_db. rewrite Ha. simpl. rewrite Hm, Hr. simpl.
    now rewrite Hnone.
  - intros r Hin Hne. now apply (In_delete_other routes_t).
  - reflexivity.
Qed.

Lemma routes_remove_then_get_witness :
  (forall e',
     routes.get 2 e'
       (exec (routes_remove 2) (Scenario.by_ Scenario.U1 400) Scenario.s13)
     = Ok (None,
           exec (routes_remove 2) (Scenario.by_ Scenario.U1 400)
             Scenario.s13))
  /\ (forall e' user m,
        caller_is driver e'
          (exec (routes_remove 2) (Scenario.by_ Scenario.U1 400)
             Scenario.s13) user m ->
        trips.startTrip 2 e'
          (exec (routes_remove 2) (Scenario.by_ Scenario.U1 400)
             Scenario.s13) = Err "Route not found")
  /\ (forall r, In r (routes_tbl Scenario.s13) -> Route._id r <> 2 ->
                In r (routes_tbl
                        (exec (routes_remove 2)
                           (Scenario.by_ Scenario.U1 400) Scenario.s13)))
  /\ tripSessions_tbl
       (exec (routes_remove 2) (Scenario.by_ Scenario.U1 400) Scenario.s13)
     = tripSessions_tbl Scenario.s13.
Proof.
  apply (routes_remove_then_get Scenario.s13
           (exec (routes_remove 2) (Scenario.by_ Scenario.U1 400)
              Scenario.s13)
           (Scenario.by_ Scenario.U1 400) 2).
  vm_compute. reflexivity.
Defined.

(** ** Passengers, continued *)

(** A scan of a passenger to come is not stored. *)
Lemma no_scan_of_fresh_passenger st t :
  Inv st -> Wf st -> find (scan_of t (nextId st)) (scans_tbl st) = None.
Proof.
  intros I W. destruct (find _ (scans_tbl st)) as [s|] eqn:E; [|reflexivity].
  apply find_some in E as [Hin Hs]. unfold scan_of in Hs.
  apply andb_prop in Hs as [_ Hs]. apply Nat.eqb_eq in Hs.
  destruct (wf_linked _ W s Hin) as [_ (p & Hp & _)].
  apply find_some in Hp as [Hp Hid]. unfold has_id in Hid.
  apply Nat.eqb_eq in Hid. simpl in Hid.
  destruct (inv_ids _ I) as [_ Hlt]. specialize (Hlt p Hp). lia.
Qed.

(** X14. When [passengers.create] returns an id in a reachable state, the
    QR code "SAVARI-" followed by the random string being borne by no
    older passenger: the passenger is stored unarchived under the caller
    as its business, the ticket e-mail is scheduled with that code,
    [getByQrCode] of the code returns the passenger to every caller, and a
    first [scanPassenger] of the code by a driver of the operator on their
    active trip returns "success". *)
Theorem passengers_create_then_scan (st st' : db) (e : env) (op : Id)
    (name email : string) (id : Id) :
  reachable st ->
  passengers.create op name email e st = Ok (id, st') ->
  find (by_qr ("SAVARI-" ++ nano e 12)) (passengers_tbl st) = None ->
  exists user o,
    auth e = Some user /\ In o (operators_tbl st) /\ Operator._id o = op
    /\ let p := Passenger.mk id op (User._id user) name email
                  ("SAVARI-" ++ nano e 12) (now e) None in
       passengers_tbl st' = (passengers_tbl st ++ [p])%list
       /\ scheduled st'
          = (scheduled st
             ++ [sendTicketEmail email name (Operator.name o)
                   ("SAVARI-" ++ nano e 12)])%list
       /\ (forall e',
             passengers.getByQrCode ("SAVARI-" ++ nano e 12) e' st'
             = Ok (Some p, st'))
       /\ (forall e' d m trip t,
             caller_is driver e' st' d m ->
             trip_of t d active st' trip ->
             Member.operatorId m = op ->
             trips.scanPassenger t ("SAVARI-" ++ nano e 12) e' st'
             = Ok (mkscan p success,
                   add_scan (new_scan st' e' d m t p) st')).
Proof.
  intros Hr H Hfresh.
  pose proof (reachable_Inv _ Hr) as I. pose proof (reachable_Wf _ Hr) as W.
  assert (exists user o,
             auth e = Some user /\ In o (operators_tbl st)
             /\ Operator._id o = op /\ id = nextId st
             /\ st' = mkdb (operators_tbl st) (members_tbl st)
                        (routes_tbl st)
                        (passengers_tbl st
                         ++ [Passenger.mk (nextId st) op (User._id user) name
                               email ("SAVARI-" ++ nano e 12) (now e) None])
                        (tripSessions_tbl st) (scans_tbl st)
                        (invites_tbl st)
                        (scheduled st
                         ++ [sendTicketEmail email name (Operator.name o)
                               ("SAVARI-" ++ nano e 12)])
                        (S (nextId st)))
    as (user & o & Ha & Hino & Ho & -> & ->).
  { revert H. unfold_handler. follow; tidy; try discriminate.
    intros [= <- <-].
    match goal with
    | H : find _ (operators_tbl st) = Some ?o |- _ =>
        pose proof (find_some _ _ H) as [Hino Ho]; apply Nat.eqb_eq in Ho
    end.
    do 2 eexists. repeat split; eauto. }
  exists user, o. split; [exact Ha|]. split; [exact Hino|].
  split; [exact Ho|]. intros p.
  match goal with
  | |- context [scheduled ?s = _] => set (st2 := s)
  end.
  assert (Hfind : find (by_qr ("SAVARI-" ++ nano e 12)) (passengers_tbl st2)
                  = Some p).
  { unfold st2. cbn [passengers_tbl].
    rewrite (find_app_none _ _ _ Hfresh). cbn [find].
    unfold by_qr at 1. cbn [Passenger.qrCode p].
    now rewrite String.eqb_refl. }
  assert (Hscans : scans_tbl st2 = scans_tbl st) by reflexivity.
  assert (Hid : Passenger._id p = nextId st) by reflexivity.
  split; [reflexivity|]. split; [reflexivity|]. split.
  - intros e'. exact (f_equal (fun x => Ok (x, st2)) Hfind).
  - intros e' d m trip t Hc Ht Hop.
    rewrite (scanPassenger_run _ _ _ _ _ _ _ p Hc Ht Hfind (eq_sym Hop)).
    rewrite Hscans, Hid, (no_scan_of_fresh_passenger st t I W).
    reflexivity.
Qed.

Lemma passengers_create_then_scan_witness :
  exists user o,
    auth (Scenario.by_rnd Scenario.U2 16 "abcdefghijkl") = Some user
    /\ In o (operators_tbl Scenario.s6) /\ Operator._id o = 0
    /\ let p := Passenger.mk 7 0 (User._id user) "Alice" "alice@x.com"
                  ("SAVARI-" ++ "abcdefghijkl") 16%Z None in
       passengers_tbl Scenario.s7 = (passengers_tbl Scenario.s6 ++ [p])%list
       /\ scheduled Scenario.s7
          = (scheduled Scenario.s6
             ++ [sendTicketEmail "alice@x.com" "Alice" (Operator.name o)
                   ("SAVARI-" ++ "abcdefghijkl")])%list
       /\ (forall e',
             passengers.getByQrCode ("SAVARI-" ++ "abcdefghijkl") e'
               Scenario.s7 = Ok (Some p, Scenario.s7))
       /\ (forall e' d m trip t,
             caller_is driver e' Scenario.s7 d m ->
             trip_of t d active Scenario.s7 trip ->
             Member.operatorId m = 0 ->
             trips.scanPassenger t ("SAVARI-" ++ "abcdefghijkl") e'
               Scenario.s7
             = Ok (mkscan p success,
                   add_scan (new_scan Scenario.s7 e' d m t p) Scenario.s7)).
Proof.
  apply (passengers_create_then_scan Scenario.s6 Scenario.s7
           (Scenario.by_rnd Scenario.U2 16 "abcdefghijkl") 0 "Alice"
           "alice@x.com" 7 reachable_s6).
  - vm_compute. reflexivity.
  - vm_compute. reflexivity.
Defined.

(** X15. No call deletes a passenger or changes its id, operator,
    business, QR code or creation time; and archival is final: at a
    nonzero clock, a passenger whose [archivedAt] is set (truthy) has it
    set after every call. *)
Theorem passenger_rows_persist (st : db) (c : call) (e : env)
    (p : Passenger.t) :
  now e <> 0%Z -> In p (passengers_tbl st) ->
  exists p',
    In p' (passengers_tbl (exec c e st))
    /\ Passenger._id p' = Passenger._id p
    /\ Passenger.operatorId p' = Passenger.operatorId p
    /\ Passenger.businessId p' = Passenger.businessId p
    /\ Passenger.qrCode p' = Passenger.qrCode p
    /\ Passenger.createdAt p' = Passenger.createdAt p
    /\ (not_archived p = false -> not_archived p' = false).
Proof.
  intros Hnow Hin.
  assert (Hsame : exists p', In p' (passengers_tbl st)
            /\ Passenger._id p' = Passenger._id p
            /\ Passenger.operatorId p' = Passenger.operatorId p
            /\ Passenger.businessId p' = Passenger.businessId p
            /\ Passenger.qrCode p' = Passenger.qrCode p
            /\ Passenger.createdAt p' = Passenger.createdAt p
            /\ (not_archived p = false -> not_archived p' = false))
    by (exists p; auto 10).
  paths c; try exact Hsame.
  - exists p. split; [apply in_or_app; now left | auto 10].
  - eexists. split; [apply in_map; exact Hin|]. simpl.
    destruct (Passenger._id p =? passengerId); simpl; auto 10.
  - eexists. split; [apply in_map; exact Hin|]. simpl.
    destruct (Passenger._id p =? passengerId); simpl; auto 10.
    repeat split. intros _. unfold not_archived. simpl.
    apply Z.eqb_neq in Hnow. now rewrite Hnow.
Qed.

Lemma passenger_rows_persist_witness :
  exists p',
    In p' (passengers_tbl Scenario.s13)
    /\ Passenger._id p' = 7
    /\ Passenger.operatorId p' = 0
    /\ Passenger.businessId p' = "u2"
    /\ Passenger.qrCode p' = Scenario.aliceQr
    /\ Passenger.createdAt p' = 16%Z
    /\ (not_archived (Scenario.alice (Some 200%Z)) = false ->
        not_archived p' = false).
Proof.
  apply (passenger_rows_persist Scenario.s12
           (passengers_create 0 "Bob" "bob@x.com")
           (Scenario.by_rnd Scenario.U2 300 "mnopqrstuvwx")
           (Scenario.alice (Some 200%Z))).
  - discriminate.
  - vm_compute. left. reflexivity.
Defined.

(** X16. A stored passenger row is rewritten only by
    [passengers.update] or [passengers.archive] called with its id by the
    user who registered it ([businessId]), holding role business; the
    operator the caller belongs to at that time is not compared. *)
Theorem passenger_changed_only_by_its_business (st : db) (c : call)
    (e : env) (p : Passenger.t) :
  reachable st -> In p (passengers_tbl st) ->
  ~ In p (passengers_tbl (exec c e st)) ->
  ((exists n m, c = passengers_update (Passenger._id p) n m)
   \/ c = passengers_archive (Passenger._id p))
  /\ exists user m,
       auth e = Some user
       /\ Passenger.businessId p = User._id user
       /\ find (by_user (User._id user)) (members_tbl st) = Some m
       /\ Member.role m = business.
Proof.
  intros Hr Hin Hout. pose proof (inv_ids _ (reachable_Inv _ Hr)) as Hf.
  revert Hout. paths c; intros Hout;
    try (exfalso; apply Hout; auto using in_or_app; fail).
  all: match goal with
       | H : find (fun y => Passenger._id y =? ?pid) _ = Some ?x |- _ =>
           destruct (Nat.eq_dec (Passenger._id p) pid) as [E | E];
           [ pose proof (find_some _ _ H) as [Hx Hid];
             apply Nat.eqb_eq in Hid;
             assert (p = x) as <-
               by (apply (ids_ok_inj _ _ _ _ Hf Hin Hx); lia);
             subst pid
           | exfalso; apply Hout;
             now apply (In_patch_other passengers_t) ]
       end.
  all: split; [eauto 6|].
  all: match goal with
       | H : find _ (members_tbl _) = Some ?m,
         R : Role_eqb (Member.role ?m) business = true,
         O : negb (String.eqb _ _) = false |- _ =>
           apply negb_string_eqb_false in O; do 2 eexists;
           split; [reflexivity|]; split; [exact O|]; split; [exact H|];
           destruct (Member.role m); try discriminate; reflexivity
       end.
Qed.

Lemma passenger_changed_only_by_its_business_witness :
  ((exists n m, passengers_archive 7 = passengers_update 7 n m)
   \/ passengers_archive 7 = passengers_archive 7)
  /\ exists user m,
       auth (Scenario.by_ Scenario.U2 100) = Some user
       /\ "u2" = User._id user
       /\ find (by_user (User._id user)) (members_tbl Scenario.s10) = Some m
       /\ Member.role m = business.
Proof.
  apply (passenger_changed_only_by_its_business Scenario.s10
           (passengers_archive 7) (Scenario.by_ Scenario.U2 100)
           (Scenario.alice None) reachable_s10).
  - vm_compute. left. reflexivity.
  - vm_compute. intros [H | []]. discriminate.
Defined.

(** X17. [passengers.get] takes the id of a passenger: for an id that
    names another table the call is refused by the validator of the
    argument, before anything is read.  For an id that names a passenger
    it looks the passenger up before it looks at the caller: when no
    passenger has the id it returns null to every caller, authenticated
    or not; for a stored passenger it throws "Not authenticated" without
    identity, throws "Not a member of this operator" for a caller with no
    Member row in the passenger's operator, and returns the passenger to
    a caller with one. *)
Theorem passengers_get_members_only (table_of : Id -> string) (st : db)
    (e : env) (id : Id) :
  (table_of id <> "passengers" ->
   exists msg,
     v_id table_of "passengers" id e st = Err msg
     /\ passengers.get table_of id e st = Err msg)
  /\ (table_of id = "passengers" ->
      (find (has_id passengers_t id) (passengers_tbl st) = None ->
       passengers.get table_of id e st = Ok (None, st))
      /\ (forall p,
            find (has_id passengers_t id) (passengers_tbl st) = Some p ->
            (auth e = None ->
             passengers.get table_of id e st = Err "Not authenticated")
            /\ (forall user,
                  auth e = Some user ->
                  (forall m, In m (members_tbl st) ->
                     Member.userId m = User._id user ->
                     Member.operatorId m <> Passenger.operatorId p) ->
                  passengers.get table_of id e st
                  = Err "Not a member of this operator")
            /\ (forall user m,
                  auth e = Some user -> In m (members_tbl st) ->
                  Member.userId m = User._id user ->
                  Member.operatorId m = Passenger.operatorId p ->
                  passengers.get table_of id e st = Ok (Some p, st)))).
Proof.
  unfold has_id. simpl. split.
  - intros Hn. apply String.eqb_neq in Hn. eexists.
    unfold passengers.get, bind at 1. unfold v_id, throw_if, throw.
    rewrite Hn. simpl. split; reflexivity.
  - intros Hv.
    assert (Hpass : forall k : M (option Passenger.t),
              (v_id table_of "passengers" id ;; k) e st = k e st).
    { intros k. unfold bind, v_id, throw_if, ret.
      now rewrite Hv, String.eqb_refl. }
    unfold passengers.get. rewrite Hpass. split.
    + intros Hnone. unfold_query. reduce_db. now rewrite Hnone.
    + intros p Hp. split; [|split].
      * intros Ha. unfold_query. reduce_db. now rewrite Hp, Ha.
      * intros user Ha Hno. unfold_query. reduce_db. rewrite Hp. simpl.
        rewrite Ha. simpl.
        destruct (find _ (members_tbl st)) as [m|] eqn:E; [|reflexivity].
        apply find_some in E as [Hin E]. apply andb_prop in E as [E1 E2].
        apply Nat.eqb_eq in E1. apply String.eqb_eq in E2.
        now destruct (Hno m Hin E2).
      * intros user m Ha Hin Hu Ho.
        destruct (find_of_In
                    (by_operator_user (Passenger.operatorId p)
                       (User._id user))
                    _ m Hin) as (m' & Hm').
        { unfold by_operator_user. rewrite Ho, Hu, Nat.eqb_refl.
          apply String.eqb_refl. }
        unfold by_operator_user in Hm'.
        unfold_query. reduce_db. rewrite Hp. simpl. rewrite Ha. simpl.
        now rewrite Hm'.
Qed.

Lemma passengers_get_members_only_witness :
  (exists msg,
     v_id Scenario.table_of "passengers" 0 (Scenario.anonymous 400)
       Scenario.s13 = Err msg
     /\ passengers.get Scenario.table_of 0 (Scenario.anonymous 400)
          Scenario.s13 = Err msg)
  /\ passengers.get Scenario.table_of 99 (Scenario.anonymous 400)
       Scenario.s13
     = Ok (None, Scenario.s13)
  /\ passengers.get Scenario.table_of 7 (Scenario.anonymous 400)
       Scenario.s13
     = Err "Not authenticated"
  /\ passengers.get Scenario.table_of 7 (Scenario.by_ Scenario.U3 400)
       Scenario.s13
     = Ok (Some (Scenario.alice (Some 200%Z)), Scenario.s13).
Proof.
  split; [|split; [|split]].
  - apply (proj1 (passengers_get_members_only Scenario.table_of
                    Scenario.s13 (Scenario.anonymous 400) 0)).
    vm_compute. discriminate.
  - apply (proj1 (proj2 (passengers_get_members_only Scenario.table_of
                           Scenario.s13 (Scenario.anonymous 400) 99)
                    eq_refl)).
    vm_compute. reflexivity.
  - apply (proj1 (proj2 (proj2 (passengers_get_members_only
                                  Scenario.table_of Scenario.s13
                                  (Scenario.anonymous 400) 7)
                           eq_refl)
                    (Scenario.alice (Some 200%Z))
                    ltac:(vm_compute; reflexivity))).
    reflexivity.
  - apply (proj2 (proj2 (proj2 (proj2 (passengers_get_members_only
                                         Scenario.table_of Scenario.s13
                                         (Scenario.by_ Scenario.U3 400) 7)
                                  eq_refl)
                           (Scenario.alice (Some 200%Z))
                           ltac:(vm_compute; reflexivity)))
             Scenario.U3 Scenario.member_U3).
    + reflexivity.
    + vm_compute. auto.
    + reflexivity.
    + reflexivity.
Defined.

Lemma firstn_length_le {A} n (l : list A) : List.length (firstn n l) <= n.
Proof.
  revert l. induction n as [|n IH]; intros [|a l]; simpl; try lia.
  specialize (IH l). lia.
Qed.

(** X18. [passengers.list] returns only to a caller with a Member row in
    the operator asked for, and writes nothing.  Every passenger of the
    page is a stored passenger of that operator; when that membership has
    role business, every passenger of the page was registered by the
    caller; and the page holds at most [numItems] passengers. *)
Theorem passengers_list_scoped (st st' : db) (e : env) (op : Id)
    (cursor : option Cursor) (numItems : Z) (inc : option bool)
    (r : PaginationResult Passenger.t) :
  passengers.list op cursor numItems inc e st = Ok (r, st') ->
  st' = st
  /\ List.length (page r) <= Z.to_nat numItems
  /\ exists user m,
       auth e = Some user
       /\ find (by_operator_user op (User._id user)) (members_tbl st)
          = Some m
       /\ forall p, In p (page r) ->
            In p (passengers_tbl st)
            /\ Passenger.operatorId p = op
            /\ (Member.role m = business ->
                Passenger.businessId p = User._id user).
Proof.
  unfold_handler. unfold by_operator_user.
  follow; tidy; try discriminate; intros [= <- <-].
  all: split; [reflexivity|]; cbn [page]; split;
    [ try (eapply Nat.le_trans; [apply filter_length_le|]);
      apply firstn_length_le |].
  all: do 2 eexists; split; [reflexivity|]; split; [eassumption|].
  all: intros p Hp; try (apply filter_In in Hp as [Hp _]).
  all: apply In_firstn in Hp; try apply In_skipn in Hp.
  all: apply filter_In in Hp as [Hin Hp]; split; [exact Hin|].
  all: try (apply andb_prop in Hp as [H1 H2]; apply Nat.eqb_eq in H1;
            apply String.eqb_eq in H2; split; [exact H1 | intros _; exact H2]).
  all: apply Nat.eqb_eq in Hp; split; [exact Hp|]; intros Hb.
  all: match goal with
       | R : Role_eqb (Member.role _) business = false |- _ =>
           rewrite Hb in R; discriminate
       end.
Qed.

Lemma passengers_list_scoped_witness :
  Scenario.s13 = Scenario.s13
  /\ List.length [Scenario.bob] <= Z.to_nat 10
  /\ exists user m,
       auth (Scenario.by_ Scenario.U2 301) = Some user
       /\ find (by_operator_user 0 (User._id user))
            (members_tbl Scenario.s13) = Some m
       /\ forall p, In p [Scenario.bob] ->
            In p (passengers_tbl Scenario.s13)
            /\ Passenger.operatorId p = 0
            /\ (Member.role m = business ->
                Passenger.businessId p = User._id user).
Proof.
  apply (passengers_list_scoped Scenario.s13 Scenario.s13
           (Scenario.by_ Scenario.U2 301) 0 None 10%Z None
           (mkpage [Scenario.bob] true 2)).
  vm_compute. reflexivity.
Defined.

(** ** Scheduled e-mails *)

Lemma tickets_ok_exec c e st :
  tickets_ok (passengers_tbl st) (scheduled st) ->
  tickets_ok (passengers_tbl (exec c e st)) (scheduled (exec c e st)).
Proof.
  intros H. paths c; try assumption.
  - (* createInvite *)
    intros em nm opn qr Hin. apply in_app_or in Hin as [Hin | [Hin | []]];
      [eauto | discriminate].
  - (* passengers.create *)
    intros em nm opn qr Hin. apply in_app_or in Hin as [Hin | [Hin | []]].
    + destruct (H _ _ _ _ Hin) as (p & Hp & Hq). exists p.
      auto using in_or_app.
    + injection Hin as <- <- <- <-. eexists.
      split; [apply in_or_app; right; left; reflexivity | reflexivity].
  - (* passengers.update *)
    intros em nm opn qr Hin. destruct (H _ _ _ _ Hin) as (p & Hp & Hq).
    eexists. split; [apply in_map; exact Hp|]. simpl.
    destruct (Passenger._id p =? passengerId); exact Hq.
  - (* passengers.archive *)
    intros em nm opn qr Hin. destruct (H _ _ _ _ Hin) as (p & Hp & Hq).
    eexists. split; [apply in_map; exact Hp|]. simpl.
    destruct (Passenger._id p =? passengerId); exact Hq.
  - (* passengers.resendTicketEmail *)
    intros em nm opn qr Hin. apply in_app_or in Hin as [Hin | [Hin | []]];
      [eauto|].
    injection Hin as <- <- <- <-.
    match goal with
    | H : find _ (passengers_tbl st) = Some ?p |- _ =>
        exists p; apply find_some in H as [H _]; auto
    end.
Qed.

Lemma reachable_tickets_ok st :
  reachable st -> tickets_ok (passengers_tbl st) (scheduled st).
Proof.
  induction 1 as [|st c e _ IH _]; [intros em nm opn qr []|].
  now apply tickets_ok_exec.
Qed.

(** X19. A call schedules at most one e-mail, after those already
    scheduled, and only [createInvite], [passengers.create] and
    [resendTicketEmail] schedule one; in a reachable state every scheduled
    ticket e-mail carries the QR code of a stored passenger. *)
Theorem scheduled_emails (st : db) (c : call) (e : env) :
  (exists js,
     scheduled (exec c e st) = (scheduled st ++ js)%list
     /\ List.length js <= 1
     /\ (js <> [] ->
         (exists o m r, c = members_createInvite o m r)
         \/ (exists o n m, c = passengers_create o n m)
         \/ (exists p, c = passengers_resendTicketEmail p)))
  /\ (reachable st ->
      forall em nm opn qr,
        In (sendTicketEmail em nm opn qr) (scheduled st) ->
        exists p, In p (passengers_tbl st) /\ Passenger.qrCode p = qr).
Proof.
  split; [| exact (reachable_tickets_ok st)].
  paths c.
  all: first
         [ exists []; split; [now rewrite app_nil_r|];
           split; [simpl; lia | intros []; reflexivity]
         | eexists [_]; split; [reflexivity|];
           split; [simpl; lia | intros _; eauto 8] ].
Qed.

Lemma scheduled_emails_witness :
  exists p,
    In p (passengers_tbl Scenario.s13)
    /\ Passenger.qrCode p = Scenario.aliceQr.
Proof.
  apply (proj2 (scheduled_emails Scenario.s13 (routes_remove 2)
                  (Scenario.by_ Scenario.U1 400)) reachable_s13
           "alice@x.com" "Alice" "Acme").
  vm_compute. auto.
Defined.

(** ** Trips, continued *)

Lemma mapM_withPassenger l e st :
  mapM trips.withPassenger l e st =
  Ok (map (fun s => (s, find (has_id passengers_t (Scan.passengerId s))
                          (passengers_tbl st))) l, st).
Proof.
  induction l as [|a l IH]; [reflexivity|].
  simpl. unfold bind at 1. unfold trips.withPassenger at 1.
  unfold bind at 1. unfold db_get, ret. simpl.
  unfold bind at 1. now rewrite IH.
Qed.

Lemma getActiveTrip_run e st :
  trips.getActiveTrip e st =
  Ok (match auth e with
      | None => None
      | Some user =>
          match find (active_of (User._id user)) (tripSessions_tbl st) with
          | None => None
          | Some trip => Some (view_of st trip)
          end
      end, st).
Proof.
  unfold trips.getActiveTrip, bind at 1, getAuthUser.
  destruct (auth e) as [user|]; [|reflexivity].
  unfold bind at 1, q_first. simpl. unfold active_of.
  destruct (find _ (tripSessions_tbl st)) as [trip|]; [|reflexivity].
  unfold bind, db_get, q_collect. simpl.
  rewrite mapM_withPassenger. reflexivity.
Qed.

Lemma count_pos {A} (f : A -> bool) l x :
  In x l -> f x = true -> 0 < count f l.
Proof.
  intros Hin Hf. unfold count.
  assert (H : In x (filter f l)) by (apply filter_In; auto).
  destruct (filter f l); [destruct H | simpl; lia].
Qed.

(** With at most one document in a range, [.first()] is any document of
    the range. *)
Lemma unique_find {A} (f : A -> bool) l x :
  count f l <= 1 -> In x l -> f x = true -> find f l = Some x.
Proof.
  unfold count. induction l as [|a l IH]; simpl; [intros _ []|].
  destruct (f a) eqn:E; simpl.
  - intros Hc [-> | Hin] Hf; [reflexivity|].
    pose proof (count_pos f l x Hin Hf) as Hp. unfold count in Hp. lia.
  - intros Hc [-> | Hin] Hf; [congruence | auto].
Qed.

(** X20. When [startTrip] returns an id in a reachable state,
    [getActiveTrip] of the caller returns that trip, active and not ended,
    with the route it was started on and an empty roster. *)
Theorem startTrip_then_getActiveTrip (st st' : db) (e : env) (rid id : Id) :
  reachable st ->
  trips.startTrip rid e st = Ok (id, st') ->
  exists user m route,
    caller_is driver e st user m
    /\ find (has_id routes_t rid) (routes_tbl st) = Some route
    /\ Route.operatorId route = Member.operatorId m
    /\ trips.getActiveTrip e st'
       = Ok (Some (TripView.mk
                     (TripSession.mk id (Member.operatorId m) rid
                        (User._id user) (now e) None active)
                     (Some route) []), st').
Proof.
  intros Hr H. pose proof (reachable_Wf _ Hr) as W.
  assert (exists user m route,
             caller_is driver e st user m
             /\ find (has_id routes_t rid) (routes_tbl st) = Some route
             /\ Route.operatorId route = Member.operatorId m
             /\ find (active_of (User._id user)) (tripSessions_tbl st) = None
             /\ id = nextId st
             /\ st' = set_rows tripSessions_t
                        (tripSessions_tbl st
                         ++ [TripSession.mk (nextId st) (Member.operatorId m)
                               rid (User._id user) (now e) None active])
                        (bump st))
    as (user & m & route & Hc & Hroute & Hop & Hnone & -> & ->).
  { revert H. unfold_handler. follow; tidy; try discriminate.
    intros [= <- <-].
    match goal with
    | A : is_some (find _ (tripSessions_tbl st)) = false,
      O : negb (_ =? _) = false,
      R : Role_eqb (Member.role ?m) driver = true |- _ =>
        apply is_some_false in A; apply negb_eqb_false in O;
        assert (Member.role m = driver)
          by (destruct (Member.role m); try discriminate; reflexivity)
    end.
    do 3 eexists. unfold caller_is. repeat split; eauto. }
  exists user, m, route. split; [exact Hc|]. split; [exact Hroute|].
  split; [exact Hop|].
  destruct Hc as (Ha & _ & _).
  rewrite getActiveTrip_run, Ha. simpl.
  rewrite (find_app_none _ _ _ Hnone). simpl.
  unfold active_of at 1. simpl. rewrite String.eqb_refl. simpl.
  unfold view_of, roster. simpl. rewrite Hroute.
  assert (Hscans : filter (by_trip (nextId st)) (scans_tbl st) = []).
  { apply find_none_filter.
    destruct (find _ (scans_tbl st)) as [s|] eqn:E; [|reflexivity].
    apply find_some in E as [Hin Hs]. unfold by_trip in Hs.
    apply Nat.eqb_eq in Hs.
    destruct (wf_linked _ W s Hin) as [(trip & Ht & _) _].
    apply find_some in Ht as [Ht Hid]. unfold has_id in Hid.
    apply Nat.eqb_eq in Hid. simpl in Hid.
    destruct (wf_trips _ W) as [_ Hlt]. specialize (Hlt trip Ht).
    simpl in Hlt. lia. }
  now rewrite Hscans.
Qed.

Lemma startTrip_then_getActiveTrip_witness :
  exists user m route,
    caller_is driver (Scenario.by_ Scenario.U3 17) Scenario.s7 user m
    /\ find (has_id routes_t 2) (routes_tbl Scenario.s7) = Some route
    /\ Route.operatorId route = Member.operatorId m
    /\ trips.getActiveTrip (Scenario.by_ Scenario.U3 17) Scenario.s8
       = Ok (Some (TripView.mk
                     (TripSession.mk 8 (Member.operatorId m) 2
                        (User._id user) 17%Z None active)
                     (Some route) []), Scenario.s8).
Proof.
  apply (startTrip_then_getActiveTrip Scenario.s7 Scenario.s8
           (Scenario.by_ Scenario.U3 17) 2 8).
  - apply reachable_exec; [exact reachable_s6 | reflexivity].
  - vm_compute. reflexivity.
Defined.

Lemma scanPassenger_ok_inv st st' e t qr res :
  trips.scanPassenger t qr e st = Ok (res, st') ->
  exists user m trip p,
    caller_is driver e st user m
    /\ trip_of t user active st trip
    /\ find (by_qr qr) (passengers_tbl st) = Some p
    /\ Passenger.operatorId p = Member.operatorId m
    /\ passenger res = p
    /\ (st' = st \/ st' = add_scan (new_scan st e user m t p) st)
    /\ exists s, In s (scans_tbl st') /\ scan_of t (Passenger._id p) s = true.
Proof.
  unfold_handler. follow; tidy; try discriminate; intros [= <- <-].
  all: match goal with
       | R : Role_eqb (Member.role ?m) driver = true,
         D : negb (String.eqb _ _) = false,
         S : negb (TripStatus_eqb (TripSession.status ?trip) active) = false,
         O : negb (_ =? _) = false |- _ =>
           apply negb_eqb_false in O; apply negb_string_eqb_false in D;
           assert (Member.role m = driver)
             by (destruct (Member.role m); try discriminate; reflexivity);
           assert (TripSession.status trip = active)
             by (destruct (TripSession.status trip);
                 try discriminate; reflexivity)
       end.
  all: do 4 eexists; unfold caller_is, trip_of.
  all: split; [repeat split; eauto|].
  all: split; [repeat split; eauto|].
  all: split; [eassumption|]; split; [assumption|]; split; [reflexivity|].
  - split; [now left|].
    match goal with
    | H : find _ (scans_tbl st) = Some ?s |- _ =>
        exists s; apply find_some in H as [H1 H2]; auto
    end.
  - split; [now right|]. eexists. split.
    + simpl. apply in_or_app. right. left. reflexivity.
    + unfold scan_of, new_scan. simpl. now rewrite !Nat.eqb_refl.
Qed.

(** X21. When [scanPassenger] returns in a reachable state, with either
    status, [getActiveTrip] of the caller then returns the scanned trip,
    and its roster has a scan of the returned passenger, carrying that
    passenger's stored record. *)
Theorem scanPassenger_then_roster (st st' : db) (e : env) (t : Id)
    (qr : string) (res : ScanResult) :
  reachable st ->
  trips.scanPassenger t qr e st = Ok (res, st') ->
  exists view s,
    trips.getActiveTrip e st' = Ok (Some view, st')
    /\ TripSession._id (TripView.trip view) = t
    /\ In (s, Some (passenger res)) (TripView.scans view)
    /\ Scan.tripSessionId s = t
    /\ Scan.passengerId s = Passenger._id (passenger res).
Proof.
  intros Hr H. pose proof (reachable_Inv _ Hr) as I.
  destruct (scanPassenger_ok_inv _ _ _ _ _ _ H)
    as (user & m & trip & p & (Ha & Hm & Hrole) & (Ht & Hd & Hs) & Hp & Ho
        & Hres & Hst & (s & Hin & Hscan)).
  pose proof (find_some _ _ Ht) as [Htin Hid]. unfold has_id in Hid.
  apply Nat.eqb_eq in Hid. simpl in Hid.
  pose proof (find_some _ _ Hp) as [Hpin _].
  assert (Hact : find (active_of (User._id user)) (tripSessions_tbl st)
                 = Some trip).
  { apply unique_find; [apply (inv_trips _ I) | exact Htin |].
    unfold active_of. now rewrite Hd, Hs, String.eqb_refl. }
  assert (Hget : find (has_id passengers_t (Passenger._id p))
                   (passengers_tbl st) = Some p)
    by exact (get_of_In _ _ _ (inv_ids _ I) Hpin).
  assert (Htrips : tripSessions_tbl st' = tripSessions_tbl st)
    by (destruct Hst as [-> | ->]; reflexivity).
  assert (Hps : passengers_tbl st' = passengers_tbl st)
    by (destruct Hst as [-> | ->]; reflexivity).
  unfold scan_of in Hscan. apply andb_prop in Hscan as [H1 H2].
  apply Nat.eqb_eq in H1, H2.
  exists (view_of st' trip), s.
  rewrite getActiveTrip_run, Ha, Htrips, Hact.
  split; [reflexivity|]. split; [exact Hid|]. split; [|split].
  - unfold view_of, roster. simpl. rewrite Hps, Hres, <- Hget, <- H2.
    apply (in_map (fun s => (s, find (has_id passengers_t
                                         (Scan.passengerId s))
                                  (passengers_tbl st)))).
    apply filter_In. split; [exact Hin|]. unfold by_trip.
    rewrite H1, Hid. apply Nat.eqb_refl.
  - exact H1.
  - now rewrite Hres.
Qed.

Lemma scanPassenger_then_roster_witness :
  exists view s,
    trips.getActiveTrip (Scenario.by_ Scenario.U3 18) Scenario.s9
    = Ok (Some view, Scenario.s9)
    /\ TripSession._id (TripView.trip view) = 8
    /\ In (s, Some (passenger (mkscan (Scenario.alice None) success)))
         (TripView.scans view)
    /\ Scan.tripSessionId s = 8
    /\ Scan.passengerId s
       = Passenger._id (passenger (mkscan (Scenario.alice None) success)).
Proof.
  apply (scanPassenger_then_roster Scenario.s8 Scenario.s9
           (Scenario.by_ Scenario.U3 18) 8 Scenario.aliceQr
           (mkscan (Scenario.alice None) success) reachable_s8).
  vm_compute. reflexivity.
Defined.

Lemma count_tail_le {A} (f : A -> bool) a l : count f l <= count f (a :: l).
Proof. unfold count. simpl. destruct (f a); simpl; lia. Qed.

(** With at most one scan per passenger on a trip, the passengers of the
    scans of the trip are distinct. *)
Lemma roster_NoDup l t :
  scans_unique l -> NoDup (map Scan.passengerId (filter (by_trip t) l)).
Proof.
  induction l as [|a l IH]; intros H; simpl; [constructor|].
  assert (Hl : scans_unique l).
  { intros t' p. eapply Nat.le_trans; [apply count_tail_le | apply H]. }
  destruct (by_trip t a) eqn:E; [|auto]. simpl. constructor; [|auto].
  intros Hin. apply in_map_iff in Hin as (s & Hs & Hin).
  apply filter_In in Hin as [Hin Hb].
  assert (Hf : scan_of t (Scan.passengerId a) s = true).
  { unfold scan_of. unfold by_trip in Hb. rewrite Hb, Hs.
    now rewrite Nat.eqb_refl. }
  pose proof (count_pos _ _ _ Hin Hf) as Hp.
  specialize (H t (Scan.passengerId a)). unfold count in H, Hp.
  simpl in H. unfold scan_of at 1 in H. unfold by_trip in E.
  rewrite E, Nat.eqb_refl in H. simpl in H. lia.
Qed.

(** X22. In a reachable state, what [getActiveTrip] returns to a caller
    is a stored active trip of the caller, and nothing is written.  Its
    roster holds the scans of that trip and no others, no passenger
    twice, each with its stored passenger (never null), who is of the
    operator the scan is filed under; and the route, when it is still
    stored, is of the trip's operator. *)
Theorem getActiveTrip_roster (st st' : db) (e : env) (view : TripView.t) :
  reachable st ->
  trips.getActiveTrip e st = Ok (Some view, st') ->
  st' = st
  /\ In (TripView.trip view) (tripSessions_tbl st)
  /\ TripSession.status (TripView.trip view) = active
  /\ (exists user, auth e = Some user
        /\ TripSession.driverId (TripView.trip view) = User._id user)
  /\ NoDup (map (fun x => Scan.passengerId (fst x)) (TripView.scans view))
  /\ (forall s, In s (scans_tbl st) ->
        Scan.tripSessionId s = TripSession._id (TripView.trip view) ->
        exists p, In (s, Some p) (TripView.scans view))
  /\ (forall s o, In (s, o) (TripView.scans view) ->
        In s (scans_tbl st)
        /\ Scan.tripSessionId s = TripSession._id (TripView.trip view)
        /\ exists p, o = Some p /\ Passenger._id p = Scan.passengerId s
                     /\ Passenger.operatorId p = Scan.operatorId s)
  /\ (forall r, TripView.route view = Some r ->
        Route.operatorId r = TripSession.operatorId (TripView.trip view)).
Proof.
  intros Hr H. pose proof (reachable_Inv _ Hr) as I.
  pose proof (reachable_Wf _ Hr) as W.
  rewrite getActiveTrip_run in H.
  destruct (auth e) as [user|]; [|discriminate].
  destruct (find _ (tripSessions_tbl st)) as [trip|] eqn:Ht; [|discriminate].
  injection H as <- <-. apply find_some in Ht as [Hin Hact].
  unfold active_of in Hact. apply andb_prop in Hact as [Hd Hs].
  apply String.eqb_eq in Hd.
  split; [reflexivity|]. split; [exact Hin|]. split.
  { simpl. destruct (TripSession.status trip); [reflexivity|discriminate]. }
  split; [eauto|]. split; [|split; [|split]].
  - unfold view_of, roster. simpl. rewrite map_map. simpl.
    apply roster_NoDup. apply (inv_scans _ I).
  - intros s Hsin Hst. simpl in Hst.
    destruct (wf_linked _ W s Hsin) as [_ (p & Hp & _)].
    exists p. unfold view_of, roster. simpl. rewrite <- Hp.
    apply (in_map (fun s => (s, find (has_id passengers_t
                                         (Scan.passengerId s))
                                  (passengers_tbl st)))).
    apply filter_In. split; [exact Hsin|]. unfold by_trip.
    rewrite Hst. apply Nat.eqb_refl.
  - intros s o Hso. unfold view_of, roster in Hso. simpl in Hso.
    apply in_map_iff in Hso as (s' & [= -> <-] & Hs').
    apply filter_In in Hs' as [Hs' Hb]. unfold by_trip in Hb.
    apply Nat.eqb_eq in Hb. split; [exact Hs'|]. split; [exact Hb|].
    destruct (wf_linked _ W s Hs') as [_ (p & Hp & Hop)].
    exists p. split; [exact Hp|]. split; [|exact Hop].
    apply find_some in Hp as [_ Hp]. unfold has_id in Hp.
    now apply Nat.eqb_eq in Hp.
  - intros r Hroute. unfold view_of in Hroute. simpl in Hroute.
    exact (proj2 (wf_trip_routes _ W trip Hin) r Hroute).
Qed.

Lemma getActiveTrip_roster_witness :
  Scenario.s9 = Scenario.s9
  /\ In (Scenario.trip8 None active) (tripSessions_tbl Scenario.s9)
  /\ TripSession.status (Scenario.trip8 None active) = active
  /\ (exists user, auth (Scenario.by_ Scenario.U3 19) = Some user
        /\ TripSession.driverId (Scenario.trip8 None active)
           = User._id user)
  /\ NoDup (map (fun x => Scan.passengerId (fst x))
              (TripView.scans (view_of Scenario.s9
                                 (Scenario.trip8 None active))))
  /\ (forall s, In s (scans_tbl Scenario.s9) ->
        Scan.tripSessionId s = 8 ->
        exists p,
          In (s, Some p)
            (TripView.scans (view_of Scenario.s9
                               (Scenario.trip8 None active))))
  /\ (forall s o,
        In (s, o)
          (TripView.scans (view_of Scenario.s9
                             (Scenario.trip8 None active))) ->
        In s (scans_tbl Scenario.s9)
        /\ Scan.tripSessionId s = 8
        /\ exists p, o = Some p /\ Passenger._id p = Scan.passengerId s
                     /\ Passenger.operatorId p = Scan.operatorId s)
  /\ (forall r,
        TripView.route (view_of Scenario.s9 (Scenario.trip8 None active))
        = Some r ->
        Route.operatorId r = 0).
Proof.
  apply (getActiveTrip_roster Scenario.s9 Scenario.s9
           (Scenario.by_ Scenario.U3 19)
           (view_of Scenario.s9 (Scenario.trip8 None active))
           reachable_s9).
  vm_compute. reflexivity.
Defined.

Lemma endTrip_ok_inv st st' e t :
  trips.endTrip t e st = Ok (tt, st') ->
  exists user m trip,
    caller_is driver e st user m
    /\ trip_of t user active st trip
    /\ st' = set_rows tripSessions_t
               (patch_rows tripSessions_t t (trips.complete (now e))
                  (tripSessions_tbl st)) st.
Proof.
  unfold_handler. follow; tidy; try discriminate; intros [= <-].
  match goal with
  | R : Role_eqb (Member.role ?m) driver = true,
    D : negb (String.eqb _ _) = false,
    S : negb (TripStatus_eqb (TripSession.status ?trip) active) = false
    |- _ =>
      apply negb_string_eqb_false in D;
      assert (Member.role m = driver)
        by (destruct (Member.role m); try discriminate; reflexivity);
      assert (TripSession.status trip = active)
        by (destruct (TripSession.status trip);
            try discriminate; reflexivity)
  end.
  do 3 eexists. unfold caller_is, trip_of. repeat split; eauto.
Qed.

(** X23. When [endTrip] returns in a reachable state, the caller has no
    active trip left: [getActiveTrip] returns null, and a [startTrip] by
    the same caller on a stored route of their operator returns a new
    trip. *)
Theorem endTrip_then_startTrip (st st' : db) (e : env) (t : Id) :
  reachable st ->
  trips.endTrip t e st = Ok (tt, st') ->
  (forall e', auth e' = auth e ->
     trips.getActiveTrip e' st' = Ok (None, st'))
  /\ (forall e' rid route user m,
        auth e' = auth e ->
        caller_is driver e st user m ->
        find (has_id routes_t rid) (routes_tbl st') = Some route ->
        Route.operatorId route = Member.operatorId m ->
        exists st'', trips.startTrip rid e' st' = Ok (nextId st', st'')).
Proof.
  intros Hr H. pose proof (reachable_Inv _ Hr) as I.
  pose proof (reachable_Wf _ Hr) as W.
  destruct (endTrip_ok_inv _ _ _ _ H)
    as (user & m & trip & (Ha & Hm & Hrole) & (Ht & Hd & Hs) & ->).
  pose proof (find_some _ _ Ht) as [Htin Hid]. unfold has_id in Hid.
  apply Nat.eqb_eq in Hid. simpl in Hid.
  assert (Hnone : find (active_of (User._id user))
                    (patch_rows tripSessions_t t (trips.complete (now e))
                       (tripSessions_tbl st)) = None).
  { destruct (find _ (patch_rows _ _ _ _)) as [x|] eqn:E; [|reflexivity].
    exfalso. apply find_some in E as [Hx Hact]. unfold patch_rows in Hx.
    apply in_map_iff in Hx as (y & <- & Hy). simpl in Hact.
    destruct (TripSession._id y =? t) eqn:Ey.
    - unfold active_of, trips.complete in Hact. simpl in Hact.
      now rewrite andb_false_r in Hact.
    - apply Nat.eqb_neq in Ey. apply Ey. rewrite <- Hid.
      f_equal. apply (fresh_inj tripSessions_t _ _ _ _ (wf_trips _ W) Hy Htin).
      assert (Hf : find (active_of (User._id user)) (tripSessions_tbl st)
                   = Some y)
        by (apply unique_find; [apply (inv_trips _ I) | exact Hy | exact Hact]).
      assert (Hf' : find (active_of (User._id user)) (tripSessions_tbl st)
                    = Some trip).
      { apply unique_find; [apply (inv_trips _ I) | exact Htin |].
        unfold active_of. now rewrite Hd, Hs, String.eqb_refl. }
      congruence. }
  split.
  - intros e' Ha'. rewrite getActiveTrip_run, Ha', Ha. simpl.
    now rewrite Hnone.
  - intros e' rid route user' m' Ha' (Hau & Hm' & Hr') Hroute Hop.
    assert (user' = user) as -> by congruence.
    unfold by_user in Hm'. unfold has_id in Hroute. simpl in Hroute.
    unfold active_of in Hnone.
    eexists. unfold_handler. reduce_db. rewrite Ha', Ha. simpl.
    rewrite Hm', Hr'. simpl. rewrite Hroute. simpl.
    rewrite Hop, Nat.eqb_refl. simpl. rewrite Hnone. reflexivity.
Qed.

Lemma endTrip_then_startTrip_witness :
  (forall e', auth e' = auth (Scenario.by_ Scenario.U3 20) ->
     trips.getActiveTrip e' Scenario.s10 = Ok (None, Scenario.s10))
  /\ (forall e' rid route user m,
        auth e' = auth (Scenario.by_ Scenario.U3 20) ->
        caller_is driver (Scenario.by_ Scenario.U3 20) Scenario.s9 user m ->
        find (has_id routes_t rid) (routes_tbl Scenario.s10) = Some route ->
        Route.operatorId route = Member.operatorId m ->
        exists st'',
          trips.startTrip rid e' Scenario.s10
          = Ok (nextId Scenario.s10, st'')).
Proof.
  apply (endTrip_then_startTrip Scenario.s9 Scenario.s10
           (Scenario.by_ Scenario.U3 20) 8 reachable_s9).
  vm_compute. reflexivity.
Defined.

(** X24. No call deletes a trip or changes its id, operator, route,
    driver or start time, and a stored trip row is rewritten only by
    [endTrip] called with its id, while it is active, by its own driver
    holding role driver: a completed trip is never written again. *)
Theorem trip_changed_only_by_its_driver (st : db) (c : call) (e : env)
    (tr : TripSession.t) :
  reachable st -> In tr (tripSessions_tbl st) ->
  (exists tr',
     In tr' (tripSessions_tbl (exec c e st))
     /\ TripSession._id tr' = TripSession._id tr
     /\ TripSession.operatorId tr' = TripSession.operatorId tr
     /\ TripSession.routeId tr' = TripSession.routeId tr
     /\ TripSession.driverId tr' = TripSession.driverId tr
     /\ TripSession.startedAt tr' = TripSession.startedAt tr)
  /\ (~ In tr (tripSessions_tbl (exec c e st)) ->
      c = trips_endTrip (TripSession._id tr)
      /\ TripSession.status tr = active
      /\ exists user m,
           auth e = Some user
           /\ TripSession.driverId tr = User._id user
           /\ find (by_user (User._id user)) (members_tbl st) = Some m
           /\ Member.role m = driver).
Proof.
  intros Hr Hin. pose proof (wf_trips _ (reachable_Wf _ Hr)) as Hf. split.
  - assert (Hsame : exists tr', In tr' (tripSessions_tbl st)
              /\ TripSession._id tr' = TripSession._id tr
              /\ TripSession.operatorId tr' = TripSession.operatorId tr
              /\ TripSession.routeId tr' = TripSession.routeId tr
              /\ TripSession.driverId tr' = TripSession.driverId tr
              /\ TripSession.startedAt tr' = TripSession.startedAt tr)
      by (exists tr; auto 10).
    paths c; try exact Hsame.
    + exists tr. split; [apply in_or_app; now left | auto 10].
    + eexists. split; [apply in_map; exact Hin|]. simpl.
      destruct (TripSession._id tr =? tripSessionId); simpl; auto 10.
  - paths c; intros Hout;
      try (exfalso; apply Hout; auto using in_or_app; fail).
    match goal with
    | H : find (fun y => TripSession._id y =? ?tid) _ = Some ?x |- _ =>
        destruct (Nat.eq_dec (TripSession._id tr) tid) as [E | E];
        [ pose proof (find_some _ _ H) as [Hx Hid];
          apply Nat.eqb_eq in Hid;
          assert (tr = x) as <-
            by (apply (fresh_inj tripSessions_t _ _ _ _ Hf Hin Hx);
                simpl; lia);
          subst tid
        | exfalso; apply Hout;
          now apply (In_patch_other tripSessions_t) ]
    end.
    split; [reflexivity|].
    match goal with
    | R : Role_eqb (Member.role ?m) driver = true,
      D : negb (String.eqb _ _) = false,
      S : negb (TripStatus_eqb (TripSession.status tr) active) = false,
      H : find _ (members_tbl _) = Some ?m |- _ =>
        apply negb_string_eqb_false in D;
        split; [destruct (TripSession.status tr);
                try discriminate; reflexivity|];
        do 2 eexists; split; [reflexivity|]; split; [exact D|];
        split; [exact H|];
        destruct (Member.role m); try discriminate; reflexivity
    end.
Qed.

Lemma trip_changed_only_by_its_driver_witness :
  (exists tr',
     In tr' (tripSessions_tbl Scenario.s10)
     /\ TripSession._id tr' = 8
     /\ TripSession.operatorId tr' = 0
     /\ TripSession.routeId tr' = 2
     /\ TripSession.driverId tr' = "u3"
     /\ TripSession.startedAt tr' = 17%Z)
  /\ (~ In (Scenario.trip8 None active) (tripSessions_tbl Scenario.s10) ->
      trips_endTrip 8 = trips_endTrip 8
      /\ active = active
      /\ exists user m,
           auth (Scenario.by_ Scenario.U3 20) = Some user
           /\ "u3" = User._id user
           /\ find (by_user (User._id user)) (members_tbl Scenario.s9)
              = Some m
           /\ Member.role m = driver).
Proof.
  apply (trip_changed_only_by_its_driver Scenario.s9 (trips_endTrip 8)
           (Scenario.by_ Scenario.U3 20) (Scenario.trip8 None active)
           reachable_s9).
  vm_compute. left. reflexivity.
Defined.

(** X25. In every reachable state a trip is active with no [endedAt], or
    completed with a positive [endedAt]; its operator is stored; and its
    route, while it is stored, is a route of the trip's operator. *)
Theorem trip_is_coherent (st : db) (tr : TripSession.t) :
  reachable st -> In tr (tripSessions_tbl st) ->
  (TripSession.status tr = active /\ TripSession.endedAt tr = None
   \/ TripSession.status tr = completed
      /\ exists a, TripSession.endedAt tr = Some a /\ (0 < a)%Z)
  /\ (exists o, In o (operators_tbl st)
        /\ Operator._id o = TripSession.operatorId tr)
  /\ (forall r,
        find (has_id routes_t (TripSession.routeId tr)) (routes_tbl st)
        = Some r ->
        Route.operatorId r = TripSession.operatorId tr).
Proof.
  intros Hr Hin. pose proof (reachable_Wf _ Hr) as W. split; [|split].
  - pose proof (wf_trip_coherent _ W tr Hin) as H. unfold trip_coherent in H.
    destruct (TripSession.status tr); auto.
  - destruct (wf_trip_op _ W tr Hin) as (o & Ho). exists o.
    apply find_some in Ho as [Ho Hid]. unfold has_id in Hid.
    apply Nat.eqb_eq in Hid. auto.
  - exact (proj2 (wf_trip_routes _ W tr Hin)).
Qed.

Lemma trip_is_coherent_witness :
  (completed = active /\ Some 20%Z = None
   \/ completed = completed /\ exists a, Some 20%Z = Some a /\ (0 < a)%Z)
  /\ (exists o, In o (operators_tbl Scenario.s13) /\ Operator._id o = 0)
  /\ (forall r,
        find (has_id routes_t 2) (routes_tbl Scenario.s13) = Some r ->
        Route.operatorId r = 0).
Proof.
  apply (trip_is_coherent Scenario.s13 (Scenario.trip8 (Some 20%Z) completed)
           reachable_s13).
  vm_compute. left. reflexivity.
Defined.

(** X26. Scans are a log: a call never rewrites or deletes a scan and
    appends at most one, and only [scanPassenger] appends.  In a reachable
    state every scan is on a stored trip and was made by that trip's
    driver, and is of a stored passenger of the operator the scan is filed
    under. *)
Theorem scans_are_a_log (st : db) (c : call) (e : env) :
  (exists new,
     scans_tbl (exec c e st) = (scans_tbl st ++ new)%list
     /\ List.length new <= 1
     /\ (new <> [] -> exists t q, c = trips_scanPassenger t q))
  /\ (reachable st ->
      forall s, In s (scans_tbl st) ->
        (exists trip,
           In trip (tripSessions_tbl st)
           /\ TripSession._id trip = Scan.tripSessionId s
           /\ TripSession.driverId trip = Scan.scannedBy s)
        /\ (exists p,
              In p (passengers_tbl st)
              /\ Passenger._id p = Scan.passengerId s
              /\ Passenger.operatorId p = Scan.operatorId s)).
Proof.
  split.
  - paths c.
    all: first
           [ exists []; split; [now rewrite app_nil_r|];
             split; [simpl; lia | intros []; reflexivity]
           | eexists [_]; split; [reflexivity|];
             split; [simpl; lia | intros _; eauto] ].
  - intros Hr s Hin.
    destruct (wf_linked _ (reachable_Wf _ Hr) s Hin)
      as [(trip & Ht & Hd) (p & Hp & Ho)].
    apply find_some in Ht as [Ht Hid]. apply find_some in Hp as [Hp Hid'].
    unfold has_id in Hid, Hid'. apply Nat.eqb_eq in Hid, Hid'.
    split; [exists trip | exists p]; auto.
Qed.

Lemma scans_are_a_log_witness :
  (exists trip,
     In trip (tripSessions_tbl Scenario.s13)
     /\ TripSession._id trip = 8
     /\ TripSession.driverId trip = "u3")
  /\ (exists p,
        In p (passengers_tbl Scenario.s13)
        /\ Passenger._id p = 7
        /\ Passenger.operatorId p = 0).
Proof.
  apply (proj2 (scans_are_a_log Scenario.s13 (routes_remove 2)
                  (Scenario.by_ Scenario.U1 400)) reachable_s13
           (Scan.mk 9 0 8 7 18%Z "u3")).
  vm_compute. left. reflexivity.
Defined.

(** X27. [getTripDetails] takes the id of a trip session: for an id that
    names another table the call is refused by the validator of the
    argument, whoever calls.  For an id that names a trip session it asks
    for an identity first: without one it throws "Not authenticated",
    whether a trip has the id or not.  For an authenticated caller it
    returns null when no trip has the id, throws "Not authorized" when the
    caller has no Member row in the trip's operator, and otherwise
    (whatever the caller's role) returns the trip with its route and
    roster. *)
Theorem getTripDetails_members_only (table_of : Id -> string) (st : db)
    (e : env) (t : Id) :
  (table_of t <> "tripSessions" ->
   exists msg,
     v_id table_of "tripSessions" t e st = Err msg
     /\ trips.getTripDetails table_of t e st = Err msg)
  /\ (table_of t = "tripSessions" ->
      (auth e = None ->
       trips.getTripDetails table_of t e st = Err "Not authenticated")
      /\ (forall user,
            auth e = Some user ->
            (find (has_id tripSessions_t t) (tripSessions_tbl st) = None ->
             trips.getTripDetails table_of t e st = Ok (None, st))
            /\ forall trip,
                 find (has_id tripSessions_t t) (tripSessions_tbl st)
                 = Some trip ->
                 ((forall m, In m (members_tbl st) ->
                     Member.userId m = User._id user ->
                     Member.operatorId m <> TripSession.operatorId trip) ->
                  trips.getTripDetails table_of t e st
                  = Err "Not authorized")
                 /\ (forall m, In m (members_tbl st) ->
                       Member.userId m = User._id user ->
                       Member.operatorId m = TripSession.operatorId trip ->
                       trips.getTripDetails table_of t e st
                       = Ok (Some (view_of st trip), st)))).
Proof.
  unfold has_id. simpl. split.
  - intros Hn. apply String.eqb_neq in Hn. eexists.
    unfold trips.getTripDetails, bind at 1. unfold v_id, throw_if, throw.
    rewrite Hn. simpl. split; reflexivity.
  - intros Hv.
    assert (Hpass : forall k : M (option TripView.t),
              (v_id table_of "tripSessions" t ;; k) e st = k e st).
    { intros k. unfold bind, v_id, throw_if, ret.
      now rewrite Hv, String.eqb_refl. }
    unfold trips.getTripDetails. rewrite Hpass. split.
    + intros Ha. unfold bind at 1, getAuthUser. now rewrite Ha.
    + intros user Ha. split; [|intros trip Ht; split].
      * intros Hnone. unfold bind at 1, getAuthUser.
        rewrite Ha. unfold bind at 1, require, ret.
        unfold bind at 1, db_get. simpl. now rewrite Hnone.
      * intros Hno. unfold bind at 1, getAuthUser.
        rewrite Ha. unfold bind at 1, require, ret.
        unfold bind at 1, db_get. simpl. rewrite Ht.
        unfold bind at 1, q_first. simpl.
        destruct (find _ (members_tbl st)) as [m|] eqn:E; [|reflexivity].
        apply find_some in E as [Hin E]. apply andb_prop in E as [E1 E2].
        apply Nat.eqb_eq in E1. apply String.eqb_eq in E2.
        now destruct (Hno m Hin E2).
      * intros m Hin Hu Ho.
        destruct (find_of_In
                    (by_operator_user (TripSession.operatorId trip)
                       (User._id user)) _ m Hin) as (m' & Hm').
        { unfold by_operator_user. rewrite Ho, Hu, Nat.eqb_refl.
          apply String.eqb_refl. }
        unfold by_operator_user in Hm'.
        unfold bind at 1, getAuthUser.
        rewrite Ha. unfold bind at 1, require, ret.
        unfold bind at 1, db_get. simpl. rewrite Ht.
        unfold bind at 1, q_first. simpl. rewrite Hm'.
        unfold bind, db_get, q_collect. simpl.
        rewrite mapM_withPassenger. reflexivity.
Qed.

Lemma getTripDetails_members_only_witness :
  (exists msg,
     v_id Scenario.table_of "tripSessions" 0 (Scenario.anonymous 400)
       Scenario.s13 = Err msg
     /\ trips.getTripDetails Scenario.table_of 0 (Scenario.anonymous 400)
          Scenario.s13 = Err msg)
  /\ trips.getTripDetails Scenario.table_of 8 (Scenario.anonymous 400)
       Scenario.s13
     = Err "Not authenticated"
  /\ trips.getTripDetails Scenario.table_of 98
       (Scenario.by_ Scenario.U2 400) Scenario.s13
     = Ok (None, Scenario.s13)
  /\ trips.getTripDetails Scenario.table_of 8
       (Scenario.by_ Scenario.U2 400) Scenario.s13
     = Ok (Some (view_of Scenario.s13
                   (Scenario.trip8 (Some 20%Z) completed)), Scenario.s13).
Proof.
  split; [|split; [|split]].
  - apply (proj1 (getTripDetails_members_only Scenario.table_of
                    Scenario.s13 (Scenario.anonymous 400) 0)).
    vm_compute. discriminate.
  - apply (proj1 (proj2 (getTripDetails_members_only Scenario.table_of
                           Scenario.s13 (Scenario.anonymous 400) 8)
                    eq_refl)).
    reflexivity.
  - apply (proj1 (proj2 (proj2 (getTripDetails_members_only
                                  Scenario.table_of Scenario.s13
                                  (Scenario.by_ Scenario.U2 400) 98)
                           eq_refl)
                    Scenario.U2 eq_refl)).
    vm_compute. reflexivity.
  - apply (proj2 (proj2 (proj2 (proj2 (getTripDetails_members_only
                                         Scenario.table_of Scenario.s13
                                         (Scenario.by_ Scenario.U2 400) 8)
                                  eq_refl)
                           Scenario.U2 eq_refl)
                    (Scenario.trip8 (Some 20%Z) completed)
                    ltac:(vm_compute; reflexivity))
             Scenario.member_U2).
    + vm_compute. auto.
    + reflexivity.
    + reflexivity.
Defined.

Lemma mapM_history l e st :
  mapM (fun trip =>
          route <- db_get routes_t (TripSession.routeId trip) ;;
          scans <- q_collect scans_t
                     (fun s => Scan.tripSessionId s
                               =? TripSession._id trip) ;;
          ret (HistoryEntry.mk trip route (List.length scans))) l e st
  = Ok (map (history_entry st) l, st).
Proof.
  induction l as [|a l IH]; [reflexivity|].
  simpl. unfold bind at 1. unfold bind at 1. unfold db_get at 1.
  unfold bind at 1. unfold q_collect at 1. unfold ret at 1.
  unfold bind at 1. rewrite IH. reflexivity.
Qed.

Lemma getDriverHistory_run limit e st :
  trips.getDriverHistory limit e st =
  match auth e with
  | None => Ok ([], st)
  | Some user =>
      match find (by_user (User._id user)) (members_tbl st) with
      | None => Ok ([], st)
      | Some m =>
          if (limit_or_50 limit <? 0)%Z then
            Err "Arg 1 `n` to `take` must be a non-negative integer"
          else
            Ok (map (history_entry st)
                  (firstn (Z.to_nat (limit_or_50 limit))
                     (rev (filter (by_driver (Member.operatorId m)
                                     (User._id user))
                             (tripSessions_tbl st)))), st)
      end
  end.
Proof.
  unfold trips.getDriverHistory, bind at 1, getAuthUser.
  destruct (auth e) as [user|]; [|reflexivity].
  unfold bind at 1, q_first. simpl. unfold by_user.
  destruct (find _ (members_tbl st)) as [m|]; [|reflexivity].
  unfold bind at 1, q_take_desc. fold (limit_or_50 limit).
  destruct (limit_or_50 limit <? 0)%Z; [reflexivity|].
  rewrite mapM_history. reflexivity.
Qed.

(** X28. [getDriverHistory] returns the empty list to a caller without
    identity or without Member row, and throws on a negative limit.
    Otherwise it writes nothing and returns the caller's own trips under
    the operator of their membership, youngest first, at most [limit] of
    them and at most 50 when the limit is absent or 0, each with the
    route [ctx.db.get] finds and the number of its scans. *)
Theorem getDriverHistory_own_trips (st : db) (e : env) (limit : option Z) :
  ((auth e = None
    \/ exists user, auth e = Some user
         /\ find (by_user (User._id user)) (members_tbl st) = None) ->
   trips.getDriverHistory limit e st = Ok ([], st))
  /\ (forall user m,
        auth e = Some user ->
        find (by_user (User._id user)) (members_tbl st) = Some m ->
        ((limit_or_50 limit < 0)%Z ->
         exists msg, trips.getDriverHistory limit e st = Err msg)
        /\ ((0 <= limit_or_50 limit)%Z ->
            exists l,
              trips.getDriverHistory limit e st = Ok (l, st)
              /\ List.length l <= Z.to_nat (limit_or_50 limit)
              /\ map HistoryEntry.trip l
                 = firstn (Z.to_nat (limit_or_50 limit))
                     (rev (filter (by_driver (Member.operatorId m)
                                     (User._id user))
                             (tripSessions_tbl st)))
              /\ forall h, In h l ->
                   In (HistoryEntry.trip h) (tripSessions_tbl st)
                   /\ TripSession.driverId (HistoryEntry.trip h)
                      = User._id user
                   /\ TripSession.operatorId (HistoryEntry.trip h)
                      = Member.operatorId m
                   /\ HistoryEntry.scanCount h
                      = count (by_trip (TripSession._id
                                          (HistoryEntry.trip h)))
                          (scans_tbl st)))
  /\ limit_or_50 None = 50%Z /\ limit_or_50 (Some 0%Z) = 50%Z.
Proof.
  split; [|split; [|split; reflexivity]].
  - rewrite getDriverHistory_run. intros [-> | (user & -> & ->)]; reflexivity.
  - intros user m Ha Hm. rewrite getDriverHistory_run, Ha, Hm. split.
    + intros Hneg. apply Z.ltb_lt in Hneg. rewrite Hneg. eauto.
    + intros Hpos. apply Z.ltb_ge in Hpos. rewrite Hpos.
      eexists. split; [reflexivity|]. split; [|split].
      * rewrite length_map. apply firstn_length_le.
      * rewrite map_map. simpl. apply map_id.
      * intros h Hh. apply in_map_iff in Hh as (tr & <- & Htr).
        apply In_firstn, in_rev, filter_In in Htr as [Hin Hb].
        unfold by_driver in Hb. apply andb_prop in Hb as [H1 H2].
        apply Nat.eqb_eq in H1. apply String.eqb_eq in H2.
        simpl. auto.
Qed.

Lemma getDriverHistory_own_trips_witness :
  exists l,
    trips.getDriverHistory (Some 0%Z) (Scenario.by_ Scenario.U3 400)
      Scenario.s13 = Ok (l, Scenario.s13)
    /\ List.length l <= Z.to_nat (limit_or_50 (Some 0%Z))
    /\ map HistoryEntry.trip l
       = firstn (Z.to_nat (limit_or_50 (Some 0%Z)))
           (rev (filter (by_driver (Member.operatorId Scenario.member_U3)
                           (User._id Scenario.U3))
                   (tripSessions_tbl Scenario.s13)))
    /\ forall h, In h l ->
         In (HistoryEntry.trip h) (tripSessions_tbl Scenario.s13)
         /\ TripSession.driverId (HistoryEntry.trip h)
            = User._id Scenario.U3
         /\ TripSession.operatorId (HistoryEntry.trip h)
            = Member.operatorId Scenario.member_U3
         /\ HistoryEntry.scanCount h
            = count (by_trip (TripSession._id (HistoryEntry.trip h)))
                (scans_tbl Scenario.s13).
Proof.
  apply (proj2 (proj1 (proj2 (getDriverHistory_own_trips Scenario.s13
                                (Scenario.by_ Scenario.U3 400)
                                (Some 0%Z)))
                  Scenario.U3 Scenario.member_U3 eq_refl
                  ltac:(vm_compute; reflexivity))).
  vm_compute. discriminate.
Defined.

(** ** The operator role *)

Lemma role_of_invite_not_operator r :
  Role_eqb (role_of_invite r) operator = false.
Proof. destruct r; reflexivity. Qed.

Lemma one_operator_role_exec c e st :
  Wf st -> one_operator_role (members_tbl st) ->
  one_operator_role (members_tbl (exec c e st)).
Proof.
  intros W H. paths c; try assumption.
  - (* operators.create *)
    intros k. rewrite count_app. unfold count at 2. simpl.
    unfold operator_role_of at 2. simpl. rewrite andb_true_r.
    destruct (nextId st =? k) eqn:E; simpl; [|specialize (H k); lia].
    apply Nat.eqb_eq in E. subst k. rewrite count_find_none; [lia|].
    destruct (find _ (members_tbl st)) as [m|] eqn:F; [|reflexivity].
    exfalso. apply find_some in F as [Hin Hm]. unfold operator_role_of in Hm.
    apply andb_prop in Hm as [Hm _]. apply Nat.eqb_eq in Hm.
    destruct (wf_member_op _ W m Hin) as (o & Ho).
    apply find_some in Ho as [Ho Hid]. unfold has_id in Hid.
    apply Nat.eqb_eq in Hid. simpl in Hid.
    destruct (wf_operators _ W) as [_ Hlt]. specialize (Hlt o Ho).
    simpl in Hlt. lia.
  - (* members.acceptInvite *)
    intros k. rewrite count_app. unfold count at 2. simpl.
    unfold operator_role_of at 2. simpl.
    rewrite role_of_invite_not_operator, andb_false_r. simpl.
    specialize (H k). lia.
  - (* members.removeMember *)
    intros k. eapply Nat.le_trans; [apply count_filter_le | apply H].
Qed.

Lemma reachable_one_operator_role st :
  reachable st -> one_operator_role (members_tbl st).
Proof.
  induction 1 as [|st c e Hr IH _].
  - intros k. unfold count. simpl. lia.
  - apply one_operator_role_exec; [now apply reachable_Wf | exact IH].
Qed.

(** X29. In every reachable state an operator has exactly one member
    with role operator, and that member is its owner: the role is given
    by [operators.create] alone (an invite carries role driver or
    business) and [removeMember] does not take it away. *)
Theorem one_operator_member_per_operator (st : db) (o : Operator.t) :
  reachable st -> In o (operators_tbl st) ->
  count (operator_role_of (Operator._id o)) (members_tbl st) = 1
  /\ forall m, In m (members_tbl st) ->
       Member.operatorId m = Operator._id o -> Member.role m = operator ->
       Member.userId m = Operator.ownerId o.
Proof.
  intros Hr Ho.
  destruct (wf_founders _ (reachable_Wf _ Hr) o Ho)
    as (f & Hf & Hf1 & Hf2 & Hf3).
  pose proof (reachable_one_operator_role _ Hr (Operator._id o)) as Hle.
  assert (Hrole : operator_role_of (Operator._id o) f = true).
  { unfold operator_role_of. now rewrite Hf1, Hf3, Nat.eqb_refl. }
  pose proof (count_pos _ _ _ Hf Hrole) as Hpos.
  split; [lia|]. intros m Hm Hm1 Hm3.
  assert (Hrole' : operator_role_of (Operator._id o) m = true).
  { unfold operator_role_of. now rewrite Hm1, Hm3, Nat.eqb_refl. }
  pose proof (unique_find _ _ _ Hle Hf Hrole) as F1.
  pose proof (unique_find _ _ _ Hle Hm Hrole') as F2.
  congruence.
Qed.

Lemma one_operator_member_per_operator_witness :
  count (operator_role_of 0) (members_tbl Scenario.s13) = 1
  /\ forall m, In m (members_tbl Scenario.s13) ->
       Member.operatorId m = 0 -> Member.role m = operator ->
       Member.userId m = "u1".
Proof.
  apply (one_operator_member_per_operator Scenario.s13 Scenario.acme
           reachable_s13).
  vm_compute. left. reflexivity.
Defined.

(** ** Reports *)

Lemma mapM_passengerStats op l e st :
  mapM (reports.passengerStats op) l e st = Ok (map (stats_of st op) l, st).
Proof.
  induction l as [|a l IH]; [reflexivity|].
  simpl. unfold bind at 1. unfold reports.passengerStats at 1.
  unfold bind at 1. unfold q_collect at 1. unfold bind at 1.
  unfold q_first at 1. unfold ret at 1. unfold bind at 1.
  rewrite IH. reflexivity.
Qed.

Lemma fold_max_ge l a : (a <= fold_left Z.max l a)%Z.
Proof.
  revert a. induction l as [|x l IH]; intros a; simpl; [lia|].
  specialize (IH (Z.max a x)). lia.
Qed.

Lemma fold_max_upper l a x : In x l -> (x <= fold_left Z.max l a)%Z.
Proof.
  revert a. induction l as [|y l IH]; intros a; simpl; [intros []|].
  intros [-> | Hin]; [|auto].
  pose proof (fold_max_ge l (Z.max a x)). lia.
Qed.

Lemma fold_max_attained l a :
  fold_left Z.max l a = a \/ In (fold_left Z.max l a) l.
Proof.
  revert a. induction l as [|y l IH]; intros a; simpl; [now left|].
  destruct (IH (Z.max a y)) as [H | H]; [|auto].
  rewrite H. destruct (Z.max_spec a y) as [[_ ->] | [_ ->]]; auto.
Qed.

(** [lastScanOf] is the greatest [scannedAt], and it is that of a scan. *)
Lemma lastScanOf_spec scans a :
  reports.lastScanOf scans = Some a ->
  (exists s, In s scans /\ Scan.scannedAt s = a)
  /\ forall s, In s scans -> (Scan.scannedAt s <= a)%Z.
Proof.
  destruct scans as [|s0 rest]; [discriminate|]. simpl. intros [= <-]. split.
  - destruct (fold_max_attained (map Scan.scannedAt rest) (Scan.scannedAt s0))
      as [H | H].
    + exists s0. auto.
    + apply in_map_iff in H as (s & Hs & Hin). exists s. auto.
  - intros s [<- | Hin]; [apply fold_max_ge|].
    apply fold_max_upper. now apply in_map.
Qed.

(** With at most one scan per trip of a passenger, the trips of the scans
    of the passenger are distinct. *)
Lemma trips_of_passenger_NoDup l p :
  scans_unique l ->
  NoDup (map Scan.tripSessionId (filter (by_passenger p) l)).
Proof.
  induction l as [|a l IH]; intros H; simpl; [constructor|].
  assert (Hl : scans_unique l).
  { intros t' p'. eapply Nat.le_trans; [apply count_tail_le | apply H]. }
  destruct (by_passenger p a) eqn:E; [|auto]. simpl. constructor; [|auto].
  intros Hin. apply in_map_iff in Hin as (s & Hs & Hin).
  apply filter_In in Hin as [Hin Hb].
  assert (Hf : scan_of (Scan.tripSessionId a) p s = true).
  { unfold scan_of. unfold by_passenger in Hb. rewrite Hb, Hs.
    now rewrite Nat.eqb_refl. }
  pose proof (count_pos _ _ _ Hin Hf) as Hp.
  specialize (H (Scan.tripSessionId a) p). unfold count in H, Hp.
  simpl in H. unfold scan_of at 1 in H. unfold by_passenger in E.
  rewrite E, Nat.eqb_refl in H. simpl in H. lia.
Qed.

(** X30. [getPassengerStats] returns, and writes nothing, only to a
    caller whose membership has role operator in the operator asked for.
    In a reachable state it lists every passenger of that operator,
    archived ones too, in creation order; [tripCount] is the number of
    the passenger's scans, which are all on different trips; and
    [lastScan] is null exactly when there is no scan, and otherwise the
    greatest [scannedAt] among them. *)
Theorem getPassengerStats_counts (st st' : db) (e : env) (op : Id)
    (l : list PassengerStats.t) :
  reachable st ->
  reports.getPassengerStats op e st = Ok (l, st') ->
  st' = st
  /\ (exists user m,
        auth e = Some user
        /\ find (by_user (User._id user)) (members_tbl st) = Some m
        /\ Member.role m = operator /\ Member.operatorId m = op)
  /\ map PassengerStats.passenger l
     = filter (fun p => Passenger.operatorId p =? op) (passengers_tbl st)
  /\ forall x, In x l ->
       let scans :=
         filter (by_passenger (Passenger._id (PassengerStats.passenger x)))
           (scans_tbl st) in
       PassengerStats.tripCount x = List.length scans
       /\ NoDup (map Scan.tripSessionId scans)
       /\ (PassengerStats.tripCount x = 0 <-> PassengerStats.lastScan x = None)
       /\ forall a, PassengerStats.lastScan x = Some a ->
            (exists s, In s scans /\ Scan.scannedAt s = a)
            /\ forall s, In s scans -> (Scan.scannedAt s <= a)%Z.
Proof.
  intros Hr H. pose proof (inv_scans _ (reachable_Inv _ Hr)) as Hu.
  assert (exists user m,
             auth e = Some user
             /\ find (by_user (User._id user)) (members_tbl st) = Some m
             /\ Member.role m = operator /\ Member.operatorId m = op
             /\ st' = st
             /\ l = map (stats_of st op)
                      (filter (fun p => Passenger.operatorId p =? op)
                         (passengers_tbl st)))
    as (user & m & Ha & Hm & Hrole & Hop & -> & ->).
  { revert H. unfold reports.getPassengerStats, reports.requireOperatorRole.
    unfold bind at 1. unfold bind at 1. unfold bind at 1.
    unfold getAuthUser, by_user.
    destruct (auth e) as [user|]; [|discriminate].
    unfold require, ret. unfold bind at 1. unfold q_first. simpl.
    destruct (find _ (members_tbl st)) as [m|] eqn:Hm; [|discriminate].
    destruct (Role_eqb (Member.role m) operator) eqn:R; [|discriminate].
    unfold bind at 1. unfold throw_if.
    destruct (negb (Member.operatorId m =? op)) eqn:O; [discriminate|].
    unfold ret. unfold bind at 1. unfold q_collect. simpl.
    rewrite mapM_passengerStats. intros [= <- <-].
    apply negb_eqb_false in O. exists user, m.
    split; [reflexivity|]. split; [exact Hm|]. split; [|auto].
    destruct (Member.role m); try discriminate; reflexivity. }
  split; [reflexivity|]. split; [eauto 6|]. split.
  - rewrite map_map. simpl. apply map_id.
  - intros x Hx. apply in_map_iff in Hx as (p & <- & Hp). simpl.
    split; [reflexivity|]. split; [now apply trips_of_passenger_NoDup|].
    split.
    + unfold count.
      destruct (filter _ (scans_tbl st)); simpl; split;
        try reflexivity; discriminate.
    + apply lastScanOf_spec.
Qed.

Lemma getPassengerStats_counts_witness :
  Scenario.s13 = Scenario.s13
  /\ (exists user m,
        auth (Scenario.by_ Scenario.U1 400) = Some user
        /\ find (by_user (User._id user)) (members_tbl Scenario.s13) = Some m
        /\ Member.role m = operator /\ Member.operatorId m = 0)
  /\ map PassengerStats.passenger
       (map (stats_of Scenario.s13 0)
          [Scenario.alice (Some 200%Z); Scenario.bob])
     = filter (fun p => Passenger.operatorId p =? 0)
         (passengers_tbl Scenario.s13)
  /\ forall x,
       In x (map (stats_of Scenario.s13 0)
               [Scenario.alice (Some 200%Z); Scenario.bob]) ->
       let scans :=
         filter (by_passenger (Passenger._id (PassengerStats.passenger x)))
           (scans_tbl Scenario.s13) in
       PassengerStats.tripCount x = List.length scans
       /\ NoDup (map Scan.tripSessionId scans)
       /\ (PassengerStats.tripCount x = 0 <-> PassengerStats.lastScan x = None)
       /\ forall a, PassengerStats.lastScan x = Some a ->
            (exists s, In s scans /\ Scan.scannedAt s = a)
            /\ forall s, In s scans -> (Scan.scannedAt s <= a)%Z.
Proof.
  apply (getPassengerStats_counts Scenario.s13 Scenario.s13
           (Scenario.by_ Scenario.U1 400) 0
           (map (stats_of Scenario.s13 0)
              [Scenario.alice (Some 200%Z); Scenario.bob])
           reachable_s13).
  vm_compute. reflexivity.
Defined.
